(** * AI chat add-on: streaming session, flashcard parser, formatter, controller

    A shallow embedding of the core of [ai_chat_collection.py] (and of the
    non-streaming sibling [ai_chat_simple.py]) together with the properties
    its design document states about it.

    Conventions of the embedding.
    - A Python [str] is a list of Unicode code points ([text]); a [bytes]
      object is a list of octets.  String literals of the source are written
      [str "..."].
    - A Python loop over a list is a [fold_left] of its body over that list;
      the variables the loop updates are the fields of a state record.
    - Code that can raise returns a [result]; a [try]/[except] is a match on
      it.
    - Signals emitted by a worker thread are the list of emitted values, in
      emission order. *)

From Stdlib Require Import Ascii String.
From Stdlib Require Import List Bool Arith NArith ZArith Lia.
From Stdlib Require Import Permutation Sorting.Sorted.
Import ListNotations.

Set Implicit Arguments.
Set Warnings "-register-all".

(* ================================================================== *)
(** * Python values used by the add-on *)
(* ================================================================== *)

Module Py.

Open Scope N_scope.

(** A code point, and a [str]. *)
Definition char := N.
Definition text := list char.

(** The literal ["..."] of the source, code point by code point. *)
Definition str (s : string) : text :=
  List.map N_of_ascii (list_ascii_of_string s).

Definition LF : char := 10.

(** [bool(s)] for a [str]: the empty string is false. *)
Definition truthy (s : text) : bool :=
  match s with [] => false | _ :: _ => true end.

Fixpoint text_eqb (a b : text) : bool :=
  match a, b with
  | [], [] => true
  | x :: a', y :: b' => (x =? y) && text_eqb a' b'
  | _, _ => false
  end.

(** [str.isspace] on one code point: the white-space set of CPython
    ([_PyUnicode_IsWhitespace]); [str.strip()] and the [\s] class of [re]
    on [str] patterns both use it. *)
Definition isspace (c : char) : bool :=
  ((9 <=? c) && (c <=? 13)) || ((28 <=? c) && (c <=? 32))
  || (c =? 133) || (c =? 160) || (c =? 5760)
  || ((8192 <=? c) && (c <=? 8202))
  || (c =? 8232) || (c =? 8233) || (c =? 8239) || (c =? 8287)
  || (c =? 12288).

Fixpoint lstrip (s : text) : text :=
  match s with
  | [] => []
  | c :: s' => if isspace c then lstrip s' else s
  end.

Fixpoint rstrip (s : text) : text :=
  match s with
  | [] => []
  | c :: s' =>
      match rstrip s' with
      | [] => if isspace c then [] else [c]
      | r => c :: r
      end
  end.

(** [s.strip()] *)
Definition strip (s : text) : text := rstrip (lstrip s).

(** [s.split(sep)] for a one-character separator: never empty. *)
Fixpoint split (sep : char) (s : text) : list text :=
  match s with
  | [] => [[]]
  | c :: s' =>
      if c =? sep then [] :: split sep s'
      else match split sep s' with
           | l :: ls => (c :: l) :: ls
           | [] => [[c]]
           end
  end.

(** [s.startswith(prefix)] *)
Fixpoint startswith (prefix s : text) : bool :=
  match prefix, s with
  | [], _ => true
  | p :: ps, c :: cs => (p =? c) && startswith ps cs
  | _ :: _, [] => false
  end.

(** [sub in s] for two strings. *)
Fixpoint contains (sub s : text) : bool :=
  startswith sub s
  || match s with [] => false | _ :: s' => contains sub s' end.

(** [s.replace(old, new)] for a one-character [old]. *)
Fixpoint replace_char (old : char) (new : text) (s : text) : text :=
  match s with
  | [] => []
  | c :: s' =>
      if c =? old then new ++ replace_char old new s'
      else c :: replace_char old new s'
  end.

(** [c.lower() == l], for [l] a lower-case ASCII letter or a colon.
    [str.lower] works code point by code point, and the code points whose
    lower-case form is such an [l] are [l] itself, its ASCII capital and,
    for [k], U+212A KELVIN SIGN; the one code point whose lower-case form
    is longer than one code point (U+0130) gives [i] followed by U+0307. *)
Definition lowers_to (c l : char) : bool :=
  (c =? l)
  || ((65 <=? c) && (c <=? 90) && (c + 32 =? l))
  || ((c =? 8490) && (l =? 107)).

(** [line.lower().startswith(prefix)], for a [prefix] made of lower-case ASCII
    letters and colons ([front:] and [back:] in the source). *)
Fixpoint lower_startswith (prefix line : text) : bool :=
  match prefix, line with
  | [], _ => true
  | p :: ps, c :: cs => lowers_to c p && lower_startswith ps cs
  | _ :: _, [] => false
  end.

(** [s[n:]] *)
Definition slice_from (n : nat) (s : text) : text := skipn n s.

End Py.

Import Py.

(* ================================================================== *)
(** * FlashcardGenerationDialog.parse_flashcards *)
(* ================================================================== *)

(** The two shapes of a parsed card: [{'front': .., 'back': ..}] and
    [{'content': ..}]. *)
Inductive flashcard : Type :=
| BasicCard (front back : text)
| ClozeCard (content : text).

(** The outcome of the test ["cloze" in self.format_combo.currentText().lower()]. *)
Inductive card_format : Type := basic | cloze.

Module Parser.

(** ** Cloze branch *)

Record cloze_state : Type := mkCloze {
  cz_flashcards : list flashcard;
  cz_current_card : text
}.

Definition cloze_line (st : cloze_state) (raw : text) : cloze_state :=
  let line := strip raw in
  if truthy line && contains (str "{{c") line then
    mkCloze
      (if truthy (cz_current_card st)
       then cz_flashcards st ++ [ClozeCard (strip (cz_current_card st))]
       else cz_flashcards st)
      line
  else if truthy line && truthy (cz_current_card st) then
    mkCloze (cz_flashcards st) (cz_current_card st ++ LF :: line)
  else if negb (truthy line) && truthy (cz_current_card st) then
    mkCloze (cz_flashcards st ++ [ClozeCard (strip (cz_current_card st))]) []
  else st.

Definition cloze_finish (st : cloze_state) : list flashcard :=
  if truthy (cz_current_card st)
  then cz_flashcards st ++ [ClozeCard (strip (cz_current_card st))]
  else cz_flashcards st.

Definition parse_cloze (t : text) : list flashcard :=
  cloze_finish (fold_left cloze_line (split LF t) (mkCloze [] [])).

(** ** Basic branch *)

Record basic_state : Type := mkBasic {
  flashcards : list flashcard;
  current_front : text;
  current_back : text;
  in_front : bool;
  in_back : bool
}.

Definition emit_pending (st : basic_state) : list flashcard :=
  if truthy (current_front st) && truthy (current_back st)
  then flashcards st ++ [BasicCard (strip (current_front st)) (strip (current_back st))]
  else flashcards st.

Definition basic_line (st : basic_state) (raw : text) : basic_state :=
  let line := strip raw in
  if lower_startswith (str "front:") line then
    mkBasic (emit_pending st) (strip (slice_from 6 line)) [] true false
  else if lower_startswith (str "back:") line then
    mkBasic (flashcards st) (current_front st) (strip (slice_from 5 line)) false true
  else if truthy line && in_front st then
    mkBasic (flashcards st) (current_front st ++ LF :: line) (current_back st)
            (in_front st) (in_back st)
  else if truthy line && in_back st then
    mkBasic (flashcards st) (current_front st) (current_back st ++ LF :: line)
            (in_front st) (in_back st)
  else if negb (truthy line) && truthy (current_front st) && truthy (current_back st) then
    mkBasic (emit_pending st) [] [] false false
  else st.

Definition parse_basic (t : text) : list flashcard :=
  emit_pending (fold_left basic_line (split LF t) (mkBasic [] [] [] false false)).

Definition parse_flashcards (fmt : card_format) (t : text) : list flashcard :=
  match fmt with
  | cloze => parse_cloze t
  | basic => parse_basic t
  end.


(** ** Vocabulary of the statements *)

(** The lines of a text, joined by line feeds. *)
Fixpoint unlines (ls : list string) : text :=
  match ls with
  | [] => []
  | [l] => str l
  | l :: ls' => str l ++ LF :: unlines ls'
  end.

Definition ascii_digit (c : char) : bool := (48 <=? c)%N && (c <=? 57)%N.

Fixpoint drop_digits (s : text) : text :=
  match s with
  | c :: s' => if ascii_digit c then drop_digits s' else s
  | [] => []
  end.

(** A cloze deletion starts here: two opening braces, [c], a number, two
    colons, and two closing braces further on. *)
Definition cloze_span_here (s : text) : bool :=
  startswith (str "{{c") s
  && match skipn 3 s with
     | d :: r =>
         ascii_digit d
         && startswith (str "::") (drop_digits r)
         && contains (str "}}") (skipn 2 (drop_digits r))
     | [] => false
     end.

Fixpoint has_cloze_span (s : text) : bool :=
  cloze_span_here s
  || match s with [] => false | _ :: s' => has_cloze_span s' end.

End Parser.

(* ================================================================== *)
(** * The part of Python's [re] the formatter uses *)
(* ================================================================== *)

(** Errors that the modelled code can raise.  [str(e)] is not modelled: an
    error signal carries the exception itself. *)
Inductive exn : Type :=
| ReError            (* re.error: invalid group reference *)
| JSONDecodeError
| UnicodeDecodeError
| TypeError
| KeyError
| IndexError
| AttributeError
| URLError (reason : text)   (* any failure of the transport *)
| StoreError (reason : text) (* any failure of the host collection *).

Inductive result (A : Type) : Type :=
| Ok (a : A)
| Raise (e : exn).

Arguments Ok {A} a.
Arguments Raise {A} e.

Definition bind {A B : Type} (m : result A) (f : A -> result B) : result B :=
  match m with
  | Ok a => f a
  | Raise e => Raise e
  end.

Notation "x <- m ;; k" := (bind m (fun x => k))
  (at level 61, m at next level, right associativity).

Module Re.

Open Scope N_scope.

Inductive greed : Type := Greedy | Lazy.

(** Pieces of a pattern that capture nothing. *)
Inductive atom : Type :=
| Bol                                   (* ^ under re.MULTILINE *)
| Eol                                   (* $ under re.MULTILINE *)
| Chr (c : char)                        (* a literal character *)
| Cls (p : char -> bool)                (* a class: [..], \d, \s *)
| Rep (g : greed) (min : nat) (p : char -> bool).
                                        (* p*, p+, p*?, p+? for a class p *)

(** A pattern is a sequence of atoms and of capturing groups; the groups of
    the source's patterns are not nested, so group [k] is the [k]-th [Group]. *)
Inductive item : Type :=
| Plain (a : atom)
| Group (body : list atom).

Definition pattern := list item.

(** [.] without re.DOTALL *)
Definition dot (c : char) : bool := negb (c =? LF).

Definition lit (s : string) : pattern := List.map (fun c => Plain (Chr c)) (str s).

(** A replacement template: literal text and group references [\k]. *)
Inductive tpiece : Type :=
| TLit (s : text)
| TRef (k : nat).

Definition template := list tpiece.

Section Matcher.

(** The answer of a match attempt: the text left after the match and the
    captured groups, in order. *)
Variable R : Type.

(** A position is the character before it (if any) and the text after it. *)
Definition cont := option char -> text -> option R.

(** Greedy repetition: as many as possible first, then fewer. *)
Fixpoint rep_greedy (p : char -> bool) (min : nat) (k : cont)
         (prev : option char) (rest : text) : option R :=
  let stop := match min with O => k prev rest | S _ => None end in
  match rest with
  | c :: rest' =>
      if p c then
        match rep_greedy p (Nat.pred min) k (Some c) rest' with
        | Some r => Some r
        | None => stop
        end
      else stop
  | [] => stop
  end.

(** Lazy repetition: as few as possible first, then more. *)
Fixpoint rep_lazy (p : char -> bool) (min : nat) (k : cont)
         (prev : option char) (rest : text) : option R :=
  let more :=
    match rest with
    | c :: rest' => if p c then rep_lazy p (Nat.pred min) k (Some c) rest' else None
    | [] => None
    end in
  match min with
  | O => match k prev rest with
         | Some r => Some r
         | None => more
         end
  | S _ => more
  end.

Definition match_atom (a : atom) (k : cont) (prev : option char) (rest : text)
  : option R :=
  match a with
  | Bol => match prev with
           | None => k prev rest
           | Some c => if c =? LF then k prev rest else None
           end
  | Eol => match rest with
           | [] => k prev rest
           | c :: _ => if c =? LF then k prev rest else None
           end
  | Chr c => match rest with
             | c' :: rest' => if c' =? c then k (Some c') rest' else None
             | [] => None
             end
  | Cls p => match rest with
             | c' :: rest' => if p c' then k (Some c') rest' else None
             | [] => None
             end
  | Rep Greedy min p => rep_greedy p min k prev rest
  | Rep Lazy min p => rep_lazy p min k prev rest
  end.

Fixpoint match_atoms (body : list atom) (k : cont) : cont :=
  match body with
  | [] => k
  | a :: body' => match_atom a (match_atoms body' k)
  end.

End Matcher.

(** What was consumed between a position and a later one. *)
Definition consumed (rest rest' : text) : text :=
  firstn (length rest - length rest') rest.

Definition answer := (text * list text)%type.

Fixpoint match_items (pat : pattern) (caps : list text)
         (k : list text -> cont answer) : cont answer :=
  match pat with
  | [] => k caps
  | Plain a :: pat' => match_atom a (match_items pat' caps k)
  | Group body :: pat' =>
      fun prev rest =>
        match_atoms body
          (fun prev' rest' =>
             match_items pat' (caps ++ [consumed rest rest']) k prev' rest')
          prev rest
  end.

(** One attempt at one position.  [must_advance] refuses the empty match,
    as the engine does right after an empty match at the same position.
    The answer is the number of characters matched and the groups. *)
Definition match_at (pat : pattern) (must_advance : bool)
           (prev : option char) (rest : text) : option (nat * list text) :=
  match
    match_items pat []
      (fun caps _ rest' =>
         if must_advance && (length rest' =? length rest)%nat then None
         else Some (rest', caps))
      prev rest
  with
  | Some (rest', caps) => Some ((length rest - length rest')%nat, caps)
  | None => None
  end.

Fixpoint count_groups (pat : pattern) : nat :=
  match pat with
  | [] => 0
  | Plain _ :: pat' => count_groups pat'
  | Group _ :: pat' => S (count_groups pat')
  end.

Definition valid_template (pat : pattern) (tm : template) : bool :=
  forallb (fun p => match p with
                    | TLit _ => true
                    | TRef k => (1 <=? k)%nat && (k <=? count_groups pat)%nat
                    end) tm.

Definition expand (tm : template) (caps : list text) : text :=
  flat_map (fun p => match p with
                     | TLit s => s
                     | TRef k => nth (Nat.pred k) caps []
                     end) tm.

(** The scan of [re.sub]: matches are found left to right and do not
    overlap; [skip] counts the characters still inside the last match. *)
Fixpoint sub_scan (pat : pattern) (tm : template) (skip : nat)
         (prev : option char) (rest : text) : text :=
  match rest with
  | [] =>
      match skip with
      | O => match match_at pat false prev [] with
             | Some (_, caps) => expand tm caps
             | None => []
             end
      | S _ => []
      end
  | c :: rest' =>
      match skip with
      | S n => sub_scan pat tm n (Some c) rest'
      | O =>
          match match_at pat false prev rest with
          | Some (S n, caps) => expand tm caps ++ sub_scan pat tm n (Some c) rest'
          | Some (O, caps) =>
              expand tm caps ++
              match match_at pat true prev rest with
              | Some (S n, caps') =>
                  expand tm caps' ++ sub_scan pat tm n (Some c) rest'
              | _ => c :: sub_scan pat tm O (Some c) rest'
              end
          | None => c :: sub_scan pat tm O (Some c) rest'
          end
      end
  end.

(** [re.sub(pat, tm, s)]; a template that names a group the pattern does not
    have is refused when the template is compiled. *)
Definition sub (pat : pattern) (tm : template) (s : text) : result text :=
  if valid_template pat tm then Ok (sub_scan pat tm 0 None s)
  else Raise ReError.

End Re.

(* ================================================================== *)
(** * convert_markdown_to_html *)
(* ================================================================== *)

Module Formatter.

Import Re.
Open Scope N_scope.

Definition dq : text := [34].           (* the double quote *)
Definition bullet : char := 8226.       (* U+2022 *)

Definition h_open (tag size margin : string) : text :=
  str "<" ++ str tag ++ str " style=" ++ dq ++ str "font-size: " ++ str size
  ++ str "; font-weight: bold; margin: " ++ str margin
  ++ str "; color: #6c5ce7;" ++ dq ++ str ">".

Definition h_close (tag : string) : text := str "</" ++ str tag ++ str ">".

Definition header_pattern (marker : string) : pattern :=
  [Plain Bol] ++ lit marker ++ [Group [Rep Greedy 1 dot]; Plain Eol].

Definition header_template (tag size margin : string) : template :=
  [TLit (h_open tag size margin); TRef 1; TLit (h_close tag)].

Definition bold_pattern : pattern :=
  lit "**" ++ [Group [Rep Lazy 0 dot]] ++ lit "**".

Definition italic_pattern : pattern :=
  lit "*" ++ [Group [Rep Lazy 0 dot]] ++ lit "*".

Definition code_pattern : pattern :=
  lit "`" ++ [Group [Rep Lazy 0 dot]] ++ lit "`".

Definition code_template : template :=
  [TLit (str "<code style=" ++ dq
         ++ str "background-color: rgba(128,128,128,0.2); padding: 2px 4px; border-radius: 3px; font-family: monospace;"
         ++ dq ++ str ">");
   TRef 1; TLit (str "</code>")].

Definition div_open : text :=
  str "<div style=" ++ dq ++ str "margin: 4px 0;" ++ dq ++ str ">".

Definition is_bullet (c : char) : bool :=
  (c =? bullet) || (c =? 45) || (c =? 42).

Section WithDigits.

(** [\d] on a [str] pattern is the decimal-digit table of the interpreter's
    Unicode database; the table is a parameter of the formatter. *)
Variable is_decimal : char -> bool.

Definition numbered_pattern : pattern :=
  [Plain Bol; Group [Rep Greedy 1 is_decimal]; Plain (Chr 46);
   Plain (Rep Greedy 1 isspace); Group [Rep Greedy 1 dot]; Plain Eol].

Definition numbered_template : template :=
  [TLit (div_open ++ str "<b>"); TRef 1; TLit (str ".</b> "); TRef 2;
   TLit (str "</div>")].

Definition bullet_pattern : pattern :=
  [Plain Bol; Plain (Cls is_bullet); Plain (Rep Greedy 1 isspace);
   Group [Rep Greedy 1 dot]; Plain Eol].

Definition bullet_template : template :=
  [TLit (div_open ++ [bullet; 32]); TRef 1; TLit (str "</div>")].

Definition convert_markdown_to_html (t : text) : result text :=
  t <- sub (header_pattern "### ")
           (header_template "h3" "16px" "12px 0 8px 0") t ;;
  t <- sub (header_pattern "## ")
           (header_template "h2" "18px" "16px 0 10px 0") t ;;
  t <- sub (header_pattern "# ")
           (header_template "h1" "20px" "20px 0 12px 0") t ;;
  t <- sub bold_pattern [TLit (str "<b>"); TRef 1; TLit (str "</b>")] t ;;
  t <- sub italic_pattern [TLit (str "<i>"); TRef 1; TLit (str "</i>")] t ;;
  t <- sub code_pattern code_template t ;;
  let t := replace_char LF (str "<br>") t in
  t <- sub numbered_pattern numbered_template t ;;
  t <- sub bullet_pattern bullet_template t ;;
  Ok t.


(** ** Vocabulary of the statements: text without markup *)

(** A header marker opens the line. *)
Definition header_marker (l : text) : bool :=
  startswith (str "# ") l || startswith (str "## ") l
  || startswith (str "### ") l.

(** The markers of bold, italic and code spans. *)
Definition span_marker (c : char) : bool := (c =? 42) || (c =? 96).

(** Decimal digits (none, one or more), a full stop, a white space. *)
Fixpoint digits_then_dot (l : text) : bool :=
  match l with
  | [] => false
  | x :: l' =>
      ((x =? 46) && match l' with c :: _ => isspace c | [] => false end)
      || (is_decimal x && digits_then_dot l')
  end.

(** A list marker opens the line: a number, a full stop, a white space. *)
Definition list_marker (l : text) : bool :=
  match l with
  | x :: l' => is_decimal x && digits_then_dot l'
  | [] => false
  end.

(** A bullet marker opens the line: a bullet character, a white space. *)
Definition bullet_marker (l : text) : bool :=
  match l with
  | x :: c :: _ => is_bullet x && isspace c
  | _ => false
  end.

Definition plain_line (l : text) : bool :=
  negb (header_marker l) && negb (list_marker l) && negb (bullet_marker l).

(** No markup token: no span marker anywhere, no header, list or bullet
    marker at the start of a line. *)
Definition plain (t : text) : bool :=
  forallb (fun c => negb (span_marker c)) t
  && forallb plain_line (split LF t).

End WithDigits.

End Formatter.

(* ================================================================== *)
(** * bytes.decode('utf-8') *)
(* ================================================================== *)

Module Utf8.

Open Scope N_scope.

Definition bytes := list Byte.byte.

(** The literal [b"..."]. *)
Definition bstr (s : string) : bytes := list_byte_of_string s.

Definition between (lo hi b : N) : bool := (lo <=? b) && (b <=? hi).

Definition is_cont (b : N) : bool := between 128 191 b.

(** Strict UTF-8: no overlong forms, no surrogates, nothing above U+10FFFF. *)
Fixpoint decode_N (bs : list N) : result text :=
  match bs with
  | [] => Ok []
  | b1 :: t1 =>
      if b1 <? 128 then
        r <- decode_N t1 ;; Ok (b1 :: r)
      else if between 194 223 b1 then
        match t1 with
        | b2 :: t2 =>
            if is_cont b2 then
              r <- decode_N t2 ;; Ok (((b1 - 192) * 64 + (b2 - 128)) :: r)
            else Raise UnicodeDecodeError
        | _ => Raise UnicodeDecodeError
        end
      else if between 224 239 b1 then
        match t1 with
        | b2 :: b3 :: t3 =>
            let lo := if b1 =? 224 then 160 else 128 in
            let hi := if b1 =? 237 then 159 else 191 in
            if between lo hi b2 && is_cont b3 then
              r <- decode_N t3 ;;
              Ok (((b1 - 224) * 4096 + (b2 - 128) * 64 + (b3 - 128)) :: r)
            else Raise UnicodeDecodeError
        | _ => Raise UnicodeDecodeError
        end
      else if between 240 244 b1 then
        match t1 with
        | b2 :: b3 :: b4 :: t4 =>
            let lo := if b1 =? 240 then 144 else 128 in
            let hi := if b1 =? 244 then 143 else 191 in
            if between lo hi b2 && is_cont b3 && is_cont b4 then
              r <- decode_N t4 ;;
              Ok (((b1 - 240) * 262144 + (b2 - 128) * 4096
                   + (b3 - 128) * 64 + (b4 - 128)) :: r)
            else Raise UnicodeDecodeError
        | _ => Raise UnicodeDecodeError
        end
      else Raise UnicodeDecodeError
  end.

Definition decode (bs : bytes) : result text :=
  decode_N (List.map Byte.to_N bs).

End Utf8.

(* ================================================================== *)
(** * json.loads, and the operations the worker applies to its result *)
(* ================================================================== *)

Module Json.

Open Scope N_scope.

(** A decoded document.  A number keeps its lexeme: the worker never looks
    at the value of a number.  A [dict] keeps its keys in insertion order and
    holds each key once. *)
Inductive json : Type :=
| JNull
| JBool (b : bool)
| JNumber (lexeme : text)
| JString (s : text)
| JArray (items : list json)
| JObject (members : list (text * json)).

(** [d[k] = v] *)
Fixpoint dict_set (d : list (text * json)) (k : text) (v : json)
  : list (text * json) :=
  match d with
  | [] => [(k, v)]
  | (k', v') :: d' =>
      if text_eqb k' k then (k', v) :: d' else (k', v') :: dict_set d' k v
  end.

Fixpoint dict_find (d : list (text * json)) (k : text) : option json :=
  match d with
  | [] => None
  | (k', v) :: d' => if text_eqb k' k then Some v else dict_find d' k
  end.

(** ** The scanner *)

Definition is_ws (c : char) : bool :=
  (c =? 32) || (c =? 9) || (c =? 10) || (c =? 13).

Fixpoint skip_ws (s : text) : text :=
  match s with
  | c :: s' => if is_ws c then skip_ws s' else s
  | [] => []
  end.

Definition is_digit (c : char) : bool := (48 <=? c) && (c <=? 57).

Definition hex_value (c : char) : option N :=
  if is_digit c then Some (c - 48)
  else if (97 <=? c) && (c <=? 102) then Some (c - 87)
  else if (65 <=? c) && (c <=? 70) then Some (c - 55)
  else None.

(** The four hexadecimal digits of a [\uXXXX] escape. *)
Definition hex4 (s : text) : option (N * text) :=
  match s with
  | a :: b :: c :: d :: s' =>
      match hex_value a, hex_value b, hex_value c, hex_value d with
      | Some x, Some y, Some z, Some w =>
          Some (x * 4096 + y * 256 + z * 16 + w, s')
      | _, _, _, _ => None
      end
  | _ => None
  end.

Definition is_high_surrogate (c : N) : bool := (55296 <=? c) && (c <=? 56319).
Definition is_low_surrogate (c : N) : bool := (56320 <=? c) && (c <=? 57343).

(** The body of a string, after its opening quote (strict mode): the
    decoded string and the text after the closing quote. *)
Fixpoint scanstring (fuel : nat) (s : text) : result (text * text) :=
  match fuel with
  | O => Raise JSONDecodeError
  | S fuel' =>
      match s with
      | [] => Raise JSONDecodeError                    (* unterminated *)
      | c :: s' =>
          if c =? 34 then Ok ([], s')
          else if c =? 92 then
            match s' with
            | [] => Raise JSONDecodeError
            | e :: s'' =>
                if e =? 117 then
                  match hex4 s'' with
                  | None => Raise JSONDecodeError
                  | Some (u, s3) =>
                      let plain := (r <- scanstring fuel' s3 ;;
                                    Ok (u :: fst r, snd r)) in
                      if is_high_surrogate u then
                        match s3 with
                        | 92 :: 117 :: s4 =>
                            match hex4 s4 with
                            | None => Raise JSONDecodeError
                            | Some (u2, s5) =>
                                if is_low_surrogate u2 then
                                  r <- scanstring fuel' s5 ;;
                                  Ok ((65536 + (u - 55296) * 1024 + (u2 - 56320))
                                        :: fst r, snd r)
                                else plain
                            end
                        | _ => plain
                        end
                      else plain
                  end
                else
                  match
                    (if e =? 34 then Some 34 else if e =? 92 then Some 92
                     else if e =? 47 then Some 47 else if e =? 98 then Some 8
                     else if e =? 102 then Some 12 else if e =? 110 then Some 10
                     else if e =? 114 then Some 13 else if e =? 116 then Some 9
                     else None)
                  with
                  | Some d => r <- scanstring fuel' s'' ;; Ok (d :: fst r, snd r)
                  | None => Raise JSONDecodeError         (* invalid escape *)
                  end
            end
          else if c <? 32 then Raise JSONDecodeError    (* control character *)
          else r <- scanstring fuel' s' ;; Ok (c :: fst r, snd r)
      end
  end.

Fixpoint take_digits (s : text) : text * text :=
  match s with
  | c :: s' =>
      if is_digit c then let (d, r) := take_digits s' in (c :: d, r)
      else ([], s)
  | [] => ([], [])
  end.

(** A number: an optional minus sign, then [0] or a digit run that does not
    start with [0], then an optional fraction (a dot and a digit run), then
    an optional exponent ([e] or [E], an optional sign, a digit run). *)
Definition match_number (s : text) : option (text * text) :=
  let (sign, s1) := match s with
                    | 45 :: s' => ([45], s')
                    | _ => ([], s)
                    end in
  let int_part :=
    match s1 with
    | 48 :: s' => Some ([48], s')
    | c :: _ => if is_digit c then Some (take_digits s1) else None
    | [] => None
    end in
  match int_part with
  | None => None
  | Some (ds, s2) =>
      let (frac, s3) :=
        match s2 with
        | 46 :: s' =>
            match take_digits s' with
            | ([], _) => ([], s2)
            | (fd, r) => (46 :: fd, r)
            end
        | _ => ([], s2)
        end in
      let (ex, s4) :=
        match s3 with
        | e :: s' =>
            if (e =? 101) || (e =? 69) then
              let (sg, s'') := match s' with
                               | 43 :: t => ([43], t)
                               | 45 :: t => ([45], t)
                               | _ => ([], s')
                               end in
              match take_digits s'' with
              | ([], _) => ([], s3)
              | (ed, r) => (e :: sg ++ ed, r)
              end
            else ([], s3)
        | [] => ([], s3)
        end in
      Some (sign ++ ds ++ frac ++ ex, s4)
  end.

Definition after (lit : string) (s : text) : option text :=
  if startswith (str lit) s then Some (skipn (List.length (str lit)) s) else None.

(** [scan_once], with the loops of the array and of the object readers.
    The fuel bounds the depth of the calls; [loads] gives enough of it for
    every document, so the interpreter's recursion limit is not modelled. *)
Fixpoint scan_once (fuel : nat) (s : text) : result (json * text) :=
  match fuel with
  | O => Raise JSONDecodeError
  | S fuel' =>
      match s with
      | [] => Raise JSONDecodeError
      | c :: s' =>
          if c =? 34 then
            r <- scanstring (S (List.length s')) s' ;; Ok (JString (fst r), snd r)
          else if c =? 123 then
            match skip_ws s' with
            | 125 :: s'' => Ok (JObject [], s'')
            | s'' => r <- object_loop fuel' [] s'' ;; Ok (JObject (fst r), snd r)
            end
          else if c =? 91 then
            match skip_ws s' with
            | 93 :: s'' => Ok (JArray [], s'')
            | s'' => r <- array_loop fuel' [] s'' ;; Ok (JArray (fst r), snd r)
            end
          else
            match after "null" s, after "true" s, after "false" s with
            | Some r, _, _ => Ok (JNull, r)
            | _, Some r, _ => Ok (JBool true, r)
            | _, _, Some r => Ok (JBool false, r)
            | None, None, None =>
                match after "NaN" s, after "Infinity" s, after "-Infinity" s with
                | Some r, _, _ => Ok (JNumber (str "NaN"), r)
                | _, Some r, _ => Ok (JNumber (str "Infinity"), r)
                | _, _, Some r => Ok (JNumber (str "-Infinity"), r)
                | None, None, None =>
                    match match_number s with
                    | Some (lexeme, r) => Ok (JNumber lexeme, r)
                    | None => Raise JSONDecodeError
                    end
                end
            end
      end
  end

with array_loop (fuel : nat) (acc : list json) (s : text)
  : result (list json * text) :=
  match fuel with
  | O => Raise JSONDecodeError
  | S fuel' =>
      r <- scan_once fuel' s ;;
      let acc := acc ++ [fst r] in
      match skip_ws (snd r) with
      | 93 :: s' => Ok (acc, s')
      | 44 :: s' => array_loop fuel' acc (skip_ws s')
      | _ => Raise JSONDecodeError
      end
  end

with object_loop (fuel : nat) (acc : list (text * json)) (s : text)
  : result (list (text * json) * text) :=
  match fuel with
  | O => Raise JSONDecodeError
  | S fuel' =>
      match s with
      | 34 :: s0 =>
          k <- scanstring (S (List.length s0)) s0 ;;
          match skip_ws (snd k) with
          | 58 :: s1 =>
              r <- scan_once fuel' (skip_ws s1) ;;
              let acc := dict_set acc (fst k) (fst r) in
              match skip_ws (snd r) with
              | 125 :: s' => Ok (acc, s')
              | 44 :: s' => object_loop fuel' acc (skip_ws s')
              | _ => Raise JSONDecodeError
              end
          | _ => Raise JSONDecodeError
          end
      | _ => Raise JSONDecodeError
      end
  end.

(** [json.loads(s)] *)
Definition loads (s : text) : result json :=
  match s with
  | 65279 :: _ => Raise JSONDecodeError                 (* a byte-order mark *)
  | _ =>
      r <- scan_once (2 * List.length s + 2) (skip_ws s) ;;
      match skip_ws (snd r) with
      | [] => Ok (fst r)
      | _ :: _ => Raise JSONDecodeError                 (* extra data *)
      end
  end.

(** ** Operations on a decoded document *)

(** [key in v] *)
Definition py_in (key : text) (v : json) : result bool :=
  match v with
  | JObject d => Ok (match dict_find d key with Some _ => true | None => false end)
  | JArray l =>
      Ok (existsb (fun x => match x with
                            | JString s => text_eqb s key
                            | _ => false
                            end) l)
  | JString s => Ok (contains key s)
  | JNull | JBool _ | JNumber _ => Raise TypeError
  end.

(** [v[key]] for a string [key] *)
Definition getitem (v : json) (key : text) : result json :=
  match v with
  | JObject d => match dict_find d key with
                 | Some x => Ok x
                 | None => Raise KeyError
                 end
  | _ => Raise TypeError
  end.

(** [len(v)] *)
Definition py_len (v : json) : result nat :=
  match v with
  | JObject d => Ok (List.length d)
  | JArray l => Ok (List.length l)
  | JString s => Ok (List.length s)
  | JNull | JBool _ | JNumber _ => Raise TypeError
  end.

(** [v[0]] *)
Definition getitem0 (v : json) : result json :=
  match v with
  | JArray (x :: _) => Ok x
  | JArray [] => Raise IndexError
  | JString (c :: _) => Ok (JString [c])
  | JString [] => Raise IndexError
  | JObject _ => Raise KeyError
  | JNull | JBool _ | JNumber _ => Raise TypeError
  end.

(** [v.get(key, default)] *)
Definition get (v : json) (key : text) (default : json) : result json :=
  match v with
  | JObject d => Ok (match dict_find d key with Some x => x | None => default end)
  | _ => Raise AttributeError
  end.

(** [acc + v] for a [str] [acc] *)
Definition str_add (acc : text) (v : json) : result text :=
  match v with
  | JString s => Ok (acc ++ s)
  | _ => Raise TypeError
  end.

End Json.

(* ================================================================== *)
(** * StreamingWorker.run *)
(* ================================================================== *)

Module Worker.

Import Json Utf8.

(** The text an [error_occurred] signal carries: the literal
    ["No response received"] or [str(e)] of a caught exception. *)
Inductive message : Type :=
| NoResponseReceived
| OfException (e : exn).

Inductive signal : Type :=
| chunk_received (accumulated : text)
| response_finished (final : text)
| error_occurred (m : message).

(** What the network does to one request: building or opening it raises, or
    the response yields some lines and then either ends or raises. *)
Inductive transport : Type :=
| Fails (e : exn)
| Opened (lines : list bytes) (broken : option exn).

(** The body of the inner [try]: decode one payload and, when it carries
    [choices[0].delta.content], append it.  [None]: nothing to emit. *)
Definition append_content (accumulated_text line : text) : result (option text) :=
  chunk_data <- loads line ;;
  has_choices <- py_in (str "choices") chunk_data ;;
  if has_choices then
    choices <- getitem chunk_data (str "choices") ;;
    n <- py_len choices ;;
    if (0 <? n)%nat then
      first <- getitem0 choices ;;
      delta <- get first (str "delta") (JObject []) ;;
      has_content <- py_in (str "content") delta ;;
      if has_content then
        new_content <- getitem delta (str "content") ;;
        accumulated_text <- str_add accumulated_text new_content ;;
        Ok (Some accumulated_text)
      else Ok None
    else Ok None
  else Ok None.

(** One turn of the [for line in response] loop. *)
Inductive turn : Type :=
| Break
| Next (accumulated_text : text) (emitted : list signal)
| Raised (e : exn).

Definition handle_line (accumulated_text : text) (raw : bytes) : turn :=
  match decode raw with
  | Raise e => Raised e
  | Ok decoded =>
      let line := strip decoded in
      if startswith (str "data: ") line then
        let line := slice_from 6 line in
        if text_eqb line (str "[DONE]") then Break
        else if truthy line then
          match append_content accumulated_text line with
          | Ok (Some acc) => Next acc [chunk_received acc]
          | Ok None => Next accumulated_text []
          | Raise JSONDecodeError => Next accumulated_text []
          | Raise e => Raised e
          end
        else Next accumulated_text []
      else Next accumulated_text []
  end.

(** The loop: the signals emitted, and the accumulated text when the loop is
    left normally or the exception that leaves it. *)
Fixpoint read (lines : list bytes) (broken : option exn) (accumulated_text : text)
  : list signal * result text :=
  match lines with
  | [] => match broken with
          | None => ([], Ok accumulated_text)
          | Some e => ([], Raise e)
          end
  | raw :: lines' =>
      match handle_line accumulated_text raw with
      | Break => ([], Ok accumulated_text)
      | Next acc emitted =>
          let (later, r) := read lines' broken acc in (emitted ++ later, r)
      | Raised e => ([], Raise e)
      end
  end.

Definition run (tr : transport) : list signal :=
  match tr with
  | Fails e => [error_occurred (OfException e)]
  | Opened lines broken =>
      match read lines broken [] with
      | (emitted, Ok accumulated_text) =>
          emitted ++
          [if truthy accumulated_text then response_finished accumulated_text
           else error_occurred NoResponseReceived]
      | (emitted, Raise e) => emitted ++ [error_occurred (OfException e)]
      end
  end.

(** ** Vocabulary of the statements *)

Definition is_chunk (s : signal) : bool :=
  match s with chunk_received _ => true | _ => false end.

Definition is_done (s : signal) : bool :=
  match s with response_finished _ => true | _ => false end.

Definition is_error (s : signal) : bool :=
  match s with error_occurred _ => true | _ => false end.

Definition is_terminal (s : signal) : bool := is_done s || is_error s.

(** What one line of the response is, independently of what was accumulated
    before it. *)
Inductive event : Type :=
| Done                      (* the [DONE] sentinel *)
| Content (fragment : text) (* a content-bearing event *)
| Skipped                   (* no payload, no content, or malformed JSON *)
| Faulty (e : exn).         (* handling the line raises *)

Definition classify (raw : bytes) : event :=
  match handle_line [] raw with
  | Break => Done
  | Next acc [] => Skipped
  | Next acc (_ :: _) => Content acc
  | Raised e => Faulty e
  end.

(** The content fragments of a response, up to the end of the loop. *)
Fixpoint fragments (lines : list bytes) : list text :=
  match lines with
  | [] => []
  | raw :: lines' =>
      match classify raw with
      | Done | Faulty _ => []
      | Content d => d :: fragments lines'
      | Skipped => fragments lines'
      end
  end.

(** The loop is left without an exception. *)
Fixpoint ends_normally (lines : list bytes) (broken : option exn) : bool :=
  match lines with
  | [] => match broken with None => true | Some _ => false end
  | raw :: lines' =>
      match classify raw with
      | Done => true
      | Faulty _ => false
      | Content _ | Skipped => ends_normally lines' broken
      end
  end.

(** [d1; d1 ++ d2; d1 ++ d2 ++ d3; ...], on top of [acc]. *)
Fixpoint cumulative (acc : text) (ds : list text) : list text :=
  match ds with
  | [] => []
  | d :: ds' => (acc ++ d) :: cumulative (acc ++ d) ds'
  end.

(** The literal of the source in which each single quote stands for a double
    quote. *)
Definition quoted (s : string) : bytes :=
  List.map (fun b => if Byte.eqb b Byte.x27 then Byte.x22 else b) (bstr s).

End Worker.

(* ================================================================== *)
(** * ChatDatabase *)
(* ================================================================== *)

Module ChatDatabase.

Open Scope N_scope.

Inductive role : Type := user | assistant.

(** One row of the table [chat_history]; the table is the list of its rows
    in insertion order.  A time stamp is the reading of the clock, ordered
    as its ISO text is. *)
Record row : Type := mkRow {
  row_card_id : N;
  row_timestamp : N;
  row_role : role;
  row_content : text
}.

Definition table := list row.

(** [save_message]: [now] is what [datetime.now()] returns. *)
Definition save_message (db : table) (now : N) (card_id : N) (r : role)
           (content : text) : table :=
  db ++ [mkRow card_id now r content].

(** [ORDER BY timestamp ASC]: rows with equal stamps stay in insertion order. *)
Fixpoint insert_row (r : row) (l : list row) : list row :=
  match l with
  | [] => [r]
  | x :: l' =>
      if row_timestamp r <=? row_timestamp x then r :: l
      else x :: insert_row r l'
  end.

Definition order_by_timestamp (l : list row) : list row :=
  fold_right insert_row [] l.

(** [get_chat_history] *)
Definition get_chat_history (db : table) (card_id : N) : list row :=
  order_by_timestamp (filter (fun r => row_card_id r =? card_id) db).

(** [clear_chat_history] *)
Definition clear_chat_history (db : table) (card_id : N) : table :=
  filter (fun r => negb (row_card_id r =? card_id)) db.

Definition is_assistant (r : row) : bool :=
  match row_role r with assistant => true | user => false end.

End ChatDatabase.

(* ================================================================== *)
(** * AIFloatingChatWindow: one card-scoped conversation *)
(* ================================================================== *)

Module ChatWindow.

Import Worker ChatDatabase.

(** A widget of the chat layout.  An AI label shows the rich text that
    [convert_markdown_to_html] makes of some markdown; the label is
    modelled by that markdown. *)
Inductive label : Type :=
| UserBubble (t : text)
| Typing                               (* the "..." indicator *)
| Markdown (t : text)
| ErrorText (m : message).

Record window : Type := mkWindow {
  card_id : N;
  chat_db : table;
  message_input : text;                (* the text in the input line *)
  message_input_enabled : bool;
  send_button_enabled : bool;
  chat_layout : list label;
  current_ai_bubble : option nat;      (* which label is being streamed into *)
  workers : list (list signal)         (* running workers: signals still to deliver *)
}.

Definition set_label (l : list label) (i : nat) (x : label) : list label :=
  firstn i l ++ match skipn i l with
                | [] => []
                | _ :: rest => x :: rest
                end.

(** [send_message]; [now] is the clock, [tr] what the network will do to the
    request of the worker this call starts. *)
Definition send_message (w : window) (now : N) (tr : transport) : window :=
  let user_message := strip (message_input w) in
  if negb (truthy user_message) then w
  else
    let layout := chat_layout w ++ [UserBubble user_message] in
    let db := save_message (chat_db w) now (card_id w) user user_message in
    mkWindow (card_id w) db [] false false
             (layout ++ [Typing]) (Some (List.length layout))
             (workers w ++ [run tr]).

Definition update_streaming_bubble (w : window) (t : text) : window :=
  match current_ai_bubble w with
  | Some i =>
      mkWindow (card_id w) (chat_db w) (message_input w)
               (message_input_enabled w) (send_button_enabled w)
               (set_label (chat_layout w) i (Markdown t))
               (current_ai_bubble w) (workers w)
  | None => w
  end.

Definition finish_streaming_response (w : window) (now : N) (final_text : text)
  : window :=
  let layout := match current_ai_bubble w with
                | Some i => set_label (chat_layout w) i (Markdown final_text)
                | None => chat_layout w
                end in
  mkWindow (card_id w)
           (save_message (chat_db w) now (card_id w) assistant final_text)
           (message_input w) true true layout None (workers w).

Definition handle_streaming_error (w : window) (m : message) : window :=
  let layout := match current_ai_bubble w with
                | Some i => set_label (chat_layout w) i (ErrorText m)
                | None => chat_layout w
                end in
  mkWindow (card_id w) (chat_db w) (message_input w) true true layout None
           (workers w).

(** The slot connected to each signal. *)
Definition slot (w : window) (now : N) (s : signal) : window :=
  match s with
  | chunk_received t => update_streaming_bubble w t
  | response_finished t => finish_streaming_response w now t
  | error_occurred m => handle_streaming_error w m
  end.

(** What the event loop can hand to the window.  The toolkit delivers
    [returnPressed] and [clicked] only from an enabled widget, and lets the
    user edit only an enabled input line. *)
Inductive ui_event : Type :=
| Typed (t : text)
| ReturnPressed (now : N) (tr : transport)
| SendClicked (now : N) (tr : transport)
| Delivered (now : N) (k : nat).       (* the next signal of worker [k] *)

Definition with_workers (w : window) (ws : list (list signal)) : window :=
  mkWindow (card_id w) (chat_db w) (message_input w) (message_input_enabled w)
           (send_button_enabled w) (chat_layout w) (current_ai_bubble w) ws.

(** Worker [k] has one signal less to deliver; a worker with nothing left
    has finished. *)
Fixpoint pop_signal (ws : list (list signal)) (k : nat)
  : option (signal * list (list signal)) :=
  match ws, k with
  | [], _ => None
  | [] :: ws', O => None
  | (s :: q) :: ws', O => Some (s, match q with [] => ws' | _ => q :: ws' end)
  | q :: ws', S k' =>
      match pop_signal ws' k' with
      | Some (s, ws'') => Some (s, q :: ws'')
      | None => None
      end
  end.

Definition step (w : window) (e : ui_event) : window :=
  match e with
  | Typed t =>
      if message_input_enabled w then
        mkWindow (card_id w) (chat_db w) t (message_input_enabled w)
                 (send_button_enabled w) (chat_layout w) (current_ai_bubble w)
                 (workers w)
      else w
  | ReturnPressed now tr =>
      if message_input_enabled w then send_message w now tr else w
  | SendClicked now tr =>
      if send_button_enabled w then send_message w now tr else w
  | Delivered now k =>
      match pop_signal (workers w) k with
      | Some (s, ws) => slot (with_workers w ws) now s
      | None => w
      end
  end.

Definition steps (w : window) (es : list ui_event) : window :=
  fold_left step es w.

(** A window as [__init__] leaves it, over the table [db]: the history of
    the card is laid out, both widgets are enabled, no worker runs. *)
Definition opened (card : N) (db : table) : window :=
  mkWindow card db [] true true
           (List.map (fun r => match row_role r with
                               | user => UserBubble (row_content r)
                               | assistant => Markdown (row_content r)
                               end)
                     (get_chat_history db card))
           None [].

Definition idle (w : window) : Prop :=
  workers w = [] /\ send_button_enabled w = true /\ message_input_enabled w = true.

End ChatWindow.

(* ================================================================== *)
(** * AIChatWindow (ai_chat_simple.py): the non-streaming sibling *)
(* ================================================================== *)

Module SimpleChat.

Import ChatDatabase.

Section WithStr.

(** [str(e)] *)
Variable describe : exn -> text.

(** [get_ai_response]: [reply] is what the [try] block computes up to the
    final [.strip()], or the exception it raises. *)
Definition get_ai_response (reply : result text) : text :=
  match reply with
  | Ok content => strip content
  | Raise e =>
      str "Sorry, I couldn't process your request right now. Error: "
      ++ describe e
  end.

(** [send_message], on the table alone: [t0] and [t1] are the two readings
    of the clock. *)
Definition send_message (db : table) (card : N) (input : text) (t0 t1 : N)
           (reply : result text) : table :=
  let user_message := strip input in
  if negb (truthy user_message) then db
  else
    let db := save_message db t0 card user user_message in
    let ai_response := get_ai_response reply in
    if truthy ai_response then save_message db t1 card assistant ai_response
    else db.

End WithStr.

End SimpleChat.

(* ================================================================== *)
(** * FlashcardGenerationDialog.create_flashcards *)
(* ================================================================== *)

Module Commit.

Import Parser.

(** A note of the host collection, with the deck it was added to. *)
Record note : Type := mkNote {
  note_type_name : text;
  note_tags : list text;
  note_fields : list text;
  note_deck : N
}.

Definition collection := list note.

(** The host application, as this function meets it.  A call of the host
    either gives its result or raises; a refused [add_note] leaves the
    collection as it was. *)
Record host : Type := mkHost {
  original_tags : result (list text);   (* self.original_card.note(), then .tags *)
  deck_id : N;                          (* self.original_card.did *)
  addon_note_type : result text;        (* get_or_create_addon_note_type(card_format) *)
  summary : text;                       (* conversation_summary after the synchronous call *)
  new_note : text -> result (list text);(* mw.col.new_note: the fields of the fresh note *)
  add_note_refused : collection -> note -> option exn;
  save_refused : collection -> option exn  (* mw.col.save(), mw.requireReset() *)
}.

(** An entry of [preview_layout]: a card widget with the texts of its
    [QTextEdit] children, or an item that holds no widget (the stretch). *)
Inductive layout_item : Type :=
| CardWidget (text_edits : list text)
| Stretch.

Record dialog : Type := mkDialog {
  generated_flashcards : text;
  format : card_format;
  card_checkboxes : list bool;
  preview_layout : list layout_item
}.

(** What the user is told. *)
Inductive outcome : Type :=
| NoFlashcardsToCreate                  (* "No flashcards to create!" *)
| CouldNotParse
| NoFlashcardsSelected
| SuccessfullyCreated (created_count : nat)
| FailedToCreateAny
| ErrorCreating (e : exn).

(** [get_current_card_content] *)
Definition get_current_card_content (fmt : card_format) (text_edits : list text)
           (original_card : flashcard) : flashcard :=
  match fmt with
  | cloze => match text_edits with
             | child :: _ => ClozeCard child
             | [] => original_card
             end
  | basic => match text_edits with
             | e0 :: e1 :: _ => BasicCard e0 e1
             | _ => original_card
             end
  end.

(** [self.preview_layout.itemAt(i).widget()] *)
Definition widget_at (layout : list layout_item) (i : nat)
  : result (option (list text)) :=
  match nth_error layout i with
  | None => Raise AttributeError
  | Some Stretch => Ok None
  | Some (CardWidget edits) => Ok (Some edits)
  end.

(** The loop that collects the selected cards with their edited content. *)
Fixpoint select (d : dialog) (i : nat) (cards : list flashcard)
  : result (list flashcard) :=
  match cards with
  | [] => Ok []
  | flashcard :: cards' =>
      if nth i (card_checkboxes d) false then
        card_widget <- widget_at (preview_layout d) i ;;
        rest <- select d (S i) cards' ;;
        Ok (match card_widget with
            | Some edits => get_current_card_content (format d) edits flashcard
            | None => flashcard
            end :: rest)
      else select d (S i) cards'
  end.

(** [flashcard['front']] and the like. *)
Definition key_front (c : flashcard) : result text :=
  match c with BasicCard f _ => Ok f | ClozeCard _ => Raise KeyError end.
Definition key_back (c : flashcard) : result text :=
  match c with BasicCard _ b => Ok b | ClozeCard _ => Raise KeyError end.
Definition key_content (c : flashcard) : result text :=
  match c with ClozeCard t => Ok t | BasicCard _ _ => Raise KeyError end.

(** [fields[i] = v] *)
Definition set_field (fields : list text) (i : nat) (v : text)
  : result (list text) :=
  if (i <? List.length fields)%nat
  then Ok (firstn i fields ++ v :: skipn (S i) fields)
  else Raise IndexError.

(** The body of the inner [try]: one note. *)
Definition create_note (h : host) (fmt : card_format) (note_type : text)
           (tags : list text) (col : collection) (flashcard : flashcard)
  : result collection :=
  fields <- new_note h note_type ;;
  fields <-
    match fmt with
    | cloze =>
        c <- key_content flashcard ;;
        fields <- set_field fields 0 c ;;
        fields <- set_field fields 1 [] ;;
        set_field fields 2 (summary h)
    | basic =>
        f <- key_front flashcard ;;
        fields <- set_field fields 0 f ;;
        b <- key_back flashcard ;;
        fields <- set_field fields 1 b ;;
        set_field fields 2 (summary h)
    end ;;
  let n := mkNote note_type tags fields (deck_id h) in
  match add_note_refused h col n with
  | Some e => Raise e
  | None => Ok (col ++ [n])
  end.

(** The creation loop: a note that cannot be created is skipped. *)
Definition create_each (h : host) (fmt : card_format) (note_type : text)
           (tags : list text) (selected : list flashcard) (col : collection)
  : collection * nat :=
  fold_left
    (fun (st : collection * nat) flashcard =>
       match create_note h fmt note_type tags (fst st) flashcard with
       | Ok col' => (col', S (snd st))
       | Raise _ => st
       end)
    selected (col, O).

(** [create_flashcards]: the collection afterwards and what is reported.
    Every exception is caught inside. *)
Definition create_flashcards (h : host) (d : dialog) (col : collection)
  : collection * outcome :=
  if negb (truthy (generated_flashcards d)) then (col, NoFlashcardsToCreate)
  else
    match original_tags h, addon_note_type h with
    | Raise e, _ => (col, ErrorCreating e)
    | Ok _, Raise e => (col, ErrorCreating e)
    | Ok tags, Ok note_type =>
        match parse_flashcards (format d) (generated_flashcards d) with
        | [] => (col, CouldNotParse)
        | flashcards =>
            match select d O flashcards with
            | Raise e => (col, ErrorCreating e)
            | Ok [] => (col, NoFlashcardsSelected)
            | Ok selected_flashcards =>
                let (col', created_count) :=
                  create_each h (format d) note_type tags selected_flashcards col in
                if (0 <? created_count)%nat then
                  match save_refused h col' with
                  | Some e => (col', ErrorCreating e)
                  | None => (col', SuccessfullyCreated created_count)
                  end
                else (col', FailedToCreateAny)
            end
        end
    end.

(** ** An instance: two cards, both selected, the second refused *)


Definition two_cards_selected : dialog :=
  mkDialog (unlines ["Front: Q1"; "Back: A1"; EmptyString;
                     "Front: Q2"; "Back: A2"]%string)
           basic [true; true]
           [CardWidget [str "Q1"; str "A1"]; CardWidget [str "Q2"; str "A2"];
            Stretch].

End Commit.

(* ================================================================== *)
(** * FlashcardGenerationDialog: refining one card *)
(* ================================================================== *)

Module Refinement.

Import Parser Commit.

(** ** parse_single_card *)

Record single_state : Type := mkSingle {
  front : text;
  back : text;
  s_in_front : bool;
  s_in_back : bool
}.

Definition single_line (st : single_state) (raw : text) : single_state :=
  let line := strip raw in
  if lower_startswith (str "front:") line then
    mkSingle (strip (slice_from 6 line)) (back st) true false
  else if lower_startswith (str "back:") line then
    mkSingle (front st) (strip (slice_from 5 line)) false true
  else if truthy line && s_in_front st then
    mkSingle (front st ++ LF :: line) (back st) (s_in_front st) (s_in_back st)
  else if truthy line && s_in_back st then
    mkSingle (front st) (back st ++ LF :: line) (s_in_front st) (s_in_back st)
  else st.

Definition please_add_back : text := str "[Refined content - please add back]".

Definition parse_single_card (fmt : card_format) (t : text) : flashcard :=
  match fmt with
  | cloze => ClozeCard (strip t)
  | basic =>
      let st := fold_left single_line (split LF t) (mkSingle [] [] false false) in
      if negb (truthy (front st)) && negb (truthy (back st))
      then BasicCard (strip t) please_add_back
      else BasicCard (front st) (back st)
  end.


(** ** update_card_content *)




(** ** update_create_button_text *)

(** The label and the state of the create button. *)
Inductive button_text : Type :=
| CreateCards                           (* "Create Cards" *)
| CreateAll (total : nat)               (* "Create All n Cards" *)
| CreateSome (selected total : nat).    (* "Create k of n Cards" *)

Definition update_create_button_text (checkboxes : list bool)
  : button_text * bool :=
  let selected_count := List.length (filter (fun b => b) checkboxes) in
  let total_count := List.length checkboxes in
  if (selected_count =? 0)%nat then (CreateCards, false)
  else if (selected_count =? total_count)%nat then (CreateAll total_count, true)
  else (CreateSome selected_count total_count, true).

End Refinement.

(* ================================================================== *)
(** * Cards as the generation prompt asks for them *)
(* ================================================================== *)

Module Rendering.

(** ["\n".join(lines)] *)
Fixpoint join_lines (ls : list text) : text :=
  match ls with
  | [] => []
  | [l] => l
  | l :: ls' => l ++ LF :: join_lines ls'
  end.

(** A field the parser gives back as it is: not empty, one line, no white
    space around it. *)
Definition clean (s : text) : bool :=
  truthy s && text_eqb (strip s) s && forallb (fun c => negb (c =? LF)%N) s.

(** The lines of a sequence of basic cards; with [gap], one empty line after
    each card. *)
Fixpoint basic_lines (gap : bool) (cards : list (text * text)) : list text :=
  match cards with
  | [] => []
  | (f, b) :: cards' =>
      (str "Front: " ++ f) :: (str "Back: " ++ b)
      :: (if gap then [[]] else []) ++ basic_lines gap cards'
  end.

(** The lines of a sequence of one-line cloze cards. *)
Fixpoint cloze_lines (gap : bool) (cards : list text) : list text :=
  match cards with
  | [] => []
  | c :: cards' => c :: (if gap then [[]] else []) ++ cloze_lines gap cards'
  end.

(** The lines that open a record, as the loops test them. *)
Definition opens_basic (raw : text) : bool :=
  lower_startswith (str "front:") (strip raw).

Definition opens_cloze (raw : text) : bool :=
  truthy (strip raw) && contains (str "{{c") (strip raw).

(** A line that carries neither the front nor the back label. *)
Definition unlabelled (raw : text) : bool :=
  negb (lower_startswith (str "front:") (strip raw))
  && negb (lower_startswith (str "back:") (strip raw)).

Definition stripped_card (c : flashcard) : Prop :=
  match c with
  | BasicCard f b => strip f = f /\ strip b = b
  | ClozeCard t => strip t = t /\ t <> []
  end.

End Rendering.

(* ================================================================== *)
(** * Further notions the proofs use *)
(* ================================================================== *)

Module LoopNotions.

Import Parser Rendering.

(** One if the condition holds, zero otherwise. *)
Definition one_if (b : bool) : nat := if b then 1%nat else 0%nat.

(** Records emitted, plus the record being read if there is one. *)
Definition basic_load (st : basic_state) : nat :=
  (List.length (flashcards st)
   + one_if (in_front st || truthy (current_front st)))%nat.

Definition cloze_load (st : cloze_state) : nat :=
  (List.length (cz_flashcards st) + one_if (truthy (cz_current_card st)))%nat.

(** What the basic loop emits is made of stripped texts. *)
Definition stripped_pair (r : flashcard) : Prop :=
  exists x y, r = BasicCard (strip x) (strip y).

Definition stripped_content (r : flashcard) : Prop :=
  exists x, r = ClozeCard (strip x).

End LoopNotions.

(* ================================================================== *)
(** * The lines of a response, as the streaming loop sees them *)
(* ================================================================== *)

Module StreamLines.

Import Utf8 Worker.

(** The loop looks into the line: it decodes to a text that, stripped,
    starts with [data: ], or it does not decode at all. *)
Definition is_data_line (raw : bytes) : bool :=
  match decode raw with
  | Ok decoded => startswith (str "data: ") (strip decoded)
  | Raise _ => true
  end.

(** The exception that leaves the loop, if one does: that of the first line
    whose handling raises before the sentinel, or that of the transport
    when the lines run out. *)
Fixpoint leaving_exception (lines : list bytes) (broken : option exn)
  : option exn :=
  match lines with
  | [] => broken
  | raw :: lines' =>
      match handle_line [] raw with
      | Break => None
      | Raised e => Some e
      | Next _ _ => leaving_exception lines' broken
      end
  end.

End StreamLines.

(* ================================================================== *)
(** * What a chat window does to the table *)
(* ================================================================== *)

Module WindowNotions.

Import ChatDatabase ChatWindow.

(** What a window has added to the table it was opened over: rows of its
    own card, after the rows that were there. *)
Definition grown_from (card : N) (db : table) (w : window) : Prop :=
  card_id w = card
  /\ exists extra, chat_db w = db ++ extra
                   /\ Forall (fun r => row_card_id r = card) extra.

End WindowNotions.

(* ================================================================== *)
(** * AIChatWindow (ai_chat_simple.py): the messages of a request *)
(* ================================================================== *)

Module SimpleRequest.

Import ChatDatabase.

(** One entry of [messages]: the role and the content. *)
Definition api_message : Type := (text * text)%type.

Definition role_text (r : role) : text :=
  match r with user => str "user" | assistant => str "assistant" end.

Definition system_content (card_content : text) : text :=
  str "You are a helpful study assistant. The user is studying a flashcard with the following content:"
  ++ [LF; LF] ++ card_content ++ [LF; LF]
  ++ str "Help them understand the material by answering questions and providing explanations. Keep responses concise and educational.".

(** [l[-n:]] for a positive [n] *)
Definition last_n {A : Type} (n : nat) (l : list A) : list A :=
  skipn (List.length l - n) l.

(** The list [messages] that [get_ai_response] builds, over the table as it
    is when the function is called. *)
Definition request_messages (card_content : text) (db : table) (card : N)
           (user_message : text) : list api_message :=
  let recent_history := last_n 6 (get_chat_history db card) in
  [(str "system", system_content card_content)]
  ++ List.map (fun msg => (role_text (row_role msg), row_content msg))
              recent_history
  ++ [(str "user", user_message)].

(** The text that stands for a failed request. *)
Definition apology (describe : exn -> text) (e : exn) : text :=
  str "Sorry, I couldn't process your request right now. Error: " ++ describe e.

End SimpleRequest.

(* ================================================================== *)
(** * What a created note carries *)
(* ================================================================== *)

Module CommitNotions.

Import Commit.

(** The note has the tags of the original card, the note type of the
    add-on, the deck of the original card and, as its third field, the
    conversation summary. *)
Definition carries_context (h : host) (n : note) : Prop :=
  original_tags h = Ok (note_tags n)
  /\ addon_note_type h = Ok (note_type_name n)
  /\ note_deck n = deck_id h
  /\ nth_error (note_fields n) 2 = Some (summary h).

(** The number of checked boxes. *)
Definition checked_count (boxes : list bool) : nat :=
  List.length (filter (fun b => b) boxes).

(** The widget of a checked card has the text fields of its format. *)
Definition editable (d : dialog) (i : nat) : Prop :=
  nth i (card_checkboxes d) false = true ->
  exists edits,
    widget_at (preview_layout d) i = Ok (Some edits)
    /\ match format d with
       | cloze => (1 <= List.length edits)%nat
       | basic => (2 <= List.length edits)%nat
       end.

End CommitNotions.

(* ================================================================== *)
(** * ConfigManager: the settings *)
(* ================================================================== *)

Module ConfigManager.

Import Json.

Definition DEFAULT_CONFIG : list (text * json) :=
  [(str "openai_model", JString (str "gpt-3.5-turbo"));
   (str "max_tokens", JNumber (str "300"));
   (str "temperature", JNumber (str "0.7"));
   (str "show_button", JBool true);
   (str "button_position",
    JObject [(str "x", JNumber (str "50")); (str "y", JNumber (str "50"))]);
   (str "hotkey", JString (str "Ctrl+Shift+A"));
   (str "button_size", JNumber (str "50"));
   (str "button_opacity", JNumber (str "0.9"));
   (str "window_width", JNumber (str "400"));
   (str "window_height", JNumber (str "600"));
   (str "window_always_on_top", JBool true);
   (str "auto_focus_input", JBool true);
   (str "ai_instructions",
    JString (str "You are a helpful AI assistant helping a student study flashcards. Please provide helpful, concise responses related to the flashcard content."));
   (str "color_scheme", JString (str "auto"));
   (str "custom_colors",
    JObject [(str "bg_main", JString (str "#ffffff"));
             (str "bg_secondary", JString (str "#f8f9fa"));
             (str "bg_input", JString (str "#f8f9fa"));
             (str "text_primary", JString (str "#333333"));
             (str "text_secondary", JString (str "#666666"));
             (str "border", JString (str "#e9ecef"));
             (str "ai_bubble_bg", JString (str "#f1f3f4"));
             (str "ai_bubble_text", JString (str "#333333"));
             (str "accent_color", JString (str "#6c5ce7"))]);
   (str "button_icon", JString [129302%N]);          (* U+1F916 *)
   (str "custom_button_image_path", JString [])].

(** [config[key] = value] for a string [key] *)
Definition setitem (config : json) (key : text) (value : json) : result json :=
  match config with
  | JObject d => Ok (JObject (dict_set d key value))
  | _ => Raise TypeError
  end.

(** The loop over [DEFAULT_CONFIG.items()], on what [json.load] returned. *)
Fixpoint merge_defaults (items : list (text * json)) (config : json)
  : result json :=
  match items with
  | [] => Ok config
  | (key, value) :: items' =>
      present <- py_in key config ;;
      if present then merge_defaults items' config
      else
        config <- setitem config key value ;;
        merge_defaults items' config
  end.

(** [load_config].  [file] is what the file system and [json.load] give:
    an exception, no file, or the decoded document. *)
Definition load_config (file : result (option json)) : json :=
  match file with
  | Ok (Some config) =>
      match merge_defaults DEFAULT_CONFIG config with
      | Ok config => config
      | Raise _ => JObject DEFAULT_CONFIG
      end
  | Ok None => JObject DEFAULT_CONFIG
  | Raise _ => JObject DEFAULT_CONFIG
  end.

(** [get] *)
Definition get (config : json) (key : text) (default : json) : result json :=
  Json.get config key default.

(** [set], on the settings in memory *)
Definition set (config : json) (key : text) (value : json) : result json :=
  setitem config key value.

End ConfigManager.

(* ================================================================== *)
(** * The conversation handed to the summary and to the generation *)
(* ================================================================== *)

Module Conversation.

Import ChatDatabase.

(** ["You" if message['role'] == "user" else "AI"] *)
Definition speaker (r : role) : text :=
  match r with user => str "You" | assistant => str "AI" end.

(** The text built by the loop over [chat_history]. *)
Definition conversation_text (card_content : text) (chat_history : list row)
  : text :=
  fold_left
    (fun acc message =>
       acc ++ speaker (row_role message) ++ str ": " ++ row_content message
           ++ [LF; LF])
    chat_history
    (str "Flashcard: " ++ card_content ++ [LF; LF] ++ str "Conversation:" ++ [LF]).

(** [generate_conversation_summary] and [generate_flashcards] up to the
    opening of their dialog: [None] is the warning, [Some t] the text the
    dialog is given. *)
Definition conversation (db : table) (card : N) (card_content : text)
  : option text :=
  let chat_history := get_chat_history db card in
  if match chat_history with [] => true | _ :: _ => false end
     || (List.length chat_history <? 2)%nat
  then None
  else Some (conversation_text card_content chat_history).

End Conversation.

(* ================================================================== *)
(** * FlashcardGenerationDialog: the preview after a generation *)
(* ================================================================== *)

Module Generation.

Import Parser Commit.

Section WithHtml.

(** [QTextEdit(text)] takes its argument as rich text; [to_plain t] is what
    [toPlainText()] gives for the widget built from [t]. *)
Variable to_plain : text -> text.

(** [create_card_preview_widget], as the layout item it returns. *)
Definition create_card_preview_widget (fmt : card_format) (flashcard : flashcard)
  : result layout_item :=
  match fmt with
  | cloze =>
      content <- key_content flashcard ;;
      Ok (CardWidget [to_plain content])
  | basic =>
      f <- key_front flashcard ;;
      b <- key_back flashcard ;;
      Ok (CardWidget [to_plain f; to_plain b])
  end.

Fixpoint preview_widgets (fmt : card_format) (flashcards : list flashcard)
  : result (list layout_item) :=
  match flashcards with
  | [] => Ok []
  | flashcard :: rest =>
      card_widget <- create_card_preview_widget fmt flashcard ;;
      widgets <- preview_widgets fmt rest ;;
      Ok (card_widget :: widgets)
  end.

(** [finish_generation]: the dialog afterwards.  Every check box starts
    unchecked; when nothing was parsed the layout holds the error label
    alone, a widget without text fields. *)
Definition finish_generation (fmt : card_format) (final_text : text)
  : result dialog :=
  match parse_flashcards fmt final_text with
  | [] => Ok (mkDialog final_text fmt [] [CardWidget []])
  | flashcards =>
      widgets <- preview_widgets fmt flashcards ;;
      Ok (mkDialog final_text fmt
            (repeat false (List.length flashcards))
            (widgets ++ [Stretch]))
  end.

(** The card as its widget shows it. *)
Definition shown (c : flashcard) : flashcard :=
  match c with
  | BasicCard f b => BasicCard (to_plain f) (to_plain b)
  | ClozeCard t => ClozeCard (to_plain t)
  end.

Definition shown_widget (c : flashcard) : layout_item :=
  match c with
  | BasicCard f b => CardWidget [to_plain f; to_plain b]
  | ClozeCard t => CardWidget [to_plain t]
  end.

End WithHtml.

(** The user has ticked and unticked boxes. *)
Definition with_checkboxes (d : dialog) (boxes : list bool) : dialog :=
  mkDialog (generated_flashcards d) (format d) boxes (preview_layout d).

(** The cards whose box is checked, in order. *)
Fixpoint checked_cards (boxes : list bool) (cards : list flashcard)
  : list flashcard :=
  match boxes, cards with
  | b :: boxes', c :: cards' =>
      (if b then [c] else []) ++ checked_cards boxes' cards'
  | _, _ => []
  end.

(** A record of the shape its format gives. *)
Definition of_format (fmt : card_format) (c : flashcard) : Prop :=
  match fmt, c with
  | basic, BasicCard _ _ => True
  | cloze, ClozeCard _ => True
  | _, _ => False
  end.

End Generation.

(* ================================================================== *)
(** * AIFloatingChatWindow: resizing by the mouse *)
(* ================================================================== *)

Module Resize.

Open Scope Z_scope.

(** The toolkit keeps coordinates in C [int]s: its own arithmetic wraps, and
    a Python integer out of range is refused when it is passed in. *)
Definition wrap (z : Z) : Z :=
  (z + 2147483648) mod 4294967296 - 2147483648.   (* 2^31, 2^32 *)

Definition c_int (z : Z) : option Z :=
  if (-2147483648 <=? z) && (z <? 2147483648) then Some z else None.

Record QPoint : Type := mkPoint { px : Z; py : Z }.

(** [a - b] on points *)
Definition point_sub (a b : QPoint) : QPoint :=
  mkPoint (wrap (px a - px b)) (wrap (py a - py b)).

(** A rectangle, by its corners as the toolkit stores it. *)
Record QRect : Type := mkRect { x1 : Z; y1 : Z; x2 : Z; y2 : Z }.

Definition width (r : QRect) : Z := wrap (x2 r - x1 r + 1).
Definition height (r : QRect) : Z := wrap (y2 r - y1 r + 1).
Definition setLeft (r : QRect) (v : Z) : QRect := mkRect v (y1 r) (x2 r) (y2 r).
Definition setTop (r : QRect) (v : Z) : QRect := mkRect (x1 r) v (x2 r) (y2 r).
Definition setWidth (r : QRect) (w : Z) : QRect :=
  mkRect (x1 r) (y1 r) (wrap (x1 r + w - 1)) (y2 r).
Definition setHeight (r : QRect) (h : Z) : QRect :=
  mkRect (x1 r) (y1 r) (x2 r) (wrap (y1 r + h - 1)).

(** The values [get_resize_direction] returns. *)
Inductive direction : Type :=
| TopLeft | TopRight | BottomLeft | BottomRight
| LeftEdge | RightEdge | TopEdge | BottomEdge.

Definition direction_text (d : direction) : text :=
  match d with
  | TopLeft => str "top-left"
  | TopRight => str "top-right"
  | BottomLeft => str "bottom-left"
  | BottomRight => str "bottom-right"
  | LeftEdge => str "left"
  | RightEdge => str "right"
  | TopEdge => str "top"
  | BottomEdge => str "bottom"
  end.

(** [get_resize_direction], for a window of the given size. *)
Definition get_resize_direction (window_width window_height : Z) (pos : QPoint)
  : option direction :=
  let margin := 20 in
  let left := px pos <=? margin in
  let right := px pos >=? window_width - margin in
  let top := py pos <=? margin in
  let bottom := py pos >=? window_height - margin in
  if left && top then Some TopLeft
  else if right && top then Some TopRight
  else if left && bottom then Some BottomLeft
  else if right && bottom then Some BottomRight
  else if left then Some LeftEdge
  else if right then Some RightEdge
  else if top then Some TopEdge
  else if bottom then Some BottomEdge
  else None.

(** What the mouse press recorded. *)
Record grip : Type := mkGrip {
  resize_direction : option direction;
  resizing : bool;
  resize_start_mouse : QPoint;
  resize_start_geometry : QRect
}.

(** The horizontal and the vertical half of [handle_resize]; [None]: a
    setter refuses its argument and the handler raises. *)
Definition resize_horizontal (dir : text) (minimumWidth : Z)
           (start_rect : QRect) (delta : QPoint) (new_rect : QRect)
  : option QRect :=
  if contains (str "left") dir then
    let new_width := width start_rect - px delta in
    if new_width >=? minimumWidth then
      match c_int (x1 start_rect + px delta), c_int new_width with
      | Some l, Some w => Some (setWidth (setLeft new_rect l) w)
      | _, _ => None
      end
    else Some new_rect
  else if contains (str "right") dir then
    let new_width := width start_rect + px delta in
    if new_width >=? minimumWidth then
      match c_int new_width with
      | Some w => Some (setWidth new_rect w)
      | None => None
      end
    else Some new_rect
  else Some new_rect.

Definition resize_vertical (dir : text) (minimumHeight : Z)
           (start_rect : QRect) (delta : QPoint) (new_rect : QRect)
  : option QRect :=
  if contains (str "top") dir then
    let new_height := height start_rect - py delta in
    if new_height >=? minimumHeight then
      match c_int (y1 start_rect + py delta), c_int new_height with
      | Some t, Some h => Some (setHeight (setTop new_rect t) h)
      | _, _ => None
      end
    else Some new_rect
  else if contains (str "bottom") dir then
    let new_height := height start_rect + py delta in
    if new_height >=? minimumHeight then
      match c_int new_height with
      | Some h => Some (setHeight new_rect h)
      | None => None
      end
    else Some new_rect
  else Some new_rect.

(** [handle_resize]: the rectangle handed to [setGeometry], or the geometry
    as it is when the handler returns at once. *)
Definition handle_resize (g : grip) (minimumWidth minimumHeight : Z)
           (geometry : QRect) (global_pos : QPoint) : option QRect :=
  match resize_direction g with
  | None => Some geometry
  | Some d =>
      if negb (resizing g) then Some geometry
      else
        let delta := point_sub global_pos (resize_start_mouse g) in
        let start_rect := resize_start_geometry g in
        match resize_horizontal (direction_text d) minimumWidth start_rect
                delta start_rect with
        | None => None
        | Some new_rect =>
            resize_vertical (direction_text d) minimumHeight start_rect
              delta new_rect
        end
  end.

(** Coordinates of a screen: far from the ends of the range of [int]. *)
Definition on_screen (z : Z) : Prop := -16777216 <= z <= 16777216.

Definition point_on_screen (p : QPoint) : Prop :=
  on_screen (px p) /\ on_screen (py p).

Definition rect_on_screen (r : QRect) : Prop :=
  on_screen (x1 r) /\ on_screen (y1 r) /\ on_screen (x2 r) /\ on_screen (y2 r).

(** Which edges a direction moves. *)
Definition moves_left (d : direction) : bool :=
  match d with TopLeft | BottomLeft | LeftEdge => true | _ => false end.
Definition moves_right (d : direction) : bool :=
  match d with TopRight | BottomRight | RightEdge => true | _ => false end.
Definition moves_top (d : direction) : bool :=
  match d with TopLeft | TopRight | TopEdge => true | _ => false end.
Definition moves_bottom (d : direction) : bool :=
  match d with BottomLeft | BottomRight | BottomEdge => true | _ => false end.

End Resize.

(* ================================================================== *)
(** * ChatManager: the text of the card *)
(* ================================================================== *)

Module CardContent.

Import Re.
Open Scope N_scope.

(** [s.replace(old, new)] for a non-empty [old]: occurrences are replaced
    from the left and do not overlap; [skip] counts the characters still
    inside the last occurrence. *)
Fixpoint replace_scan (old new : text) (skip : nat) (s : text) : text :=
  match s with
  | [] => []
  | c :: s' =>
      match skip with
      | S n => replace_scan old new n s'
      | O =>
          if startswith old s
          then new ++ replace_scan old new (Nat.pred (List.length old)) s'
          else c :: replace_scan old new O s'
      end
  end.

Definition replace (old new : string) (s : text) : text :=
  replace_scan (str old) (str new) O s.

(** The pattern [<[^>]+>] *)
Definition tag_pattern : pattern :=
  [Plain (Chr 60); Plain (Rep Greedy 1 (fun c => negb (c =? 62)));
   Plain (Chr 62)].

(** [strip_html] *)
Definition strip_html (t : text) : result text :=
  t <- sub tag_pattern [] t ;;
  let t := replace "&gt;" ">" (replace "&lt;" "<" (replace "&nbsp;" " " t)) in
  Ok (strip t).

(** [get_card_content]: [question] and [answer] are what [card.question()]
    and [card.answer()] give. *)
Definition get_card_content (question answer : result text) : text :=
  match (q <- question ;;
         question <- strip_html q ;;
         a <- answer ;;
         answer <- strip_html a ;;
         Ok (question, answer)) with
  | Ok (question, answer) =>
      let content := str "Question: " ++ question ++ [LF] in
      let content :=
        if truthy answer && negb (text_eqb answer question)
        then content ++ str "Answer: " ++ answer
        else content in
      strip content
  | Raise _ => str "Unable to load card content"
  end.

(** A text in which no tag can be complete and no entity can start: it has
    no [<] or it has no [>], and it has no [&]. *)
Definition markup_free (t : text) : bool :=
  (forallb (fun c => negb (c =? 60)) t || forallb (fun c => negb (c =? 62)) t)
  && forallb (fun c => negb (c =? 38)) t.

End CardContent.

(* ================================================================== *)
(** * One span of markup in a line *)
(* ================================================================== *)

Module Spans.

Import Re Formatter.
Open Scope N_scope.

Inductive span_kind : Type := Bold | Italic | Code.

Definition delimiter (k : span_kind) : string :=
  match k with Bold => "**" | Italic => "*" | Code => "`" end.

(** The pattern and the template [convert_markdown_to_html] uses for the
    kind. *)
Definition span_pattern (k : span_kind) : pattern :=
  match k with
  | Bold => bold_pattern
  | Italic => italic_pattern
  | Code => code_pattern
  end.

Definition span_template (k : span_kind) : template :=
  match k with
  | Bold => [TLit (str "<b>"); TRef 1; TLit (str "</b>")]
  | Italic => [TLit (str "<i>"); TRef 1; TLit (str "</i>")]
  | Code => code_template
  end.

(** The element that stands for the span. *)
Definition rendered (k : span_kind) (x : text) : text :=
  expand (span_template k) [x].

(** The text before and the text after the content, in the element. *)
Definition opening (k : span_kind) : text :=
  match span_template k with TLit o :: _ => o | _ => [] end.

Definition closing (k : span_kind) : text :=
  match span_template k with [_; _; TLit c] => c | _ => [] end.

(** A character that is no span marker and no line feed. *)
Definition quiet (c : char) : bool :=
  negb (c =? 42) && negb (c =? 96) && negb (c =? LF).

(** The text starts with nothing that could open a header, a numbered entry
    or a bullet. *)
Definition starts_plain (is_decimal : char -> bool) (pre : text) : bool :=
  match pre with
  | [] => true
  | c :: _ => negb (is_decimal c) && negb (is_bullet c) && negb (c =? 35)
  end.

(** The pattern of a span: the delimiter, as little as possible, the
    delimiter. *)
Definition delimited (d : text) : pattern :=
  List.map (fun c => Plain (Chr c)) d ++ [Group [Rep Lazy 0 dot]]
  ++ List.map (fun c => Plain (Chr c)) d.

(** The character before the position reached by reading [l]. *)
Definition after (prev : option char) (l : text) : option char :=
  fold_left (fun _ c => Some c) l prev.

(** No two asterisks side by side. *)
Fixpoint no_double (s : text) : bool :=
  match s with
  | a :: s' =>
      match s' with
      | b :: _ => negb ((a =? 42) && (b =? 42)) && no_double s'
      | [] => true
      end
  | [] => true
  end.

End Spans.

(* ================================================================== *)
(** * Notions the proofs use *)
(* ================================================================== *)

Unset Implicit Arguments.

Module Notions.

Import Parser Re Formatter Utf8 Json Worker ChatDatabase ChatWindow Commit.

(** ** Strings *)

(** A text that holds something else than white space. *)
Definition solid (s : text) : Prop :=
  exists c, In c s /\ isspace c = false.

(** ** Parser: what holds of the loop state after every line *)

Definition complete (r : flashcard) : Prop :=
  exists f b, r = BasicCard f b /\ f <> [] /\ b <> [].

Definition nil_or_solid (s : text) : Prop := s = [] \/ solid s.

Record basic_inv (st : basic_state) : Prop := mkBasicInv {
  inv_cards : Forall complete (flashcards st);
  inv_front : nil_or_solid (current_front st);
  inv_back : nil_or_solid (current_back st)
}.

Definition opener : text := str "{{c".

Definition opened_card (r : flashcard) : Prop :=
  exists c, r = ClozeCard c /\ contains opener c = true.

Record cloze_inv (st : cloze_state) : Prop := mkClozeInv {
  cz_cards : Forall opened_card (cz_flashcards st);
  cz_card : cz_current_card st = [] \/ contains opener (cz_current_card st) = true
}.

(** ** Worker *)

(** Every session is a run of chunks closed by one terminal signal. *)
Definition session (q : list signal) : Prop :=
  exists chunks last,
    q = List.map chunk_received chunks ++ [last] /\ is_terminal last = true.

(** The signals of a session: the cumulative texts of its fragments, then
    one last signal. *)
Definition last_signal (lines : list bytes) (broken : option exn) : signal :=
  match snd (read lines broken []) with
  | Ok acc => if truthy acc then response_finished acc
              else error_occurred NoResponseReceived
  | Raise e => error_occurred (OfException e)
  end.

(** ** Chat window *)

(** Idle with both widgets enabled, or one session in flight with both
    widgets disabled. *)
Inductive inv (w : window) : Prop :=
| inv_idle :
    workers w = [] -> send_button_enabled w = true ->
    message_input_enabled w = true -> inv w
| inv_busy (q : list signal) :
    workers w = [q] -> session q -> send_button_enabled w = false ->
    message_input_enabled w = false -> inv w.

(** ** Batch commit: one turn of the creation loop *)

Definition create_step (h : host) (fmt : card_format) (note_type : text)
           (tags : list text) (st : collection * nat) (flashcard : flashcard)
  : collection * nat :=
  match create_note h fmt note_type tags (fst st) flashcard with
  | Ok col' => (col', S (snd st))
  | Raise _ => st
  end.

(** ** Matcher and formatter *)

Definition at_line_start (prev : option char) : bool :=
  match prev with None => true | Some c => (c =? LF)%N end.

Definition chars (p : text) : pattern := List.map (fun c => Plain (Chr c)) p.

(** No position of [s] starts a match. *)
Fixpoint never_matches (pat : pattern) (prev : option char) (s : text) : Prop :=
  match_at pat false prev s = None
  /\ match s with
     | [] => True
     | c :: s' => never_matches pat (Some c) s'
     end.

(** The first line of a text. *)
Definition first_line (s : text) : text := hd [] (split LF s).

(** The lines a position can still see: all of them at the start of a line,
    all but the current one inside a line. *)
Definition lines_ahead (prev : option char) (s : text) : list text :=
  if at_line_start prev then split LF s else tl (split LF s).

Definition br : text := str "<br>".

Definition no_span_marker (s : text) : Prop :=
  Forall (fun c => span_marker c = false) s.

Definition plain_ahead (is_decimal : char -> bool) (prev : option char)
           (s : text) : Prop :=
  forallb (plain_line is_decimal) (lines_ahead prev s) = true.

Definition inside_line (prev : option char) (s : text) : Prop :=
  at_line_start prev = false /\ Forall (fun c => c <> LF) s.

Definition harmless_tail (tail : text) : Prop :=
  match tail with [] => True | c :: _ => c = 60%N end.

End Notions.

Import Notions.

(* ================================================================== *)
(** * Headers and list entries, as the formatter writes them *)
(* ================================================================== *)

Module Entries.

Import Re Formatter.
Open Scope N_scope.

Inductive level : Type := H1 | H2 | H3.

Definition marker (l : level) : string :=
  match l with H1 => "# " | H2 => "## " | H3 => "### " end.

(** The template [convert_markdown_to_html] uses for the level. *)
Definition level_template (l : level) : template :=
  match l with
  | H1 => header_template "h1" "20px" "20px 0 12px 0"
  | H2 => header_template "h2" "18px" "16px 0 10px 0"
  | H3 => header_template "h3" "16px" "12px 0 8px 0"
  end.

Definition header_element (l : level) (title : text) : text :=
  expand (level_template l) [title].

Definition numbered_entry (digits body : text) : text :=
  expand numbered_template [digits; body].

Definition bullet_entry (body : text) : text :=
  expand bullet_template [body].

(** The line does not start with a hash sign. *)
Definition hashless (l : text) : bool := negb (startswith (str "#") l).

Definition hashless_ahead (prev : option char) (s : text) : Prop :=
  forallb hashless (lines_ahead prev s) = true.

(** A white space other than the line feed. *)
Definition blank (c : char) : bool := isspace c && negb (c =? LF).

(** A text that starts with something other than a white space. *)
Definition starts_solid (body : text) : bool :=
  match body with [] => false | c :: _ => negb (isspace c) end.

End Entries.

(* ================================================================== *)
(** * Facts about strings *)
(* ================================================================== *)

Section StringFacts.

Lemma truthy_true (s : text) : truthy s = true <-> s <> [].
Proof.
  destruct s; simpl; split; intro H; congruence.
Qed.

Lemma lstrip_solid (s : text) : solid s -> solid (lstrip s).
Proof.
  induction s as [|c s IH]; intros [x [Hin Hx]].
  - destruct Hin.
  - simpl. destruct (isspace c) eqn:Hc.
    + apply IH. destruct Hin as [->|Hin]; [congruence|].
      exists x; auto.
    + exists x; auto.
Qed.

Lemma rstrip_solid (s : text) : solid s -> rstrip s <> [].
Proof.
  induction s as [|c s IH]; intros [x [Hin Hx]].
  - destruct Hin.
  - simpl. destruct (rstrip s) eqn:Hr.
    + destruct Hin as [->|Hin].
      * rewrite Hx. discriminate.
      * exfalso. apply IH; [exists x; auto | reflexivity].
    + discriminate.
Qed.

Lemma strip_solid (s : text) : solid s -> strip s <> [].
Proof.
  intro H. unfold strip. apply rstrip_solid, lstrip_solid, H.
Qed.

Lemma lstrip_head (s : text) :
  match lstrip s with [] => True | c :: _ => isspace c = false end.
Proof.
  induction s as [|c s IH]; simpl; [exact I|].
  destruct (isspace c) eqn:Hc; [exact IH | exact Hc].
Qed.

Lemma rstrip_head (c : char) (s : text) :
  isspace c = false -> exists r, rstrip (c :: s) = c :: r.
Proof.
  intro Hc. simpl. destruct (rstrip s) as [|y r].
  - rewrite Hc. exists []. reflexivity.
  - exists (y :: r). reflexivity.
Qed.

(** A stripped text is empty or starts with something solid. *)
Lemma strip_head (s : text) :
  match strip s with [] => True | c :: _ => isspace c = false end.
Proof.
  unfold strip. pose proof (lstrip_head s) as H.
  destruct (lstrip s) as [|c l]; [exact I|].
  destruct (rstrip_head c l H) as [r ->]. exact H.
Qed.

Lemma strip_nil_or_solid (s : text) : strip s = [] \/ solid (strip s).
Proof.
  pose proof (strip_head s) as H. destruct (strip s) as [|c l].
  - left; reflexivity.
  - right. exists c. split; [left; reflexivity | exact H].
Qed.

Lemma solid_app_r (a b : text) : solid b -> solid (a ++ b).
Proof.
  intros [c [Hin Hc]]. exists c. split; [apply in_or_app; right; exact Hin | exact Hc].
Qed.

Lemma solid_cons (x : char) (b : text) : solid b -> solid (x :: b).
Proof.
  intros [c [Hin Hc]]. exists c. split; [right; exact Hin | exact Hc].
Qed.

(** Substrings made of solid characters survive [strip]. *)

Lemma startswith_nil_r (p : text) : startswith p [] = true -> p = [].
Proof. destruct p; simpl; [reflexivity | discriminate]. Qed.

Lemma contains_nil_r (p : text) : contains p [] = true -> p = [].
Proof.
  simpl. rewrite orb_false_r. apply startswith_nil_r.
Qed.

Lemma startswith_rstrip (p s : text) :
  Forall (fun c => isspace c = false) p ->
  startswith p s = true -> startswith p (rstrip s) = true.
Proof.
  revert s. induction p as [|x p IH]; intros s Hp H; [reflexivity|].
  destruct s as [|c s]; [discriminate|].
  simpl in H. apply andb_prop in H. destruct H as [Hxc Hps].
  apply N.eqb_eq in Hxc. subst c.
  inversion Hp as [|? ? Hx Hp']; subst.
  specialize (IH s Hp' Hps).
  simpl. destruct (rstrip s) as [|y r] eqn:Hr.
  - rewrite Hx. simpl. rewrite N.eqb_refl. simpl.
    destruct p; [reflexivity | discriminate IH].
  - simpl. rewrite N.eqb_refl. exact IH.
Qed.

Lemma contains_rstrip (p s : text) :
  p <> [] -> Forall (fun c => isspace c = false) p ->
  contains p s = true -> contains p (rstrip s) = true.
Proof.
  intros Hne Hp. induction s as [|c s IH]; intro H.
  - apply contains_nil_r in H. contradiction.
  - change (contains p (c :: s)) with (startswith p (c :: s) || contains p s) in H.
    apply orb_prop in H. destruct H as [H|H].
    + pose proof (startswith_rstrip p (c :: s) Hp H) as Hs.
      destruct (rstrip (c :: s)); simpl; rewrite Hs; reflexivity.
    + specialize (IH H). simpl.
      destruct (rstrip s) as [|y r] eqn:Hr.
      * apply contains_nil_r in IH. contradiction.
      * change (contains p (c :: y :: r))
          with (startswith p (c :: y :: r) || contains p (y :: r)).
        rewrite IH. apply orb_true_r.
Qed.

Lemma contains_lstrip (p s : text) :
  p <> [] -> Forall (fun c => isspace c = false) p ->
  contains p s = true -> contains p (lstrip s) = true.
Proof.
  intros Hne Hp. induction s as [|c s IH]; intro H; [exact H|].
  simpl. destruct (isspace c) eqn:Hc; [|exact H].
  apply IH.
  change (contains p (c :: s)) with (startswith p (c :: s) || contains p s) in H.
  apply orb_prop in H. destruct H as [H|H]; [|exact H].
  destruct p as [|x p]; [contradiction|].
  simpl in H. apply andb_prop in H. destruct H as [Hxc _].
  apply N.eqb_eq in Hxc. subst c.
  inversion Hp; subst. congruence.
Qed.

Lemma contains_strip (p s : text) :
  p <> [] -> Forall (fun c => isspace c = false) p ->
  contains p s = true -> contains p (strip s) = true.
Proof.
  intros Hne Hp H. unfold strip.
  apply contains_rstrip; auto. apply contains_lstrip; auto.
Qed.

Lemma startswith_app (p s t : text) :
  startswith p s = true -> startswith p (s ++ t) = true.
Proof.
  revert s. induction p as [|x p IH]; intros s H; [reflexivity|].
  destruct s as [|c s]; [discriminate|].
  simpl in *. apply andb_prop in H. destruct H as [-> H].
  simpl. apply IH, H.
Qed.

Lemma contains_app (p s t : text) :
  contains p s = true -> contains p (s ++ t) = true.
Proof.
  induction s as [|c s IH]; intro H.
  - apply contains_nil_r in H. subst p. destruct t; reflexivity.
  - change (contains p (c :: s)) with (startswith p (c :: s) || contains p s) in H.
    change (contains p ((c :: s) ++ t))
      with (startswith p ((c :: s) ++ t) || contains p (s ++ t)).
    apply orb_prop in H. destruct H as [H|H].
    + rewrite (startswith_app _ _ t H). reflexivity.
    + rewrite (IH H). apply orb_true_r.
Qed.

End StringFacts.

(* ================================================================== *)
(** * The flashcard parser *)
(* ================================================================== *)

Section ParserFacts.

Import Parser.

(** ** Basic grammar: every record has both halves *)

Lemma truthy_solid (s : text) : nil_or_solid s -> truthy s = true -> solid s.
Proof.
  intros [->|H] Ht; [discriminate | exact H].
Qed.

Lemma emit_pending_complete (st : basic_state) :
  basic_inv st -> Forall complete (emit_pending st).
Proof.
  intros [Hc Hf Hb]. unfold emit_pending.
  destruct (truthy (current_front st) && truthy (current_back st)) eqn:E.
  - apply andb_prop in E. destruct E as [Ef Eb].
    apply Forall_app. split; [exact Hc|].
    constructor; [|constructor].
    exists (strip (current_front st)), (strip (current_back st)).
    split; [reflexivity|].
    split; apply strip_solid; apply truthy_solid; assumption.
  - exact Hc.
Qed.

Lemma appended_line_solid (cur raw : text) :
  truthy (strip raw) = true -> nil_or_solid (cur ++ LF :: strip raw).
Proof.
  intro Ht. right. apply solid_app_r, solid_cons.
  destruct (strip_nil_or_solid raw) as [E|E]; [|exact E].
  rewrite E in Ht. discriminate.
Qed.

Lemma basic_line_inv (st : basic_state) (raw : text) :
  basic_inv st -> basic_inv (basic_line st raw).
Proof.
  intro Hinv. pose proof Hinv as [Hc Hf Hb]. unfold basic_line.
  destruct (lower_startswith (str "front:") (strip raw)).
  { constructor; simpl.
    - apply emit_pending_complete, Hinv.
    - apply strip_nil_or_solid.
    - left; reflexivity. }
  destruct (lower_startswith (str "back:") (strip raw)).
  { constructor; simpl; [exact Hc | exact Hf | apply strip_nil_or_solid]. }
  destruct (truthy (strip raw) && in_front st) eqn:E1.
  { apply andb_prop in E1. destruct E1 as [Ht _].
    constructor; simpl; [exact Hc | apply appended_line_solid, Ht | exact Hb]. }
  destruct (truthy (strip raw) && in_back st) eqn:E2.
  { apply andb_prop in E2. destruct E2 as [Ht _].
    constructor; simpl; [exact Hc | exact Hf | apply appended_line_solid, Ht]. }
  destruct (negb (truthy (strip raw)) && truthy (current_front st)
            && truthy (current_back st)).
  { constructor; simpl;
      [apply emit_pending_complete, Hinv | left; reflexivity | left; reflexivity]. }
  exact Hinv.
Qed.

Lemma fold_basic_inv (ls : list text) (st : basic_state) :
  basic_inv st -> basic_inv (fold_left basic_line ls st).
Proof.
  revert st. induction ls as [|l ls IH]; intros st H; simpl.
  - exact H.
  - apply IH, basic_line_inv, H.
Qed.

Lemma parse_basic_complete (t : text) : Forall complete (parse_basic t).
Proof.
  unfold parse_basic. apply emit_pending_complete, fold_basic_inv.
  constructor; simpl; [constructor | left; reflexivity | left; reflexivity].
Qed.

(** ** Cloze grammar: every record holds the three characters that opened it *)

Lemma opener_solid : Forall (fun c => isspace c = false) opener.
Proof. repeat constructor. Qed.

Lemma opener_not_nil : opener <> [].
Proof. discriminate. Qed.

Lemma closed_card_opened (st : cloze_state) :
  cloze_inv st -> truthy (cz_current_card st) = true ->
  Forall opened_card (cz_flashcards st ++ [ClozeCard (strip (cz_current_card st))]).
Proof.
  intros [Hc Hcur] Ht. apply Forall_app. split; [exact Hc|].
  constructor; [|constructor].
  exists (strip (cz_current_card st)). split; [reflexivity|].
  destruct Hcur as [E|E]; [rewrite E in Ht; discriminate|].
  apply contains_strip; [exact opener_not_nil | exact opener_solid | exact E].
Qed.

Lemma cloze_line_inv (st : cloze_state) (raw : text) :
  cloze_inv st -> cloze_inv (cloze_line st raw).
Proof.
  intro Hinv. pose proof Hinv as [Hc Hcur]. unfold cloze_line.
  fold opener.
  destruct (truthy (strip raw) && contains opener (strip raw)) eqn:E1.
  { apply andb_prop in E1. destruct E1 as [_ Hop].
    constructor; simpl; [|right; exact Hop].
    destruct (truthy (cz_current_card st)) eqn:Ht; [|exact Hc].
    apply closed_card_opened; assumption. }
  destruct (truthy (strip raw) && truthy (cz_current_card st)) eqn:E2.
  { apply andb_prop in E2. destruct E2 as [_ Ht].
    constructor; simpl; [exact Hc|]. right.
    destruct Hcur as [E|E]; [rewrite E in Ht; discriminate|].
    apply contains_app, E. }
  destruct (negb (truthy (strip raw)) && truthy (cz_current_card st)) eqn:E3.
  { apply andb_prop in E3. destruct E3 as [_ Ht].
    constructor; simpl; [|left; reflexivity].
    apply closed_card_opened; assumption. }
  exact Hinv.
Qed.

Lemma fold_cloze_inv (ls : list text) (st : cloze_state) :
  cloze_inv st -> cloze_inv (fold_left cloze_line ls st).
Proof.
  revert st. induction ls as [|l ls IH]; intros st H; simpl.
  - exact H.
  - apply IH, cloze_line_inv, H.
Qed.

Lemma parse_cloze_opened (t : text) : Forall opened_card (parse_cloze t).
Proof.
  unfold parse_cloze.
  assert (H : cloze_inv (fold_left cloze_line (split LF t) (mkCloze [] []))).
  { apply fold_cloze_inv. constructor; simpl; [constructor | left; reflexivity]. }
  unfold cloze_finish.
  destruct (truthy (cz_current_card _)) eqn:Ht.
  - apply closed_card_opened; assumption.
  - apply H.
Qed.

End ParserFacts.

(** C3.  Under the basic grammar, the text whose lines are [Front: Q1],
    [Back: A1], an empty line, [Front: Q2], [Back: A2] parses to exactly the
    two records (Q1, A1) and (Q2, A2), in that order. *)
Theorem parse_basic_two_records :
  Parser.parse_flashcards basic
    (Parser.unlines ["Front: Q1"; "Back: A1"; EmptyString; "Front: Q2"; "Back: A2"]%string)
  = [BasicCard (str "Q1") (str "A1"); BasicCard (str "Q2") (str "A2")].
Proof. vm_compute. reflexivity. Qed.

(** C8.  Under the basic grammar a record that lacks one half is dropped:
    the text [Front: Q only] parses to no record, and every record of every
    parse has a non-empty front and a non-empty back. *)
Theorem parse_basic_drops_incomplete :
  Parser.parse_flashcards basic (str "Front: Q only") = []
  /\ forall (t : text) (r : flashcard),
       In r (Parser.parse_flashcards basic t) ->
       exists f b, r = BasicCard f b /\ f <> [] /\ b <> [].
Proof.
  split; [vm_compute; reflexivity|].
  intros t r Hin. simpl in Hin.
  pose proof (parse_basic_complete t) as H.
  rewrite Forall_forall in H. exact (H r Hin).
Qed.

Lemma parse_basic_drops_incomplete_witness :
  exists f b, BasicCard (str "Q1") (str "A1") = BasicCard f b /\ f <> [] /\ b <> [].
Proof.
  apply (proj2 parse_basic_drops_incomplete
           (Parser.unlines ["Front: Q1"; "Back: A1"; EmptyString; "Front: Q2"; "Back: A2"]%string)).
  vm_compute. left. reflexivity.
Defined.

(** C9, as stated, fails: the one-line text [{{c] parses, under the cloze
    grammar, to a record that holds no cloze deletion with a number. *)
Lemma parse_cloze_record_without_span :
  In (ClozeCard (str "{{c")) (Parser.parse_flashcards cloze (str "{{c"))
  /\ Parser.has_cloze_span (str "{{c") = false.
Proof. split; [vm_compute; left; reflexivity | vm_compute; reflexivity]. Qed.

(** C9, amended.  Every record of every parse under the cloze grammar is a
    cloze record whose content holds the three characters [{{c]. *)
Theorem parse_cloze_records_hold_opener :
  forall (t : text) (r : flashcard),
    In r (Parser.parse_flashcards cloze t) ->
    exists c, r = ClozeCard c /\ contains (str "{{c") c = true.
Proof.
  intros t r Hin. simpl in Hin.
  pose proof (parse_cloze_opened t) as H.
  rewrite Forall_forall in H. exact (H r Hin).
Qed.

Lemma parse_cloze_records_hold_opener_witness :
  exists c, ClozeCard (str "{{c1::baz}}.") = ClozeCard c
            /\ contains (str "{{c") c = true.
Proof.
  apply (parse_cloze_records_hold_opener
           (Parser.unlines ["{{c1::foo}} is {{c2::bar}}."; EmptyString; "{{c1::baz}}."]%string)).
  vm_compute. right. left. reflexivity.
Defined.

(** C10.  Under the basic grammar a [Front:] line met while a complete
    record is pending emits that record and starts the next one, so records
    need no empty line between them: the text whose lines are [Front: A],
    [Back: B], [Front: C], [Back: D] parses to exactly (A, B) and (C, D). *)
Theorem front_line_emits_pending_record :
  (forall (st : Parser.basic_state) (raw : text),
      lower_startswith (str "front:") (strip raw) = true ->
      truthy (Parser.current_front st) = true ->
      truthy (Parser.current_back st) = true ->
      Parser.flashcards (Parser.basic_line st raw)
      = Parser.flashcards st
          ++ [BasicCard (strip (Parser.current_front st))
                        (strip (Parser.current_back st))]
      /\ Parser.current_front (Parser.basic_line st raw)
         = strip (slice_from 6 (strip raw))
      /\ Parser.current_back (Parser.basic_line st raw) = [])
  /\ Parser.parse_flashcards basic
       (Parser.unlines ["Front: A"; "Back: B"; "Front: C"; "Back: D"]%string)
     = [BasicCard (str "A") (str "B"); BasicCard (str "C") (str "D")].
Proof.
  split; [|vm_compute; reflexivity].
  intros st raw Hf Hcf Hcb. unfold Parser.basic_line. rewrite Hf. simpl.
  unfold Parser.emit_pending. rewrite Hcf, Hcb. simpl. auto.
Qed.

Lemma front_line_emits_pending_record_witness :
  Parser.flashcards
    (Parser.basic_line (Parser.mkBasic [] (str "A") (str "B") false true)
                       (str "Front: C"))
  = [] ++ [BasicCard (strip (str "A")) (strip (str "B"))]
  /\ Parser.current_front
       (Parser.basic_line (Parser.mkBasic [] (str "A") (str "B") false true)
                          (str "Front: C"))
     = strip (slice_from 6 (strip (str "Front: C")))
  /\ Parser.current_back
       (Parser.basic_line (Parser.mkBasic [] (str "A") (str "B") false true)
                          (str "Front: C")) = [].
Proof.
  apply (proj1 front_line_emits_pending_record
           (Parser.mkBasic [] (str "A") (str "B") false true) (str "Front: C"));
    reflexivity.
Defined.

(* ================================================================== *)
(** * The streaming worker *)
(* ================================================================== *)

Section WorkerFacts.

Import Json Utf8 Worker.

(** What a payload adds does not depend on what was accumulated. *)
Lemma append_content_acc (acc line : text) :
  append_content acc line
  = match append_content [] line with
    | Ok (Some d) => Ok (Some (acc ++ d))
    | Ok None => Ok None
    | Raise e => Raise e
    end.
Proof.
  unfold append_content.
  destruct (loads line) as [chunk_data|e]; simpl; [|reflexivity].
  destruct (py_in (str "choices") chunk_data) as [[|]|e]; simpl; try reflexivity.
  destruct (getitem chunk_data (str "choices")) as [choices|e]; simpl; [|reflexivity].
  destruct (py_len choices) as [n|e]; simpl; [|reflexivity].
  destruct (0 <? n)%nat; [|reflexivity].
  destruct (getitem0 choices) as [first|e]; simpl; [|reflexivity].
  destruct (get first (str "delta") (JObject [])) as [delta|e]; simpl; [|reflexivity].
  destruct (py_in (str "content") delta) as [[|]|e]; simpl; try reflexivity.
  destruct (getitem delta (str "content")) as [new_content|e]; simpl; [|reflexivity].
  destruct new_content; reflexivity.
Qed.

Lemma handle_line_classify (acc : text) (raw : bytes) :
  handle_line acc raw
  = match classify raw with
    | Done => Break
    | Content d => Next (acc ++ d) [chunk_received (acc ++ d)]
    | Skipped => Next acc []
    | Faulty e => Raised e
    end.
Proof.
  unfold classify, handle_line.
  destruct (decode raw) as [decoded|e]; [|reflexivity].
  destruct (startswith (str "data: ") (strip decoded)); [|reflexivity].
  destruct (text_eqb _ _); [reflexivity|].
  destruct (truthy _); [|reflexivity].
  rewrite (append_content_acc acc).
  destruct (append_content [] _) as [[d|]|e]; try reflexivity.
  destruct e; reflexivity.
Qed.

Lemma read_emits (lines : list bytes) (broken : option exn) (acc : text) :
  fst (read lines broken acc)
  = List.map chunk_received (cumulative acc (fragments lines)).
Proof.
  revert acc. induction lines as [|raw lines IH]; intro acc; simpl.
  - destruct broken; reflexivity.
  - rewrite handle_line_classify.
    destruct (classify raw) as [|d| |e]; simpl; try reflexivity.
    + specialize (IH (acc ++ d)).
      destruct (read lines broken (acc ++ d)) as [later r]. simpl in *.
      rewrite IH. reflexivity.
    + specialize (IH acc).
      destruct (read lines broken acc) as [later r]. simpl in *. exact IH.
Qed.

Lemma read_returns (lines : list bytes) (broken : option exn) (acc : text) :
  if ends_normally lines broken
  then snd (read lines broken acc) = Ok (acc ++ concat (fragments lines))
  else exists e, snd (read lines broken acc) = Raise e.
Proof.
  revert acc. induction lines as [|raw lines IH]; intro acc; simpl.
  - destruct broken as [e|]; simpl; [exists e; reflexivity|].
    rewrite app_nil_r. reflexivity.
  - rewrite handle_line_classify.
    destruct (classify raw) as [|d| |e]; simpl.
    + rewrite app_nil_r. reflexivity.
    + specialize (IH (acc ++ d)).
      destruct (read lines broken (acc ++ d)) as [later r]. simpl in *.
      rewrite app_assoc. exact IH.
    + specialize (IH acc).
      destruct (read lines broken acc) as [later r]. simpl in *. exact IH.
    + exists e. reflexivity.
Qed.

Lemma run_opened (lines : list bytes) (broken : option exn) :
  run (Opened lines broken)
  = List.map chunk_received (cumulative [] (fragments lines))
    ++ [last_signal lines broken].
Proof.
  unfold run, last_signal. rewrite <- (read_emits lines broken []).
  destruct (read lines broken []) as [emitted [acc|e]]; reflexivity.
Qed.

Lemma last_signal_terminal (lines : list bytes) (broken : option exn) :
  is_terminal (last_signal lines broken) = true.
Proof.
  unfold last_signal. destruct (snd (read lines broken [])) as [acc|e].
  - destruct (truthy acc); reflexivity.
  - reflexivity.
Qed.

Lemma last_signal_normal (lines : list bytes) (broken : option exn) :
  ends_normally lines broken = true ->
  last_signal lines broken
  = if truthy (concat (fragments lines))
    then response_finished (concat (fragments lines))
    else error_occurred NoResponseReceived.
Proof.
  intro Hn. unfold last_signal.
  pose proof (read_returns lines broken []) as H. rewrite Hn in H.
  rewrite H. reflexivity.
Qed.

Lemma terminal_count (chunks : list text) (last : signal) :
  is_terminal last = true ->
  List.length (filter is_terminal (List.map chunk_received chunks ++ [last])) = 1%nat.
Proof.
  intro Hl. induction chunks as [|c chunks IH]; simpl.
  - rewrite Hl. reflexivity.
  - exact IH.
Qed.

Lemma run_session (tr : transport) : session (run tr).
Proof.
  destruct tr as [e|lines broken].
  - exists [], (error_occurred (OfException e)). split; reflexivity.
  - exists (cumulative [] (fragments lines)), (last_signal lines broken).
    split; [apply run_opened | apply last_signal_terminal].
Qed.

End WorkerFacts.

(** C1.  Fed two events whose content is [Hel] and [lo] and then the
    sentinel, the session signals the chunk [Hel], the chunk [Hello] and
    then done with [Hello], and nothing else;
    for every response, the chunk signals are, in order, the cumulative
    texts of the content fragments received, followed by exactly one last
    signal, which is not a chunk. *)
Theorem chunks_carry_cumulative_text :
  Worker.run
    (Worker.Opened
       [Worker.quoted "data: {'choices':[{'delta':{'content':'Hel'}}]}";
        Worker.quoted "data: {'choices':[{'delta':{'content':'lo'}}]}";
        Worker.quoted "data: [DONE]"] None)
  = [Worker.chunk_received (str "Hel"); Worker.chunk_received (str "Hello");
     Worker.response_finished (str "Hello")]
  /\ forall (lines : list Utf8.bytes) (broken : option exn),
       exists last,
         Worker.run (Worker.Opened lines broken)
         = List.map Worker.chunk_received
             (Worker.cumulative [] (Worker.fragments lines)) ++ [last]
         /\ Worker.is_chunk last = false.
Proof.
  split; [vm_compute; reflexivity|].
  intros lines broken. exists (last_signal lines broken).
  split; [apply run_opened|].
  pose proof (last_signal_terminal lines broken) as H.
  destruct (last_signal lines broken); [discriminate H | reflexivity | reflexivity].
Qed.

(** C2.  Every session signals chunks and then exactly one last signal,
    which is done or error; a session whose loop ends normally (on the
    sentinel or at the end of the response) with nothing accumulated signals
    the error "No response received" and never done, and this is the case
    whenever no content-bearing event was received. *)
Theorem one_terminal_signal :
  (forall tr : Worker.transport,
      exists chunks last,
        Worker.run tr = List.map Worker.chunk_received chunks ++ [last]
        /\ Worker.is_terminal last = true
        /\ List.length (filter Worker.is_terminal (Worker.run tr)) = 1%nat)
  /\ (forall (lines : list Utf8.bytes) (broken : option exn),
         Worker.ends_normally lines broken = true ->
         concat (Worker.fragments lines) = [] ->
         Worker.run (Worker.Opened lines broken)
         = List.map Worker.chunk_received
             (Worker.cumulative [] (Worker.fragments lines))
           ++ [Worker.error_occurred Worker.NoResponseReceived]
         /\ existsb Worker.is_done (Worker.run (Worker.Opened lines broken)) = false)
  /\ (forall (lines : list Utf8.bytes) (broken : option exn),
         Worker.ends_normally lines broken = true ->
         Worker.fragments lines = [] ->
         Worker.run (Worker.Opened lines broken)
         = [Worker.error_occurred Worker.NoResponseReceived]).
Proof.
  split; [|split].
  - intro tr. destruct (run_session tr) as [chunks [last [Hrun Hlast]]].
    exists chunks, last. rewrite Hrun.
    split; [reflexivity|]. split; [exact Hlast|].
    apply terminal_count, Hlast.
  - intros lines broken Hn He.
    rewrite run_opened, (last_signal_normal lines broken Hn), He. simpl.
    split; [reflexivity|].
    rewrite existsb_app. simpl.
    induction (Worker.cumulative [] (Worker.fragments lines)); simpl; auto.
  - intros lines broken Hn He.
    rewrite run_opened, (last_signal_normal lines broken Hn), He.
    reflexivity.
Qed.

Lemma one_terminal_signal_witness :
  Worker.run (Worker.Opened [Worker.quoted "data: {}"; Worker.quoted "data: [DONE]"] None)
  = [Worker.error_occurred Worker.NoResponseReceived].
Proof.
  apply (proj2 (proj2 one_terminal_signal)
           [Worker.quoted "data: {}"; Worker.quoted "data: [DONE]"] None);
    vm_compute; reflexivity.
Defined.

(* ================================================================== *)
(** * The chat history *)
(* ================================================================== *)

Section DatabaseFacts.

Import ChatDatabase.

Lemma insert_row_perm (r : row) (l : list row) :
  Permutation (insert_row r l) (r :: l).
Proof.
  induction l as [|x l IH]; simpl.
  - apply Permutation_refl.
  - destruct (row_timestamp r <=? row_timestamp x)%N.
    + apply Permutation_refl.
    + eapply perm_trans; [apply perm_skip, IH | apply perm_swap].
Qed.

Lemma order_by_timestamp_perm (l : list row) :
  Permutation (order_by_timestamp l) l.
Proof.
  induction l as [|x l IH]; simpl.
  - apply perm_nil.
  - eapply perm_trans; [apply insert_row_perm | apply perm_skip, IH].
Qed.


End DatabaseFacts.

(* ================================================================== *)
(** * The chat window *)
(* ================================================================== *)

Section WindowFacts.

Import Worker ChatDatabase ChatWindow.

Lemma opened_inv (card : N) (db : table) : inv (opened card db).
Proof. apply inv_idle; reflexivity. Qed.

Lemma send_message_inv (w : window) (now : N) (tr : transport) :
  inv w -> workers w = [] -> inv (send_message w now tr).
Proof.
  intros Hinv Hw. unfold send_message.
  destruct (truthy (strip (message_input w))); simpl; [|exact Hinv].
  apply inv_busy with (q := run tr); simpl.
  - rewrite Hw. reflexivity.
  - apply run_session.
  - reflexivity.
  - reflexivity.
Qed.

Lemma chunks_then_last_not_nil (chunks : list text) (last : signal) :
  List.map chunk_received chunks ++ [last] <> [].
Proof. destruct chunks; discriminate. Qed.

(** Popping the only session: its first signal, and the session that is
    left, if any. *)
Lemma pop_only_session (chunks : list text) (last : signal) :
  pop_signal [List.map chunk_received chunks ++ [last]] 0
  = match chunks with
    | [] => Some (last, [])
    | c :: chunks' =>
        Some (chunk_received c, [List.map chunk_received chunks' ++ [last]])
    end.
Proof.
  destruct chunks as [|c chunks']; simpl; [reflexivity|].
  pose proof (chunks_then_last_not_nil chunks' last) as Hne.
  destruct (List.map chunk_received chunks' ++ [last]); [contradiction | reflexivity].
Qed.

Lemma pop_beyond (q : list signal) (k : nat) : pop_signal [q] (S k) = None.
Proof. destruct q; reflexivity. Qed.

Lemma slot_terminal_idle (w : window) (now : N) (s : signal) :
  is_terminal s = true -> workers w = [] ->
  idle (slot w now s) /\ current_ai_bubble (slot w now s) = None.
Proof.
  intros Hs Hw. destruct s as [t|t|m]; [discriminate Hs| |];
    simpl; unfold idle; simpl; auto.
Qed.

Lemma step_inv (w : window) (e : ui_event) : inv w -> inv (step w e).
Proof.
  intro Hinv. destruct e as [t|now tr|now tr|now k]; simpl.
  - destruct (message_input_enabled w) eqn:E; [|exact Hinv].
    destruct Hinv as [Hw Hs Hi|q Hw Hq Hs Hi].
    + apply inv_idle; simpl; auto.
    + congruence.
  - destruct (message_input_enabled w) eqn:E; [|exact Hinv].
    destruct Hinv as [Hw Hs Hi|q Hw Hq Hs Hi]; [|congruence].
    apply send_message_inv; [apply inv_idle|]; assumption.
  - destruct (send_button_enabled w) eqn:E; [|exact Hinv].
    destruct Hinv as [Hw Hs Hi|q Hw Hq Hs Hi]; [|congruence].
    apply send_message_inv; [apply inv_idle|]; assumption.
  - destruct Hinv as [Hw Hs Hi|q Hw Hq Hs Hi].
    + rewrite Hw. simpl. apply inv_idle; assumption.
    + rewrite Hw. destruct k as [|k]; [|rewrite pop_beyond; eapply inv_busy; eassumption].
      destruct Hq as [chunks [last [-> Hlast]]].
      rewrite pop_only_session. destruct chunks as [|c chunks'].
      * destruct (slot_terminal_idle (with_workers w []) now last Hlast eq_refl)
          as [[H1 [H2 H3]] _].
        apply inv_idle; assumption.
      * simpl. unfold update_streaming_bubble. simpl.
        destruct (current_ai_bubble w);
          (eapply inv_busy with (q := List.map chunk_received chunks' ++ [last]);
           simpl; [reflexivity | exists chunks', last; auto | exact Hs | exact Hi]).
Qed.

Lemma steps_inv (es : list ui_event) (w : window) : inv w -> inv (steps w es).
Proof.
  revert w. induction es as [|e es IH]; intros w H; simpl.
  - exact H.
  - apply IH, step_inv, H.
Qed.


End WindowFacts.

(** C6.  In every state a chat window reaches from its opening, at most one
    streaming session is in flight; the send button and the input line are
    enabled exactly when none is; while one is in flight a click on the
    send button or a return key leaves the window as it is, so no second
    session starts; and the send button becomes enabled again only by the
    delivery of the done or error signal of the session in flight. *)
Theorem one_session_per_window :
  forall (card : N) (db : ChatDatabase.table) (es : list ChatWindow.ui_event),
    let w := ChatWindow.steps (ChatWindow.opened card db) es in
    (List.length (ChatWindow.workers w) <= 1)%nat
    /\ (ChatWindow.send_button_enabled w = true <-> ChatWindow.workers w = [])
    /\ ChatWindow.message_input_enabled w = ChatWindow.send_button_enabled w
    /\ (ChatWindow.workers w <> [] ->
        forall now tr,
          ChatWindow.step w (ChatWindow.SendClicked now tr) = w
          /\ ChatWindow.step w (ChatWindow.ReturnPressed now tr) = w)
    /\ (ChatWindow.workers w <> [] ->
        forall e,
          ChatWindow.send_button_enabled (ChatWindow.step w e) = true ->
          exists now last,
            e = ChatWindow.Delivered now 0
            /\ ChatWindow.workers w = [[last]]
            /\ Worker.is_terminal last = true).
Proof.
  intros card db es w.
  assert (Hinv : inv w) by (apply steps_inv, opened_inv).
  destruct Hinv as [Hw Hs Hi|q Hw Hq Hs Hi].
  - rewrite Hw, Hs, Hi. simpl. split; [lia|].
    split; [split; reflexivity|]. split; [reflexivity|].
    split; intro H; exfalso; apply H; reflexivity.
  - rewrite Hw, Hs, Hi. simpl. split; [lia|].
    split; [split; discriminate|]. split; [reflexivity|].
    split.
    + intros _ now tr. simpl. rewrite Hs, Hi. split; reflexivity.
    + intros _ e He.
      destruct e as [t|now tr|now tr|now k]; simpl in He.
      * rewrite Hi in He. congruence.
      * rewrite Hi in He. congruence.
      * rewrite Hs in He. congruence.
      * rewrite Hw in He. destruct k as [|k];
          [|rewrite pop_beyond in He; congruence].
        destruct Hq as [chunks [last [-> Hlast]]].
        rewrite pop_only_session in He.
        destruct chunks as [|c chunks'].
        -- exists now, last. auto.
        -- exfalso. simpl in He. unfold ChatWindow.update_streaming_bubble in He.
           simpl in He. destruct (ChatWindow.current_ai_bubble w); simpl in He;
             congruence.
Qed.

Lemma one_session_per_window_witness :
  let w := ChatWindow.steps (ChatWindow.opened 7 [])
             [ChatWindow.Typed (str "Why?");
              ChatWindow.SendClicked 1 (Worker.Fails (URLError (str "timed out")))] in
  ChatWindow.step w (ChatWindow.SendClicked 2 (Worker.Fails (URLError [])))
  = w
  /\ ChatWindow.step w (ChatWindow.ReturnPressed 2 (Worker.Fails (URLError [])))
     = w.
Proof.
  apply (proj1 (proj2 (proj2 (proj2
           (one_session_per_window 7 []
              [ChatWindow.Typed (str "Why?");
               ChatWindow.SendClicked 1
                 (Worker.Fails (URLError (str "timed out")))]))))).
  vm_compute. discriminate.
Defined.



(** The non-streaming sibling keeps no such discipline: a request that fails
    comes back as an apology text, which is shown and stored as the
    assistant's message of the turn. *)
Lemma simple_failed_request_is_stored (describe : exn -> text)
      (db : ChatDatabase.table) (card : N) (input : text) (t0 t1 : N) (e : exn) :
  truthy (strip input) = true ->
  SimpleChat.send_message describe db card input t0 t1 (Raise e)
  = db
    ++ [ChatDatabase.mkRow card t0 ChatDatabase.user (strip input)]
    ++ [ChatDatabase.mkRow card t1 ChatDatabase.assistant
          (str "Sorry, I couldn't process your request right now. Error: "
           ++ describe e)].
Proof.
  intro Hmsg. unfold SimpleChat.send_message. rewrite Hmsg. simpl.
  unfold ChatDatabase.save_message. rewrite <- app_assoc. reflexivity.
Qed.

(** In both variants the user message is stored before the request. *)
Lemma simple_user_message_first (describe : exn -> text)
      (db : ChatDatabase.table) (card : N) (input : text) (t0 t1 : N)
      (reply : result text) :
  truthy (strip input) = true ->
  exists rest,
    SimpleChat.send_message describe db card input t0 t1 reply
    = db ++ ChatDatabase.mkRow card t0 ChatDatabase.user (strip input) :: rest.
Proof.
  intro Hmsg. unfold SimpleChat.send_message. rewrite Hmsg. simpl.
  unfold ChatDatabase.save_message.
  destruct (truthy (SimpleChat.get_ai_response describe reply)).
  - eexists. rewrite <- app_assoc. reflexivity.
  - exists []. reflexivity.
Qed.

(* ================================================================== *)
(** * The batch commit *)
(* ================================================================== *)

Section CommitFacts.

Import Commit.

Variable h : host.
Variable fmt : card_format.
Variable note_type : text.
Variable tags : list text.

Local Abbreviation create_step := (Notions.create_step h fmt note_type tags).






End CommitFacts.



(* ================================================================== *)
(** * The matcher *)
(* ================================================================== *)

Section MatcherFacts.

Import Re.

(** ** Where a pattern cannot match *)

Lemma match_at_none (pat : pattern) (b : bool) (prev : option char) (rest : text) :
  (forall k, match_items pat [] k prev rest = None) ->
  match_at pat b prev rest = None.
Proof.
  intro H. unfold match_at. rewrite H. reflexivity.
Qed.

Lemma chr_first_no_match (x : char) (pat : pattern) (caps : list text)
      (k : list text -> cont answer) (prev : option char) (rest : text) :
  match rest with [] => True | c :: _ => c <> x end ->
  match_items (Plain (Chr x) :: pat) caps k prev rest = None.
Proof.
  intro H. simpl. destruct rest as [|c rest]; [reflexivity|].
  destruct (N.eqb_spec c x); [contradiction | reflexivity].
Qed.

Lemma bol_first (pat : pattern) (caps : list text)
      (k : list text -> cont answer) (prev : option char) (rest : text) :
  match_items (Plain Bol :: pat) caps k prev rest
  = if at_line_start prev then match_items pat caps k prev rest else None.
Proof.
  simpl. destruct prev as [c|]; reflexivity.
Qed.

Lemma chars_no_match (p : text) (pat : pattern) (caps : list text)
      (k : list text -> cont answer) :
  forall (prev : option char) (rest : text),
    startswith p rest = false ->
    match_items (chars p ++ pat) caps k prev rest = None.
Proof.
  induction p as [|x p IH]; intros prev rest H; [discriminate H|].
  destruct rest as [|c rest]; [reflexivity|].
  simpl in H. simpl. rewrite N.eqb_sym.
  destruct (x =? c)%N; [|reflexivity].
  simpl in H. apply IH, H.
Qed.

Lemma bol_chars_no_match (m : string) (pat : pattern) (b : bool)
      (prev : option char) (rest : text) :
  (at_line_start prev = true -> startswith (str m) rest = false) ->
  match_at ([Plain Bol] ++ lit m ++ pat) b prev rest = None.
Proof.
  intro H. apply match_at_none. intro k.
  change ([Plain Bol] ++ lit m ++ pat) with (Plain Bol :: chars (str m) ++ pat).
  rewrite bol_first. destruct (at_line_start prev); [|reflexivity].
  apply chars_no_match, H. reflexivity.
Qed.

(** ** What a successful repetition has consumed *)

Lemma rep_greedy_some (R : Type) (p : char -> bool) (k : cont R) (r : R) :
  forall (rest : text) (min : nat) (prev : option char),
    rep_greedy p min k prev rest = Some r ->
    exists pre post prev',
      rest = pre ++ post /\ forallb p pre = true
      /\ (min <= List.length pre)%nat /\ k prev' post = Some r.
Proof.
  induction rest as [|c rest IH]; intros min prev H; simpl in H.
  - destruct min; [|discriminate].
    exists [], [], prev. repeat split; auto.
  - assert (Hstop : match min with O => k prev (c :: rest) | S _ => None end = Some r ->
                    exists pre post prev',
                      c :: rest = pre ++ post /\ forallb p pre = true
                      /\ (min <= List.length pre)%nat /\ k prev' post = Some r).
    { destruct min; [|discriminate]. intro E.
      exists [], (c :: rest), prev. repeat split; auto. }
    destruct (p c) eqn:Hc; [|apply Hstop, H].
    destruct (rep_greedy p (Nat.pred min) k (Some c) rest) as [r'|] eqn:E;
      [|apply Hstop, H].
    injection H as ->.
    destruct (IH _ _ E) as [pre [post [prev' [-> [Hp [Hm Hk]]]]]].
    exists (c :: pre), post, prev'. simpl. rewrite Hc, Hp.
    repeat split; auto. lia.
Qed.

End MatcherFacts.

(* ================================================================== *)
(** * The formatter *)
(* ================================================================== *)

Section ScanFacts.

Import Re.

Lemma sub_scan_unchanged (pat : pattern) (tm : template) :
  forall (s : text) (prev : option char),
    never_matches pat prev s -> sub_scan pat tm 0 prev s = s.
Proof.
  induction s as [|c s IH]; intros prev [Hm Hs]; simpl; rewrite Hm.
  - reflexivity.
  - rewrite (IH (Some c) Hs). reflexivity.
Qed.

(** A property of positions that rules a match out and passes from each
    position to the next rules every match out. *)
Lemma never_matches_by (pat : pattern) (P : option char -> text -> Prop) :
  (forall prev s, P prev s -> match_at pat false prev s = None) ->
  (forall prev c s, P prev (c :: s) -> P (Some c) s) ->
  forall s prev, P prev s -> never_matches pat prev s.
Proof.
  intros Hnone Hnext. induction s as [|c s IH]; intros prev HP; simpl.
  - split; [apply Hnone, HP | exact I].
  - split; [apply Hnone, HP | apply IH, (Hnext prev c s HP)].
Qed.

Lemma sub_ok (pat : pattern) (tm : template) (s : text) :
  valid_template pat tm = true ->
  sub pat tm s = Ok (sub_scan pat tm 0 None s).
Proof.
  intro H. unfold sub. rewrite H. reflexivity.
Qed.

End ScanFacts.

Section LineFacts.

Lemma split_cons (c : char) (s : text) :
  split LF (c :: s)
  = if (c =? LF)%N then [] :: split LF s
    else (c :: first_line s) :: tl (split LF s).
Proof.
  unfold first_line. simpl. destruct (c =? LF)%N; [reflexivity|].
  destruct (split LF s); reflexivity.
Qed.

Lemma split_not_nil (s : text) : split LF s <> [].
Proof.
  destruct s as [|c s]; [discriminate|].
  rewrite split_cons. destruct (c =? LF)%N; discriminate.
Qed.

Lemma split_hd_tl (s : text) : split LF s = first_line s :: tl (split LF s).
Proof.
  unfold first_line. pose proof (split_not_nil s).
  destruct (split LF s); [contradiction | reflexivity].
Qed.

(** A prefix test with a pattern that holds no line feed looks at the first
    line only. *)
Lemma startswith_first_line (p : text) :
  Forall (fun c => c <> LF) p ->
  forall s, startswith p s = startswith p (first_line s).
Proof.
  induction 1 as [|x p Hx Hp IH]; intro s; [reflexivity|].
  destruct s as [|c s]; [reflexivity|].
  unfold first_line at 1. rewrite split_cons.
  destruct (N.eqb_spec c LF) as [->|Hc]; simpl.
  - destruct (N.eqb_spec x LF); [contradiction | reflexivity].
  - rewrite (IH s). reflexivity.
Qed.

Lemma lines_ahead_next (Q : text -> bool) (prev : option char) (c : char) (s : text) :
  forallb Q (lines_ahead prev (c :: s)) = true ->
  forallb Q (lines_ahead (Some c) s) = true.
Proof.
  unfold lines_ahead. rewrite split_cons. simpl.
  destruct (c =? LF)%N; destruct (at_line_start prev); simpl; intro H.
  - apply andb_prop in H. tauto.
  - exact H.
  - apply andb_prop in H. tauto.
  - exact H.
Qed.

Lemma lines_ahead_first (Q : text -> bool) (prev : option char) (s : text) :
  forallb Q (lines_ahead prev s) = true ->
  at_line_start prev = true -> Q (first_line s) = true.
Proof.
  unfold lines_ahead. intros H Hp. rewrite Hp in H.
  rewrite split_hd_tl in H. simpl in H. apply andb_prop in H. tauto.
Qed.

(** ** After the line feeds are replaced *)

Lemma replace_no_lf (t : text) :
  Forall (fun c => c <> LF) (replace_char LF br t).
Proof.
  induction t as [|c t IH]; simpl; [constructor|].
  destruct (N.eqb_spec c LF).
  - repeat (constructor; [discriminate|]). exact IH.
  - constructor; assumption.
Qed.

(** The replaced text is the first line, then nothing or a [<]. *)
Lemma replace_first_line (t : text) :
  exists tail,
    replace_char LF br t = first_line t ++ tail
    /\ match tail with [] => True | c :: _ => c = 60%N end.
Proof.
  induction t as [|c t [tail [IH Htail]]].
  - exists []. split; [reflexivity | exact I].
  - unfold first_line. rewrite split_cons. simpl.
    destruct (c =? LF)%N; simpl.
    + eexists. split; [reflexivity | reflexivity].
    + exists tail. rewrite IH. split; [reflexivity | exact Htail].
Qed.

End LineFacts.

Section FormatterFacts.

Import Re Formatter.

Variable is_decimal : char -> bool.

Local Abbreviation plain_ahead := (Notions.plain_ahead is_decimal).

(** ** Every substitution of the formatter is well formed *)

Lemma convert_unfolded (t : text) :
  convert_markdown_to_html is_decimal t
  = Ok (sub_scan (bullet_pattern) bullet_template 0 None
       (sub_scan (numbered_pattern is_decimal) numbered_template 0 None
       (replace_char LF (str "<br>")
       (sub_scan code_pattern code_template 0 None
       (sub_scan italic_pattern [TLit (str "<i>"); TRef 1; TLit (str "</i>")] 0 None
       (sub_scan bold_pattern [TLit (str "<b>"); TRef 1; TLit (str "</b>")] 0 None
       (sub_scan (header_pattern "# ")
                 (header_template "h1" "20px" "20px 0 12px 0") 0 None
       (sub_scan (header_pattern "## ")
                 (header_template "h2" "18px" "16px 0 10px 0") 0 None
       (sub_scan (header_pattern "### ")
                 (header_template "h3" "16px" "12px 0 8px 0") 0 None
                 t))))))))).
Proof.
  unfold convert_markdown_to_html.
  repeat (rewrite sub_ok by reflexivity; cbn [bind]).
  reflexivity.
Qed.

(** ** Spans *)

Lemma span_never_matches (x : char) (pat : pattern) :
  span_marker x = true ->
  forall s prev, no_span_marker s -> never_matches (Plain (Chr x) :: pat) prev s.
Proof.
  intro Hx.
  apply (never_matches_by (Plain (Chr x) :: pat) (fun _ s => no_span_marker s)).
  - intros prev s Hs. apply match_at_none. intro k.
    apply chr_first_no_match. destruct s as [|c s]; [exact I|].
    inversion Hs; subst. congruence.
  - intros prev c s Hs. inversion Hs; assumption.
Qed.

(** ** Headers *)

Lemma header_never_matches (m : string) :
  Forall (fun c => c <> LF) (str m) ->
  (forall l, header_marker l = false -> startswith (str m) l = false) ->
  forall s prev, plain_ahead prev s -> never_matches (header_pattern m) prev s.
Proof.
  intros Hm Hmarker.
  apply (never_matches_by (header_pattern m) plain_ahead).
  - intros prev s Hs. unfold header_pattern.
    apply bol_chars_no_match. intro Hstart.
    rewrite (startswith_first_line (str m) Hm). apply Hmarker.
    pose proof (lines_ahead_first _ prev s Hs Hstart) as Hl.
    unfold plain_line in Hl.
    destruct (header_marker (first_line s)); [discriminate Hl | reflexivity].
  - intros prev c s. apply lines_ahead_next.
Qed.

Lemma header_marker_cases (l : text) :
  header_marker l = false ->
  startswith (str "# ") l = false /\ startswith (str "## ") l = false
  /\ startswith (str "### ") l = false.
Proof.
  unfold header_marker. intro H.
  apply orb_false_elim in H. destruct H as [H H3].
  apply orb_false_elim in H. destruct H as [H1 H2]. auto.
Qed.

(** ** Numbered and bullet entries, once no line feed is left *)

Lemma bol_never_matches_inside (pat : pattern) :
  forall s prev, inside_line prev s -> never_matches (Plain Bol :: pat) prev s.
Proof.
  apply (never_matches_by (Plain Bol :: pat) inside_line).
  - intros prev s [Hp _]. apply match_at_none. intro k.
    rewrite bol_first, Hp. reflexivity.
  - intros prev c s [_ Hs]. inversion Hs as [|? ? Hc Hs']; subst.
    split; [|exact Hs']. simpl. apply N.eqb_neq, Hc.
Qed.

(** With no line feed in the text, a pattern anchored at the start of a line
    can match at the very start only. *)
Lemma bol_never_matches (pat : pattern) (s : text) :
  Forall (fun c => c <> LF) s ->
  match_at (Plain Bol :: pat) false None s = None ->
  never_matches (Plain Bol :: pat) None s.
Proof.
  intros Hs H0. destruct s as [|c s]; simpl; (split; [exact H0|]); [exact I|].
  inversion Hs as [|? ? Hc Hs']; subst.
  apply bol_never_matches_inside. split; [|exact Hs'].
  simpl. apply N.eqb_neq, Hc.
Qed.

Lemma digits_then_dot_intro (pre : text) (c : char) (u : text) :
  forallb is_decimal pre = true -> isspace c = true ->
  digits_then_dot is_decimal (pre ++ 46%N :: c :: u) = true.
Proof.
  intros Hpre Hc. induction pre as [|y pre IH]; simpl.
  - rewrite Hc. reflexivity.
  - simpl in Hpre. apply andb_prop in Hpre. destruct Hpre as [Hy Hpre].
    rewrite Hy, (IH Hpre). apply orb_true_r.
Qed.

Lemma nonempty_prefix (p : char -> bool) (pre post : text) :
  (1 <= List.length pre)%nat -> forallb p pre = true ->
  exists c u, pre ++ post = c :: u /\ p c = true.
Proof.
  destruct pre as [|c pre]; simpl; intros Hl Hp; [lia|].
  apply andb_prop in Hp. destruct Hp as [Hc _].
  exists c, (pre ++ post). auto.
Qed.

Lemma numbered_match_marker (k : list text -> cont answer) (rest : text)
      (r : answer) :
  match_items (numbered_pattern is_decimal) [] k None rest = Some r ->
  list_marker is_decimal rest = true.
Proof.
  unfold numbered_pattern. cbn [match_items match_atoms match_atom]. intro H.
  apply rep_greedy_some in H.
  destruct H as [pre [post [prev' [-> [Hpre [Hlen Hk]]]]]].
  destruct post as [|d post]; [discriminate Hk|].
  destruct (N.eqb_spec d 46) as [->|]; [|discriminate Hk].
  apply rep_greedy_some in Hk.
  destruct Hk as [pre2 [post2 [prev2 [-> [Hpre2 [Hlen2 _]]]]]].
  destruct (nonempty_prefix isspace pre2 post2 Hlen2 Hpre2) as [c [u [-> Hc]]].
  destruct pre as [|x pre]; [simpl in Hlen; lia|].
  simpl in Hpre. apply andb_prop in Hpre. destruct Hpre as [Hx Hpre].
  simpl. rewrite Hx. simpl. apply digits_then_dot_intro; assumption.
Qed.

Lemma bullet_match_marker (k : list text -> cont answer) (rest : text)
      (r : answer) :
  match_items bullet_pattern [] k None rest = Some r ->
  bullet_marker rest = true.
Proof.
  unfold bullet_pattern. cbn [match_items match_atoms match_atom]. intro H.
  destruct rest as [|x rest]; [discriminate H|].
  destruct (is_bullet x) eqn:Hx; [|discriminate H].
  apply rep_greedy_some in H.
  destruct H as [pre [post [prev' [-> [Hpre [Hlen _]]]]]].
  destruct (nonempty_prefix isspace pre post Hlen Hpre) as [c [u [-> Hc]]].
  simpl. rewrite Hx, Hc. reflexivity.
Qed.

(** The markers of the replaced text are those of the first line. *)

Lemma digits_then_dot_first_line (l tail : text) :
  is_decimal 60 = false -> harmless_tail tail ->
  digits_then_dot is_decimal (l ++ tail) = true ->
  digits_then_dot is_decimal l = true.
Proof.
  intros H60 Htail. induction l as [|y l IH]; simpl.
  - destruct tail as [|c tail]; [auto|]. simpl in Htail. subst c.
    simpl. rewrite H60. simpl. congruence.
  - intro H. apply orb_prop in H. destruct H as [H|H].
    + apply andb_prop in H. destruct H as [Hy Hsp]. rewrite Hy. simpl.
      destruct l as [|c l]; simpl in *.
      * destruct tail as [|c tail]; [discriminate Hsp|].
        simpl in Htail. subst c. discriminate Hsp.
      * rewrite Hsp. reflexivity.
    + apply andb_prop in H. destruct H as [Hy Hl].
      rewrite Hy, (IH Hl). apply orb_true_r.
Qed.

Lemma list_marker_first_line (l tail : text) :
  is_decimal 60 = false -> harmless_tail tail ->
  list_marker is_decimal (l ++ tail) = true ->
  list_marker is_decimal l = true.
Proof.
  intros H60 Htail. destruct l as [|x l]; simpl.
  - destruct tail as [|c tail]; [auto|]. simpl in Htail. subst c.
    simpl. rewrite H60. auto.
  - intro H. apply andb_prop in H. destruct H as [Hx Hl].
    rewrite Hx. simpl.
    apply (digits_then_dot_first_line l tail H60 Htail Hl).
Qed.

Lemma bullet_marker_first_line (l tail : text) :
  harmless_tail tail ->
  bullet_marker (l ++ tail) = true -> bullet_marker l = true.
Proof.
  intro Htail. destruct l as [|x [|c l]]; simpl.
  - destruct tail as [|c [|d tail]]; simpl in *; try discriminate.
    subst c. discriminate.
  - destruct tail as [|c tail]; simpl in *; [discriminate|].
    subst c. rewrite andb_false_r. discriminate.
  - auto.
Qed.

End FormatterFacts.

(** C7.  The formatter returns for every text (no substitution of it can
    raise), and on a text without markup tokens (no asterisk or backquote;
    no line that opens with a header marker, with a number, a full stop and
    a white space, or with a bullet character and a white space) it returns
    the text with each line feed replaced by [<br>] and nothing else
    changed.  The decimal-digit table of the interpreter is a parameter; as
    in every version of Unicode, it is taken not to hold [<]. *)
Theorem render_total_and_plain :
  forall (is_decimal : char -> bool) (t : text),
    (exists out, Formatter.convert_markdown_to_html is_decimal t = Ok out)
    /\ (is_decimal 60%N = false ->
        Formatter.plain is_decimal t = true ->
        Formatter.convert_markdown_to_html is_decimal t
        = Ok (replace_char LF (str "<br>") t)).
Proof.
  intros is_decimal t. rewrite convert_unfolded.
  split; [eexists; reflexivity|].
  intros H60 Hplain. unfold Formatter.plain in Hplain.
  apply andb_prop in Hplain. destruct Hplain as [Hspan Hlines].
  assert (Hno : no_span_marker t).
  { unfold no_span_marker. rewrite Forall_forall. intros c Hc.
    rewrite forallb_forall in Hspan. specialize (Hspan c Hc).
    destruct (Formatter.span_marker c); [discriminate Hspan | reflexivity]. }
  assert (Hahead : plain_ahead is_decimal None t) by exact Hlines.
  assert (Hfirst : Formatter.plain_line is_decimal (first_line t) = true).
  { rewrite split_hd_tl in Hlines. simpl in Hlines.
    apply andb_prop in Hlines. tauto. }
  rewrite (sub_scan_unchanged (Formatter.header_pattern "### ") _ t None).
  2:{ apply (header_never_matches is_decimal "### ");
        [repeat constructor; discriminate | | exact Hahead].
      intros l Hl. apply header_marker_cases in Hl. tauto. }
  rewrite (sub_scan_unchanged (Formatter.header_pattern "## ") _ t None).
  2:{ apply (header_never_matches is_decimal "## ");
        [repeat constructor; discriminate | | exact Hahead].
      intros l Hl. apply header_marker_cases in Hl. tauto. }
  rewrite (sub_scan_unchanged (Formatter.header_pattern "# ") _ t None).
  2:{ apply (header_never_matches is_decimal "# ");
        [repeat constructor; discriminate | | exact Hahead].
      intros l Hl. apply header_marker_cases in Hl. tauto. }
  rewrite (sub_scan_unchanged Formatter.bold_pattern _ t None).
  2:{ exact (span_never_matches 42%N _ eq_refl t None Hno). }
  rewrite (sub_scan_unchanged Formatter.italic_pattern _ t None).
  2:{ exact (span_never_matches 42%N _ eq_refl t None Hno). }
  rewrite (sub_scan_unchanged Formatter.code_pattern _ t None).
  2:{ exact (span_never_matches 96%N _ eq_refl t None Hno). }
  fold br.
  destruct (replace_first_line t) as [tail [Hrep Htail]].
  assert (Hlist : Formatter.list_marker is_decimal (replace_char LF br t) = false).
  { destruct (Formatter.list_marker is_decimal (replace_char LF br t)) eqn:E;
      [|reflexivity].
    rewrite Hrep in E.
    apply (list_marker_first_line is_decimal _ _ H60 Htail) in E.
    unfold Formatter.plain_line in Hfirst. rewrite E in Hfirst.
    rewrite andb_false_r in Hfirst. discriminate Hfirst. }
  assert (Hbullet : Formatter.bullet_marker (replace_char LF br t) = false).
  { destruct (Formatter.bullet_marker (replace_char LF br t)) eqn:E;
      [|reflexivity].
    rewrite Hrep in E.
    apply (bullet_marker_first_line _ _ Htail) in E.
    unfold Formatter.plain_line in Hfirst. rewrite E in Hfirst.
    rewrite andb_false_r in Hfirst. discriminate Hfirst. }
  rewrite (sub_scan_unchanged (Formatter.numbered_pattern is_decimal) _
             (replace_char LF br t) None).
  2:{ apply bol_never_matches; [apply replace_no_lf|].
      unfold Re.match_at.
      match goal with
      | |- context [Re.match_items ?p ?c ?k ?pr ?s] =>
          destruct (Re.match_items p c k pr s) as [r|] eqn:E; [|reflexivity]
      end.
      apply numbered_match_marker in E. congruence. }
  rewrite (sub_scan_unchanged Formatter.bullet_pattern _
             (replace_char LF br t) None).
  2:{ apply bol_never_matches; [apply replace_no_lf|].
      unfold Re.match_at.
      match goal with
      | |- context [Re.match_items ?p ?c ?k ?pr ?s] =>
          destruct (Re.match_items p c k pr s) as [r|] eqn:E; [|reflexivity]
      end.
      apply bullet_match_marker in E. congruence. }
  reflexivity.
Qed.

Lemma render_total_and_plain_witness :
  Formatter.convert_markdown_to_html Parser.ascii_digit
    (Parser.unlines ["2 + 2 = 4, see #7"; "so it is - 1.5 times."]%string)
  = Ok (replace_char LF (str "<br>")
          (Parser.unlines ["2 + 2 = 4, see #7"; "so it is - 1.5 times."]%string)).
Proof.
  apply (proj2 (render_total_and_plain Parser.ascii_digit
                  (Parser.unlines ["2 + 2 = 4, see #7"; "so it is - 1.5 times."]%string)));
    reflexivity.
Defined.

(* ================================================================== *)
(** * More on strings: stripping, splitting, joining *)
(* ================================================================== *)

Section StripFacts.

Lemma text_eqb_eq (a b : text) : text_eqb a b = true <-> a = b.
Proof.
  revert b. induction a as [|x a IH]; intros [|y b]; simpl; split; intro H;
    try reflexivity; try discriminate.
  - apply andb_prop in H. destruct H as [Hx Hab].
    apply N.eqb_eq in Hx. apply IH in Hab. congruence.
  - injection H as -> ->. rewrite N.eqb_refl. simpl. apply IH. reflexivity.
Qed.

Lemma rstrip_idem (s : text) : rstrip (rstrip s) = rstrip s.
Proof.
  induction s as [|c s IH]; [reflexivity|].
  simpl. destruct (rstrip s) as [|y r] eqn:E.
  - destruct (isspace c) eqn:Hc; [reflexivity|].
    simpl. rewrite Hc. reflexivity.
  - change (rstrip (c :: y :: r))
      with (match rstrip (y :: r) with
            | [] => if isspace c then [] else [c]
            | r' => c :: r'
            end).
    rewrite IH. reflexivity.
Qed.

Lemma lstrip_solid_head (c : char) (s : text) :
  isspace c = false -> lstrip (c :: s) = c :: s.
Proof. intro H. simpl. rewrite H. reflexivity. Qed.

Lemma strip_idem (s : text) : strip (strip s) = strip s.
Proof.
  pose proof (strip_head s) as H. unfold strip at 1.
  destruct (strip s) as [|c r] eqn:E; [reflexivity|].
  rewrite (lstrip_solid_head c r H). rewrite <- E.
  unfold strip. apply rstrip_idem.
Qed.

(** A text that stripping leaves alone is left alone by both halves. *)
Lemma fixed_lstrip (s : text) : strip s = s -> lstrip s = s.
Proof.
  intro H. pose proof (strip_head s) as Hh. rewrite H in Hh.
  destruct s as [|c s]; [reflexivity|]. apply lstrip_solid_head, Hh.
Qed.

Lemma fixed_rstrip (s : text) : strip s = s -> rstrip s = s.
Proof.
  intro H. rewrite <- H at 1. unfold strip. rewrite rstrip_idem. exact H.
Qed.

Lemma rstrip_app (p s : text) :
  rstrip s <> [] -> rstrip (p ++ s) = p ++ rstrip s.
Proof.
  intro H. induction p as [|c p IH]; [reflexivity|].
  simpl. rewrite IH. destruct (p ++ rstrip s) eqn:E; [|reflexivity].
  apply app_eq_nil in E. destruct E as [_ E]. contradiction.
Qed.

(** A solid prefix before a fixed, non-empty text: nothing is stripped. *)
Lemma strip_prefixed (c : char) (p s : text) :
  isspace c = false -> s <> [] -> strip s = s ->
  strip (c :: p ++ s) = c :: p ++ s.
Proof.
  intros Hc Hne Hs. unfold strip. rewrite (lstrip_solid_head c _ Hc).
  change (c :: p ++ s) with ((c :: p) ++ s).
  rewrite rstrip_app; rewrite (fixed_rstrip s Hs); [reflexivity | exact Hne].
Qed.

(** A white space before a fixed text goes away. *)
Lemma strip_after_space (c : char) (s : text) :
  isspace c = true -> strip s = s -> strip (c :: s) = s.
Proof.
  intros Hc Hs. unfold strip. simpl. rewrite Hc. exact Hs.
Qed.

Lemma split_one_line (l : text) :
  Forall (fun c => c <> LF) l -> split LF l = [l].
Proof.
  induction 1 as [|c l Hc Hl IH]; [reflexivity|].
  simpl. destruct (N.eqb_spec c LF); [contradiction|].
  rewrite IH. reflexivity.
Qed.

Lemma split_app_lf (l rest : text) :
  Forall (fun c => c <> LF) l ->
  split LF (l ++ LF :: rest) = l :: split LF rest.
Proof.
  induction 1 as [|c l Hc Hl IH]; [reflexivity|].
  simpl. destruct (N.eqb_spec c LF); [contradiction|].
  rewrite IH. reflexivity.
Qed.

Lemma split_join (ls : list text) :
  ls <> [] -> Forall (Forall (fun c => c <> LF)) ls ->
  split LF (Rendering.join_lines ls) = ls.
Proof.
  induction ls as [|l ls IH]; intros Hne Hall; [contradiction|].
  inversion Hall as [|? ? Hl Hls]; subst.
  destruct ls as [|l' ls].
  - simpl. apply split_one_line, Hl.
  - change (Rendering.join_lines (l :: l' :: ls))
      with (l ++ LF :: Rendering.join_lines (l' :: ls)).
    rewrite (split_app_lf l _ Hl), IH; [reflexivity | discriminate | exact Hls].
Qed.

(** What [clean] says. *)
Lemma clean_spec (s : text) :
  Rendering.clean s = true ->
  s <> [] /\ strip s = s /\ Forall (fun c => c <> LF) s.
Proof.
  unfold Rendering.clean. intro H.
  apply andb_prop in H. destruct H as [H Hlf].
  apply andb_prop in H. destruct H as [Ht He].
  split; [apply truthy_true, Ht|]. split; [apply text_eqb_eq, He|].
  rewrite Forall_forall. intros c Hc.
  rewrite forallb_forall in Hlf. specialize (Hlf c Hc).
  destruct (N.eqb_spec c LF); [discriminate Hlf | assumption].
Qed.

End StripFacts.

(* ================================================================== *)
(** * The parser on cards written as the prompt asks *)
(* ================================================================== *)

Section RoundTripFacts.

Import Parser Rendering.

Lemma front_line_read (st : basic_state) (f : text) :
  clean f = true ->
  basic_line st (str "Front: " ++ f) = mkBasic (emit_pending st) f [] true false.
Proof.
  intro Hf. destruct (clean_spec f Hf) as [Hne [Hs _]].
  assert (E : strip (str "Front: " ++ f) = str "Front: " ++ f)
    by exact (strip_prefixed 70%N (str "ront: ") f eq_refl Hne Hs).
  assert (E' : strip (slice_from 6 (str "Front: " ++ f)) = f)
    by exact (strip_after_space 32%N f eq_refl Hs).
  unfold basic_line. rewrite E, E'. reflexivity.
Qed.

Lemma back_line_read (st : basic_state) (b : text) :
  clean b = true ->
  basic_line st (str "Back: " ++ b)
  = mkBasic (flashcards st) (current_front st) b false true.
Proof.
  intro Hb. destruct (clean_spec b Hb) as [Hne [Hs _]].
  assert (E : strip (str "Back: " ++ b) = str "Back: " ++ b)
    by exact (strip_prefixed 66%N (str "ack: ") b eq_refl Hne Hs).
  assert (E' : strip (slice_from 5 (str "Back: " ++ b)) = b)
    by exact (strip_after_space 32%N b eq_refl Hs).
  unfold basic_line. rewrite E, E'. reflexivity.
Qed.

(** After the two lines of a card, and after the empty line if there is
    one, the card is the pending record or the last emitted one. *)
Lemma basic_card_read (gap : bool) (st : basic_state) (f b : text) :
  clean f = true -> clean b = true ->
  emit_pending
    (fold_left basic_line
       ((str "Front: " ++ f) :: (str "Back: " ++ b) :: (if gap then [[]] else []))
       st)
  = emit_pending st ++ [BasicCard f b].
Proof.
  intros Hf Hb.
  destruct (clean_spec f Hf) as [Hfne [Hfs _]].
  destruct (clean_spec b Hb) as [Hbne [Hbs _]].
  apply truthy_true in Hfne. apply truthy_true in Hbne.
  cbn [fold_left]. rewrite (front_line_read st f Hf), (back_line_read _ b Hb).
  cbn [flashcards current_front].
  destruct gap; cbn [fold_left app].
  - unfold basic_line. cbn -[strip]. rewrite Hfne, Hbne. cbn -[strip].
    unfold emit_pending. cbn -[strip]. rewrite Hfne, Hbne. cbn -[strip].
    rewrite Hfs, Hbs. reflexivity.
  - unfold emit_pending at 1. cbn -[strip emit_pending].
    rewrite Hfne, Hbne. cbn -[strip emit_pending]. rewrite Hfs, Hbs. reflexivity.
Qed.

Lemma basic_lines_read (gap : bool) (cards : list (text * text)) :
  Forall (fun c => clean (fst c) = true /\ clean (snd c) = true) cards ->
  forall st,
    emit_pending (fold_left basic_line (basic_lines gap cards) st)
    = emit_pending st ++ List.map (fun c => BasicCard (fst c) (snd c)) cards.
Proof.
  induction 1 as [|[f b] cards [Hf Hb] Hcards IH]; intro st.
  - simpl. rewrite app_nil_r. reflexivity.
  - cbn [basic_lines]. simpl fst in *. simpl snd in *.
    change ((str "Front: " ++ f) :: (str "Back: " ++ b)
            :: (if gap then [[]] else []) ++ basic_lines gap cards)
      with (((str "Front: " ++ f) :: (str "Back: " ++ b)
             :: (if gap then [[]] else [])) ++ basic_lines gap cards).
    rewrite fold_left_app, IH.
    transitivity ((emit_pending st ++ [BasicCard f b])
                  ++ List.map (fun c => BasicCard (fst c) (snd c)) cards).
    + f_equal. exact (basic_card_read gap st f b Hf Hb).
    + rewrite <- app_assoc. reflexivity.
Qed.

Lemma basic_lines_no_lf (gap : bool) (cards : list (text * text)) :
  Forall (fun c => clean (fst c) = true /\ clean (snd c) = true) cards ->
  Forall (Forall (fun c => c <> LF)) (basic_lines gap cards).
Proof.
  induction 1 as [|[f b] cards [Hf Hb] Hcards IH]; [constructor|].
  simpl in Hf, Hb.
  destruct (clean_spec f Hf) as [_ [_ Hfl]].
  destruct (clean_spec b Hb) as [_ [_ Hbl]].
  cbn [basic_lines].
  constructor.
  { apply Forall_app. split; [repeat constructor; discriminate | exact Hfl]. }
  constructor.
  { apply Forall_app. split; [repeat constructor; discriminate | exact Hbl]. }
  apply Forall_app. split; [destruct gap; repeat constructor | exact IH].
Qed.

(** ** Cloze *)

Lemma cloze_card_read (gap : bool) (st : cloze_state) (c : text) :
  clean c = true -> contains (str "{{c") c = true ->
  cloze_finish (fold_left cloze_line (c :: (if gap then [[]] else [])) st)
  = cloze_finish st ++ [ClozeCard c].
Proof.
  intros Hc Hop. destruct (clean_spec c Hc) as [Hne [Hs _]].
  apply truthy_true in Hne.
  assert (Hline : cloze_line st c
                  = mkCloze (cloze_finish st) c).
  { unfold cloze_line. rewrite Hs, Hne, Hop. reflexivity. }
  cbn [fold_left]. rewrite Hline. destruct gap; cbn [fold_left].
  - unfold cloze_line. cbn -[strip]. rewrite Hne. cbn -[strip].
    unfold cloze_finish at 1. cbn -[strip cloze_finish]. rewrite Hs. reflexivity.
  - unfold cloze_finish at 1. cbn -[strip cloze_finish]. rewrite Hne, Hs.
    reflexivity.
Qed.

Lemma cloze_lines_read (gap : bool) (cards : list text) :
  Forall (fun c => clean c = true /\ contains (str "{{c") c = true) cards ->
  forall st,
    cloze_finish (fold_left cloze_line (cloze_lines gap cards) st)
    = cloze_finish st ++ List.map ClozeCard cards.
Proof.
  induction 1 as [|c cards [Hc Hop] Hcards IH]; intro st.
  - simpl. rewrite app_nil_r. reflexivity.
  - cbn [cloze_lines].
    change (c :: (if gap then [[]] else []) ++ cloze_lines gap cards)
      with ((c :: (if gap then [[]] else [])) ++ cloze_lines gap cards).
    rewrite fold_left_app, IH.
    transitivity ((cloze_finish st ++ [ClozeCard c]) ++ List.map ClozeCard cards).
    + f_equal. exact (cloze_card_read gap st c Hc Hop).
    + rewrite <- app_assoc. reflexivity.
Qed.

Lemma cloze_lines_no_lf (gap : bool) (cards : list text) :
  Forall (fun c => clean c = true /\ contains (str "{{c") c = true) cards ->
  Forall (Forall (fun c => c <> LF)) (cloze_lines gap cards).
Proof.
  induction 1 as [|c cards [Hc _] Hcards IH]; [constructor|].
  destruct (clean_spec c Hc) as [_ [_ Hl]].
  cbn [cloze_lines]. constructor; [exact Hl|].
  apply Forall_app. split; [destruct gap; repeat constructor | exact IH].
Qed.

End RoundTripFacts.

(** X1.  Basic cards written as the generation prompt asks, a [Front:] line
    and a [Back:] line each, with or without an empty line after each card,
    are parsed back exactly, in order, whenever front and back are
    non-empty, one line long and without white space around them. *)
Theorem parse_basic_reads_rendered_cards :
  forall (gap : bool) (cards : list (text * text)),
    Forall (fun c => Rendering.clean (fst c) = true
                     /\ Rendering.clean (snd c) = true) cards ->
    Parser.parse_flashcards basic
      (Rendering.join_lines (Rendering.basic_lines gap cards))
    = List.map (fun c => BasicCard (fst c) (snd c)) cards.
Proof.
  intros gap cards H. destruct cards as [|c cards]; [reflexivity|].
  unfold Parser.parse_flashcards, Parser.parse_basic.
  rewrite split_join.
  - rewrite (basic_lines_read gap (c :: cards) H). reflexivity.
  - destruct c. discriminate.
  - apply basic_lines_no_lf, H.
Qed.

Lemma parse_basic_reads_rendered_cards_witness :
  Parser.parse_flashcards basic
    (Rendering.join_lines
       (Rendering.basic_lines false
          [(str "What is 2+2?", str "4"); (str "Capital of France", str "Paris")]))
  = [BasicCard (str "What is 2+2?") (str "4");
     BasicCard (str "Capital of France") (str "Paris")].
Proof.
  apply (parse_basic_reads_rendered_cards false
           [(str "What is 2+2?", str "4"); (str "Capital of France", str "Paris")]).
  repeat constructor.
Defined.

(** X2.  One-line cloze statements, each holding [{{c] and without white
    space around it, one per line with or without an empty line between
    them, are parsed back exactly, one record per statement, in order. *)
Theorem parse_cloze_reads_rendered_cards :
  forall (gap : bool) (cards : list text),
    Forall (fun c => Rendering.clean c = true
                     /\ contains (str "{{c") c = true) cards ->
    Parser.parse_flashcards cloze
      (Rendering.join_lines (Rendering.cloze_lines gap cards))
    = List.map ClozeCard cards.
Proof.
  intros gap cards H. destruct cards as [|c cards]; [reflexivity|].
  unfold Parser.parse_flashcards, Parser.parse_cloze.
  rewrite split_join.
  - rewrite (cloze_lines_read gap (c :: cards) H). reflexivity.
  - discriminate.
  - apply cloze_lines_no_lf, H.
Qed.

Lemma parse_cloze_reads_rendered_cards_witness :
  Parser.parse_flashcards cloze
    (Rendering.join_lines
       (Rendering.cloze_lines true
          [str "{{c1::Paris}} is the capital of {{c2::France}}.";
           str "Water boils at {{c1::100}} degrees."]))
  = [ClozeCard (str "{{c1::Paris}} is the capital of {{c2::France}}.");
     ClozeCard (str "Water boils at {{c1::100}} degrees.")].
Proof.
  apply (parse_cloze_reads_rendered_cards true
           [str "{{c1::Paris}} is the capital of {{c2::France}}.";
            str "Water boils at {{c1::100}} degrees."]).
  repeat constructor.
Defined.

(* ================================================================== *)
(** * What every parse has in common *)
(* ================================================================== *)

(** Linear arithmetic over the counters, with the zero-or-one terms taken
    as unknowns. *)
Ltac count :=
  repeat match goal with
         | |- context [LoopNotions.one_if ?b] =>
             let n := fresh "n" in set (n := LoopNotions.one_if b) in *; clearbody n
         | H : context [LoopNotions.one_if ?b] |- _ =>
             let n := fresh "n" in set (n := LoopNotions.one_if b) in *; clearbody n
         end;
  lia.

Section ParseBounds.

Import Parser Rendering LoopNotions.

Lemma emit_pending_length (st : basic_state) :
  (List.length (emit_pending st)
   <= List.length (flashcards st) + one_if (truthy (current_front st)))%nat.
Proof.
  unfold emit_pending.
  destruct (truthy (current_front st)); simpl; [|count].
  destruct (truthy (current_back st)); simpl;
    [rewrite length_app; simpl; count | count].
Qed.

Lemma one_if_or (a b : bool) : (one_if b <= one_if (a || b))%nat.
Proof. destruct a, b; simpl; count. Qed.

Lemma basic_line_load (st : basic_state) (raw : text) :
  (basic_load (basic_line st raw)
   <= basic_load st + one_if (opens_basic raw))%nat.
Proof.
  unfold basic_load, opens_basic, basic_line.
  pose proof (emit_pending_length st) as He.
  pose proof (one_if_or (in_front st) (truthy (current_front st))) as Ho.
  destruct (lower_startswith (str "front:") (strip raw));
    [cbn [flashcards current_front in_front orb one_if]; count|].
  destruct (lower_startswith (str "back:") (strip raw));
    [cbn [flashcards current_front in_front orb one_if]; count|].
  destruct (truthy (strip raw) && in_front st) eqn:E1.
  { apply andb_prop in E1. destruct E1 as [_ E1].
    cbn [flashcards current_front in_front]. rewrite E1.
    cbn [orb one_if]. count. }
  destruct (truthy (strip raw) && in_back st) eqn:E2;
    [cbn [flashcards current_front in_front orb one_if]; count|].
  destruct (negb (truthy (strip raw)) && truthy (current_front st)
            && truthy (current_back st)) eqn:E3;
    [|cbn [one_if]; count].
  apply andb_prop in E3. destruct E3 as [E3 _].
  apply andb_prop in E3. destruct E3 as [_ E3].
  cbn [flashcards current_front in_front truthy orb one_if].
  rewrite E3 in *. rewrite orb_true_r. cbn [one_if] in *. lia.
Qed.

Lemma fold_basic_load (ls : list text) :
  forall st,
    (basic_load (fold_left basic_line ls st)
     <= basic_load st + List.length (filter opens_basic ls))%nat.
Proof.
  induction ls as [|l ls IH]; intro st; simpl; [count|].
  specialize (IH (basic_line st l)).
  pose proof (basic_line_load st l) as Hl.
  destruct (opens_basic l); simpl in *; count.
Qed.

Lemma cloze_line_load (st : cloze_state) (raw : text) :
  (cloze_load (cloze_line st raw)
   <= cloze_load st + one_if (opens_cloze raw))%nat.
Proof.
  unfold cloze_load, opens_cloze, cloze_line.
  destruct (truthy (strip raw) && contains (str "{{c") (strip raw)) eqn:E1.
  { apply andb_prop in E1. destruct E1 as [E1 _].
    cbn [cz_flashcards cz_current_card]. rewrite E1.
    destruct (truthy (cz_current_card st)); cbn [one_if];
      [rewrite length_app; simpl; lia | lia]. }
  destruct (truthy (strip raw) && truthy (cz_current_card st)) eqn:E2.
  { apply andb_prop in E2. destruct E2 as [_ E2].
    cbn [cz_flashcards cz_current_card]. rewrite E2.
    destruct (cz_current_card st); [discriminate E2 | simpl; lia]. }
  destruct (negb (truthy (strip raw)) && truthy (cz_current_card st)) eqn:E3;
    [|cbn [one_if]; lia].
  apply andb_prop in E3. destruct E3 as [_ E3].
  cbn [cz_flashcards cz_current_card truthy one_if]. rewrite E3.
  rewrite length_app. simpl. lia.
Qed.

Lemma fold_cloze_load (ls : list text) :
  forall st,
    (cloze_load (fold_left cloze_line ls st)
     <= cloze_load st + List.length (filter opens_cloze ls))%nat.
Proof.
  induction ls as [|l ls IH]; intro st; simpl; [count|].
  specialize (IH (cloze_line st l)).
  pose proof (cloze_line_load st l) as Hl.
  destruct (opens_cloze l); simpl in *; count.
Qed.

(** ** Stripped fields *)

Lemma emit_pending_stripped (st : basic_state) :
  Forall stripped_pair (flashcards st) -> Forall stripped_pair (emit_pending st).
Proof.
  intro H. unfold emit_pending.
  destruct (truthy (current_front st) && truthy (current_back st)); [|exact H].
  apply Forall_app. split; [exact H|].
  constructor; [|constructor]. eexists. eexists. reflexivity.
Qed.

Lemma basic_line_stripped (st : basic_state) (raw : text) :
  Forall stripped_pair (flashcards st) ->
  Forall stripped_pair (flashcards (basic_line st raw)).
Proof.
  intro H. unfold basic_line.
  repeat match goal with
         | |- context [if ?b then _ else _] => destruct b
         end; simpl; auto using emit_pending_stripped.
Qed.

Lemma fold_basic_stripped (ls : list text) :
  forall st, Forall stripped_pair (flashcards st) ->
             Forall stripped_pair (flashcards (fold_left basic_line ls st)).
Proof.
  induction ls as [|l ls IH]; intros st H; simpl; [exact H|].
  apply IH, basic_line_stripped, H.
Qed.

Lemma closed_card_stripped (st : cloze_state) :
  Forall stripped_content (cz_flashcards st) ->
  Forall stripped_content
         (cz_flashcards st ++ [ClozeCard (strip (cz_current_card st))]).
Proof.
  intro H. apply Forall_app. split; [exact H|].
  constructor; [|constructor]. eexists. reflexivity.
Qed.

Lemma cloze_line_stripped (st : cloze_state) (raw : text) :
  Forall stripped_content (cz_flashcards st) ->
  Forall stripped_content (cz_flashcards (cloze_line st raw)).
Proof.
  intro H. unfold cloze_line.
  repeat match goal with
         | |- context [if ?b then _ else _] => destruct b
         end; simpl; auto using closed_card_stripped.
Qed.

Lemma fold_cloze_stripped (ls : list text) :
  forall st, Forall stripped_content (cz_flashcards st) ->
             Forall stripped_content (cz_flashcards (fold_left cloze_line ls st)).
Proof.
  induction ls as [|l ls IH]; intros st H; simpl; [exact H|].
  apply IH, cloze_line_stripped, H.
Qed.

End ParseBounds.

(** X3.  A parse never returns more records than the text has opening
    lines: lines that start with [front:] in any letter case (basic) or
    that hold [{{c] (cloze), once stripped.  A text without such a line
    gives no record. *)
Theorem records_bounded_by_opening_lines :
  forall (fmt : card_format) (t : text),
    (List.length (Parser.parse_flashcards fmt t)
     <= List.length
          (filter (match fmt with
                   | basic => Rendering.opens_basic
                   | cloze => Rendering.opens_cloze
                   end) (split LF t)))%nat.
Proof.
  intros [|] t; simpl.
  - unfold Parser.parse_basic.
    pose proof (fold_basic_load (split LF t)
                  (Parser.mkBasic [] [] [] false false)) as H.
    pose proof (emit_pending_length
                  (fold_left Parser.basic_line (split LF t)
                             (Parser.mkBasic [] [] [] false false))) as He.
    pose proof (one_if_or
                  (Parser.in_front
                     (fold_left Parser.basic_line (split LF t)
                                (Parser.mkBasic [] [] [] false false)))
                  (truthy (Parser.current_front
                     (fold_left Parser.basic_line (split LF t)
                                (Parser.mkBasic [] [] [] false false))))) as Ho.
    unfold LoopNotions.basic_load in H. simpl in H. count.
  - unfold Parser.parse_cloze, Parser.cloze_finish.
    pose proof (fold_cloze_load (split LF t) (Parser.mkCloze [] [])) as H.
    unfold LoopNotions.cloze_load in H. simpl in H.
    destruct (truthy (Parser.cz_current_card _)); simpl in H;
      [rewrite length_app; simpl; count | count].
Qed.

(** X4.  Every field of every parsed record is stripped: stripping it again
    changes nothing; and the content of a cloze record is never empty. *)
Theorem parsed_fields_are_stripped :
  forall (fmt : card_format) (t : text) (r : flashcard),
    In r (Parser.parse_flashcards fmt t) -> Rendering.stripped_card r.
Proof.
  intros [|] t r Hin; simpl in Hin.
  - assert (H : Forall LoopNotions.stripped_pair (Parser.parse_basic t)).
    { unfold Parser.parse_basic. apply emit_pending_stripped, fold_basic_stripped.
      constructor. }
    rewrite Forall_forall in H. destruct (H r Hin) as [x [y ->]].
    simpl. split; apply strip_idem.
  - assert (H : Forall LoopNotions.stripped_content (Parser.parse_cloze t)).
    { unfold Parser.parse_cloze, Parser.cloze_finish.
      destruct (truthy (Parser.cz_current_card _)).
      - apply closed_card_stripped, fold_cloze_stripped. constructor.
      - apply fold_cloze_stripped. constructor. }
    rewrite Forall_forall in H. destruct (H r Hin) as [x Hx].
    pose proof (parse_cloze_opened t) as Ho. rewrite Forall_forall in Ho.
    destruct (Ho r Hin) as [c [Hc Hop]].
    rewrite Hx. simpl. split; [apply strip_idem|].
    rewrite Hx in Hc. injection Hc as Hc. rewrite Hc.
    intro E. rewrite E in Hop. discriminate Hop.
Qed.

Lemma parsed_fields_are_stripped_witness :
  Rendering.stripped_card (BasicCard (str "Q1") (str "A1")).
Proof.
  apply (parsed_fields_are_stripped basic
           (Parser.unlines ["  Front:   Q1  "; "Back: A1 "]%string)).
  vm_compute. left. reflexivity.
Defined.

(* ================================================================== *)
(** * Refining one card *)
(* ================================================================== *)

Section RefinementFacts.

Import Parser Commit Refinement Rendering.

Lemma single_line_unlabelled (raw : text) (f b : text) :
  unlabelled raw = true ->
  single_line (mkSingle f b false false) raw = mkSingle f b false false.
Proof.
  unfold unlabelled, single_line. intro H.
  apply andb_prop in H. destruct H as [Hf Hb].
  destruct (lower_startswith (str "front:") (strip raw)); [discriminate Hf|].
  destruct (lower_startswith (str "back:") (strip raw)); [discriminate Hb|].
  cbn [s_in_front s_in_back]. rewrite !andb_false_r. reflexivity.
Qed.

Lemma fold_single_unlabelled (ls : list text) (f b : text) :
  forallb unlabelled ls = true ->
  fold_left single_line ls (mkSingle f b false false) = mkSingle f b false false.
Proof.
  induction ls as [|l ls IH]; intro H; [reflexivity|].
  simpl in H. apply andb_prop in H. destruct H as [Hl Hls].
  cbn [fold_left]. rewrite (single_line_unlabelled l f b Hl). apply IH, Hls.
Qed.

Lemma single_front_line_read (st : single_state) (f : text) :
  clean f = true ->
  single_line st (str "Front: " ++ f) = mkSingle f (back st) true false.
Proof.
  intro Hf. destruct (clean_spec f Hf) as [Hne [Hs _]].
  assert (E : strip (str "Front: " ++ f) = str "Front: " ++ f)
    by exact (strip_prefixed 70%N (str "ront: ") f eq_refl Hne Hs).
  assert (E' : strip (slice_from 6 (str "Front: " ++ f)) = f)
    by exact (strip_after_space 32%N f eq_refl Hs).
  unfold single_line. rewrite E, E'. reflexivity.
Qed.

Lemma single_back_line_read (st : single_state) (b : text) :
  clean b = true ->
  single_line st (str "Back: " ++ b) = mkSingle (front st) b false true.
Proof.
  intro Hb. destruct (clean_spec b Hb) as [Hne [Hs _]].
  assert (E : strip (str "Back: " ++ b) = str "Back: " ++ b)
    by exact (strip_prefixed 66%N (str "ack: ") b eq_refl Hne Hs).
  assert (E' : strip (slice_from 5 (str "Back: " ++ b)) = b)
    by exact (strip_after_space 32%N b eq_refl Hs).
  unfold single_line. rewrite E, E'. reflexivity.
Qed.

(** ** Writing into the layout *)



End RefinementFacts.

(** X5.  Refining in the basic format: a reply with no line labelled
    [Front:] or [Back:] is kept whole as the front, with a placeholder as
    the back; a reply of one [Front:] line and one [Back:] line gives that
    front and that back. *)
Theorem single_card_reads_reply :
  (forall t : text,
      forallb Rendering.unlabelled (split LF t) = true ->
      Refinement.parse_single_card basic t
      = BasicCard (strip t) Refinement.please_add_back)
  /\ (forall f b : text,
         Rendering.clean f = true -> Rendering.clean b = true ->
         Refinement.parse_single_card basic
           (Rendering.join_lines [str "Front: " ++ f; str "Back: " ++ b])
         = BasicCard f b).
Proof.
  split.
  - intros t H. unfold Refinement.parse_single_card.
    rewrite (fold_single_unlabelled (split LF t) [] [] H). reflexivity.
  - intros f b Hf Hb. unfold Refinement.parse_single_card.
    destruct (clean_spec f Hf) as [Hfne [_ Hfl]].
    destruct (clean_spec b Hb) as [_ [_ Hbl]].
    rewrite split_join.
    + cbn [fold_left].
      rewrite (single_front_line_read _ f Hf), (single_back_line_read _ b Hb).
      cbn [Refinement.front Refinement.back].
      apply truthy_true in Hfne. rewrite Hfne. reflexivity.
    + discriminate.
    + constructor; [|constructor; [|constructor]].
      * apply Forall_app. split; [repeat constructor; discriminate | exact Hfl].
      * apply Forall_app. split; [repeat constructor; discriminate | exact Hbl].
Qed.

Lemma single_card_reads_reply_witness :
  Refinement.parse_single_card basic (str "Just a better question?")
  = BasicCard (strip (str "Just a better question?")) Refinement.please_add_back.
Proof.
  apply (proj1 single_card_reads_reply (str "Just a better question?")).
  reflexivity.
Defined.



(* ================================================================== *)
(** * The streaming loop, line by line *)
(* ================================================================== *)

Section StreamFacts.

Import Json Utf8 Worker StreamLines.

Lemma handle_line_not_data (acc : text) (raw : bytes) :
  is_data_line raw = false -> handle_line acc raw = Next acc [].
Proof.
  unfold is_data_line, handle_line.
  destruct (decode raw) as [decoded|e]; [|discriminate].
  intros ->. reflexivity.
Qed.

Lemma read_filter_data (lines : list bytes) (broken : option exn) (acc : text) :
  read (filter is_data_line lines) broken acc = read lines broken acc.
Proof.
  revert acc. induction lines as [|raw lines IH]; intro acc; [reflexivity|].
  cbn [filter]. destruct (is_data_line raw) eqn:E.
  - cbn [read]. destruct (handle_line acc raw) as [|acc' emitted|e];
      try reflexivity.
    rewrite IH. reflexivity.
  - cbn [read]. rewrite (handle_line_not_data acc raw E), IH.
    destruct (read lines broken acc). reflexivity.
Qed.

Lemma handle_line_sentinel (acc : text) (raw : bytes) (decoded : text) :
  decode raw = Ok decoded -> strip decoded = str "data: [DONE]" ->
  handle_line acc raw = Break.
Proof.
  intros Hd Hs. unfold handle_line. rewrite Hd, Hs. reflexivity.
Qed.

Lemma read_stops_at_break (pre post : list bytes) (raw : bytes)
      (broken : option exn) :
  (forall acc, handle_line acc raw = Break) ->
  forall acc,
    read (pre ++ raw :: post) broken acc = read (pre ++ [raw]) None acc.
Proof.
  intro Hb. induction pre as [|l pre IH]; intro acc.
  - simpl. rewrite Hb. reflexivity.
  - cbn [app read]. destruct (handle_line acc l); try reflexivity.
    rewrite IH. reflexivity.
Qed.

Lemma last_cumulative (ds : list text) :
  forall acc, ds <> [] -> last (cumulative acc ds) [] = acc ++ concat ds.
Proof.
  induction ds as [|d ds IH]; intros acc Hne; [contradiction|].
  destruct ds as [|d' ds].
  - simpl. rewrite app_nil_r. reflexivity.
  - change (cumulative acc (d :: d' :: ds))
      with ((acc ++ d) :: cumulative (acc ++ d) (d' :: ds)).
    change (concat (d :: d' :: ds)) with (d ++ concat (d' :: ds)).
    rewrite app_assoc, <- IH by discriminate.
    simpl. reflexivity.
Qed.

Lemma read_raises (lines : list bytes) (broken : option exn) (e : exn) :
  leaving_exception lines broken = Some e ->
  forall acc, snd (read lines broken acc) = Raise e.
Proof.
  induction lines as [|raw lines IH]; intros H acc.
  - simpl in H. subst broken. reflexivity.
  - cbn [leaving_exception] in H. cbn [read].
    rewrite handle_line_classify. unfold classify.
    destruct (handle_line [] raw) as [|acc' [|s emitted]|e'].
    + discriminate H.
    + specialize (IH H acc). destruct (read lines broken acc). exact IH.
    + specialize (IH H (acc ++ acc')).
      destruct (read lines broken (acc ++ acc')). exact IH.
    + injection H as ->. reflexivity.
Qed.

End StreamFacts.

(** X7.  Nothing after the sentinel line counts: the lines that follow it,
    and a failure of the transport after it, leave the signals of the
    session as they are. *)
Theorem lines_after_sentinel_are_ignored :
  forall (pre post : list Utf8.bytes) (raw : Utf8.bytes) (decoded : text)
         (broken : option exn),
    Utf8.decode raw = Ok decoded ->
    strip decoded = str "data: [DONE]" ->
    Worker.run (Worker.Opened (pre ++ raw :: post) broken)
    = Worker.run (Worker.Opened (pre ++ [raw]) None).
Proof.
  intros pre post raw decoded broken Hd Hs. unfold Worker.run.
  rewrite (read_stops_at_break pre post raw broken
             (fun acc => handle_line_sentinel acc raw decoded Hd Hs) []).
  reflexivity.
Qed.

Lemma lines_after_sentinel_are_ignored_witness :
  Worker.run
    (Worker.Opened
       ([Worker.quoted "data: {'choices':[{'delta':{'content':'Hel'}}]}"]
        ++ Worker.quoted "  data: [DONE]  "
        :: [Worker.quoted "data: {'choices':[{'delta':{'content':'lo'}}]}"])
       (Some (URLError (str "reset"))))
  = Worker.run
      (Worker.Opened
         ([Worker.quoted "data: {'choices':[{'delta':{'content':'Hel'}}]}"]
          ++ [Worker.quoted "  data: [DONE]  "]) None).
Proof.
  apply (lines_after_sentinel_are_ignored
           [Worker.quoted "data: {'choices':[{'delta':{'content':'Hel'}}]}"]
           [Worker.quoted "data: {'choices':[{'delta':{'content':'lo'}}]}"]
           (Worker.quoted "  data: [DONE]  ") (str "  data: [DONE]  "));
    vm_compute; reflexivity.
Defined.

(** X8.  A session whose loop ends normally with some text accumulated ends
    with done, and the text of done is the concatenation of the content
    fragments, which is also the text of the last chunk signalled. *)
Theorem done_carries_last_chunk :
  forall (lines : list Utf8.bytes) (broken : option exn),
    Worker.ends_normally lines broken = true ->
    concat (Worker.fragments lines) <> [] ->
    exists chunks,
      Worker.run (Worker.Opened lines broken)
      = List.map Worker.chunk_received chunks
        ++ [Worker.response_finished (concat (Worker.fragments lines))]
      /\ last chunks [] = concat (Worker.fragments lines).
Proof.
  intros lines broken Hn Hne.
  exists (Worker.cumulative [] (Worker.fragments lines)). split.
  - rewrite run_opened, (last_signal_normal lines broken Hn).
    destruct (concat (Worker.fragments lines)); [contradiction | reflexivity].
  - apply (last_cumulative (Worker.fragments lines) []).
    intro E. rewrite E in Hne. apply Hne. reflexivity.
Qed.

Lemma done_carries_last_chunk_witness :
  exists chunks,
    Worker.run
      (Worker.Opened
         [Worker.quoted "data: {'choices':[{'delta':{'content':'Hel'}}]}";
          Worker.quoted "data: {'choices':[{'delta':{'content':'lo'}}]}"] None)
    = List.map Worker.chunk_received chunks
      ++ [Worker.response_finished
            (concat (Worker.fragments
               [Worker.quoted "data: {'choices':[{'delta':{'content':'Hel'}}]}";
                Worker.quoted "data: {'choices':[{'delta':{'content':'lo'}}]}"]))]
    /\ last chunks []
       = concat (Worker.fragments
           [Worker.quoted "data: {'choices':[{'delta':{'content':'Hel'}}]}";
            Worker.quoted "data: {'choices':[{'delta':{'content':'lo'}}]}"]).
Proof.
  apply (done_carries_last_chunk
           [Worker.quoted "data: {'choices':[{'delta':{'content':'Hel'}}]}";
            Worker.quoted "data: {'choices':[{'delta':{'content':'lo'}}]}"] None).
  - vm_compute. reflexivity.
  - vm_compute. discriminate.
Defined.

(** X9.  When an exception leaves the loop (handling a line raises, or the
    transport breaks before the sentinel), the session signals the chunks
    received until then and ends with the error of that exception: the text
    accumulated so far is never signalled as done. *)
Theorem exception_ends_session_with_error :
  forall (lines : list Utf8.bytes) (broken : option exn) (e : exn),
    StreamLines.leaving_exception lines broken = Some e ->
    Worker.run (Worker.Opened lines broken)
    = List.map Worker.chunk_received
        (Worker.cumulative [] (Worker.fragments lines))
      ++ [Worker.error_occurred (Worker.OfException e)]
    /\ existsb Worker.is_done (Worker.run (Worker.Opened lines broken)) = false.
Proof.
  intros lines broken e H.
  assert (E : Worker.run (Worker.Opened lines broken)
              = List.map Worker.chunk_received
                  (Worker.cumulative [] (Worker.fragments lines))
                ++ [Worker.error_occurred (Worker.OfException e)]).
  { rewrite run_opened. unfold last_signal.
    rewrite (read_raises lines broken e H []). reflexivity. }
  split; [exact E|]. rewrite E, existsb_app. clear E H. simpl.
  induction (Worker.cumulative [] (Worker.fragments lines)) as [|c cs IH];
    simpl; [reflexivity | exact IH].
Qed.

Lemma exception_ends_session_with_error_witness :
  Worker.run
    (Worker.Opened
       [Worker.quoted "data: {'choices':[{'delta':{'content':'Hel'}}]}";
        Worker.quoted "data: {'choices':[{'delta':{'content':null}}]}";
        Worker.quoted "data: [DONE]"] None)
  = [Worker.chunk_received (str "Hel");
     Worker.error_occurred (Worker.OfException TypeError)].
Proof.
  apply (proj1 (exception_ends_session_with_error
           [Worker.quoted "data: {'choices':[{'delta':{'content':'Hel'}}]}";
            Worker.quoted "data: {'choices':[{'delta':{'content':null}}]}";
            Worker.quoted "data: [DONE]"] None TypeError eq_refl)).
Defined.

(** X10.  Lines that do not start with [data: ] once decoded and stripped
    (blank separators, comments, other fields) change nothing: a response
    gives the same signals with and without them. *)
Theorem non_data_lines_change_nothing :
  forall (lines : list Utf8.bytes) (broken : option exn),
    Worker.run (Worker.Opened (filter StreamLines.is_data_line lines) broken)
    = Worker.run (Worker.Opened lines broken).
Proof.
  intros lines broken. unfold Worker.run.
  rewrite read_filter_data. reflexivity.
Qed.

(* ================================================================== *)
(** * The table of messages, card by card *)
(* ================================================================== *)

Section HistoryFacts.

Import ChatDatabase.

Lemma insert_row_before_last (r n : row) (l : list row) :
  (row_timestamp r <= row_timestamp n)%N ->
  insert_row r (l ++ [n]) = insert_row r l ++ [n].
Proof.
  intro H. induction l as [|x l IH]; simpl.
  - apply N.leb_le in H. rewrite H. reflexivity.
  - destruct (row_timestamp r <=? row_timestamp x)%N; [reflexivity|].
    rewrite IH. reflexivity.
Qed.

Lemma order_by_timestamp_latest (n : row) (l : list row) :
  Forall (fun x => (row_timestamp x <= row_timestamp n)%N) l ->
  order_by_timestamp (l ++ [n]) = order_by_timestamp l ++ [n].
Proof.
  induction 1 as [|x l Hx Hl IH]; [reflexivity|].
  change (insert_row x (order_by_timestamp (l ++ [n]))
          = insert_row x (order_by_timestamp l) ++ [n]).
  rewrite IH. apply insert_row_before_last, Hx.
Qed.

Lemma filter_other_card (db : table) (card other : N) :
  other <> card ->
  filter (fun r => (row_card_id r =? other)%N)
         (filter (fun r => negb (row_card_id r =? card)%N) db)
  = filter (fun r => (row_card_id r =? other)%N) db.
Proof.
  intro Hne. induction db as [|x db IH]; [reflexivity|].
  simpl. destruct (row_card_id x =? card)%N eqn:Ec; simpl.
  - apply N.eqb_eq in Ec.
    destruct (row_card_id x =? other)%N eqn:Eo.
    + apply N.eqb_eq in Eo. congruence.
    + exact IH.
  - destruct (row_card_id x =? other)%N; rewrite IH; reflexivity.
Qed.

Lemma filter_cleared_card (db : table) (card : N) :
  filter (fun r => (row_card_id r =? card)%N)
         (filter (fun r => negb (row_card_id r =? card)%N) db) = [].
Proof.
  induction db as [|x db IH]; [reflexivity|].
  simpl. destruct (row_card_id x =? card)%N eqn:Ec; simpl.
  - exact IH.
  - rewrite Ec. exact IH.
Qed.

(** The history of a card after a message saved at a time no earlier than
    those of its messages. *)
Lemma history_after_latest_save (db : table) (card now : N) (r : role)
      (content : text) :
  (forall x, In x db -> row_card_id x = card -> (row_timestamp x <= now)%N) ->
  get_chat_history (save_message db now card r content) card
  = get_chat_history db card ++ [mkRow card now r content].
Proof.
  intro H. unfold get_chat_history, save_message.
  rewrite filter_app. simpl. rewrite N.eqb_refl.
  apply order_by_timestamp_latest.
  apply Forall_forall. intros x Hx. apply filter_In in Hx.
  destruct Hx as [Hin Hc]. apply N.eqb_eq in Hc. simpl. apply H; assumption.
Qed.

End HistoryFacts.

(** X11.  Histories are kept card by card: saving a message for one card,
    or clearing the history of one card, leaves the history of every other
    card as it was; and after clearing, the history of the cleared card is
    empty. *)
Theorem histories_are_per_card :
  forall (db : ChatDatabase.table) (card other now : N)
         (r : ChatDatabase.role) (content : text),
    other <> card ->
    ChatDatabase.get_chat_history
      (ChatDatabase.save_message db now card r content) other
    = ChatDatabase.get_chat_history db other
    /\ ChatDatabase.get_chat_history
         (ChatDatabase.clear_chat_history db card) other
       = ChatDatabase.get_chat_history db other
    /\ ChatDatabase.get_chat_history
         (ChatDatabase.clear_chat_history db card) card = [].
Proof.
  intros db card other now r content Hne.
  unfold ChatDatabase.get_chat_history, ChatDatabase.save_message,
    ChatDatabase.clear_chat_history.
  split; [|split].
  - rewrite filter_app. simpl.
    destruct (card =? other)%N eqn:E.
    + apply N.eqb_eq in E. congruence.
    + rewrite app_nil_r. reflexivity.
  - rewrite (filter_other_card db card other Hne). reflexivity.
  - rewrite filter_cleared_card. reflexivity.
Qed.

Lemma histories_are_per_card_witness :
  ChatDatabase.get_chat_history
    (ChatDatabase.save_message
       [ChatDatabase.mkRow 7 1 ChatDatabase.user (str "hi")] 2 8
       ChatDatabase.user (str "other")) 7
  = ChatDatabase.get_chat_history
      [ChatDatabase.mkRow 7 1 ChatDatabase.user (str "hi")] 7.
Proof.
  apply (proj1 (histories_are_per_card
           [ChatDatabase.mkRow 7 1 ChatDatabase.user (str "hi")] 8 7 2
           ChatDatabase.user (str "other") ltac:(discriminate))).
Defined.

(** X12.  When the clock has not gone back since the messages of a card
    were saved, a newly saved message of that card comes last in its
    history, after the history as it was. *)
Theorem saved_message_comes_last :
  forall (db : ChatDatabase.table) (card now : N)
         (r : ChatDatabase.role) (content : text),
    (forall x, In x db -> ChatDatabase.row_card_id x = card ->
               (ChatDatabase.row_timestamp x <= now)%N) ->
    ChatDatabase.get_chat_history
      (ChatDatabase.save_message db now card r content) card
    = ChatDatabase.get_chat_history db card
      ++ [ChatDatabase.mkRow card now r content].
Proof.
  intros db card now r content H.
  apply history_after_latest_save, H.
Qed.

Lemma saved_message_comes_last_witness :
  ChatDatabase.get_chat_history
    (ChatDatabase.save_message
       [ChatDatabase.mkRow 7 5 ChatDatabase.user (str "hi");
        ChatDatabase.mkRow 8 9 ChatDatabase.user (str "later, other card")]
       6 7 ChatDatabase.assistant (str "hello")) 7
  = ChatDatabase.get_chat_history
      [ChatDatabase.mkRow 7 5 ChatDatabase.user (str "hi");
       ChatDatabase.mkRow 8 9 ChatDatabase.user (str "later, other card")] 7
    ++ [ChatDatabase.mkRow 7 6 ChatDatabase.assistant (str "hello")].
Proof.
  apply (saved_message_comes_last
           [ChatDatabase.mkRow 7 5 ChatDatabase.user (str "hi");
            ChatDatabase.mkRow 8 9 ChatDatabase.user (str "later, other card")]
           7 6 ChatDatabase.assistant (str "hello")).
  intros x [<-|[<-|[]]] Hc; simpl in *; [lia | discriminate Hc].
Defined.

(* ================================================================== *)
(** * A whole turn in the chat window *)
(* ================================================================== *)

Section TurnFacts.

Import Worker ChatDatabase ChatWindow WindowNotions.

Lemma set_label_last (base : list label) (x y : label) :
  set_label (base ++ [x]) (List.length base) y = base ++ [y].
Proof.
  unfold set_label. induction base as [|b base IH]; [reflexivity|].
  simpl. f_equal. exact IH.
Qed.

(** Delivering every signal of a session that ends in done, into the label
    that was created for it. *)
Lemma deliver_finished_session (chunks : list text) (final : text) :
  forall (w : window) (nows : list N) (base : list label) (x : label),
    workers w = [List.map chunk_received chunks ++ [response_finished final]] ->
    chat_layout w = base ++ [x] ->
    current_ai_bubble w = Some (List.length base) ->
    List.length nows = S (List.length chunks) ->
    let w' := steps w (List.map (fun t => Delivered t 0) nows) in
    chat_db w'
    = chat_db w ++ [mkRow (card_id w) (last nows 0%N) assistant final]
    /\ chat_layout w' = base ++ [Markdown final]
    /\ idle w' /\ current_ai_bubble w' = None
    /\ message_input w' = message_input w /\ card_id w' = card_id w.
Proof.
  induction chunks as [|c chunks IH]; intros w nows base x Hw Hl Hb Hlen.
  - destruct nows as [|t [|t' nows]]; try discriminate Hlen.
    cbn [List.map steps fold_left step]. rewrite Hw.
    cbn [List.map app pop_signal slot finish_streaming_response with_workers
         current_ai_bubble chat_layout chat_db card_id message_input last].
    rewrite Hb, Hl, set_label_last. unfold idle. simpl. repeat split.
  - destruct nows as [|t nows]; [discriminate Hlen|].
    simpl in Hlen. injection Hlen as Hlen.
    cbn [List.map steps fold_left]. fold (steps (step w (Delivered t 0))).
    assert (Hstep :
              workers (step w (Delivered t 0))
              = [List.map chunk_received chunks ++ [response_finished final]]
              /\ chat_layout (step w (Delivered t 0)) = base ++ [Markdown c]
              /\ current_ai_bubble (step w (Delivered t 0))
                 = Some (List.length base)
              /\ chat_db (step w (Delivered t 0)) = chat_db w
              /\ card_id (step w (Delivered t 0)) = card_id w
              /\ message_input (step w (Delivered t 0)) = message_input w).
    { cbn [step]. rewrite Hw.
      rewrite (pop_only_session (c :: chunks) (response_finished final)).
      cbn [slot]. unfold update_streaming_bubble, with_workers.
      cbn [workers chat_layout current_ai_bubble chat_db card_id message_input].
      rewrite Hb.
      cbn [workers chat_layout current_ai_bubble chat_db card_id message_input].
      rewrite Hl, set_label_last. repeat split. }
    destruct Hstep as [Hw' [Hl' [Hb' [Hdb [Hcard Hin]]]]].
    destruct (IH (step w (Delivered t 0)) nows base (Markdown c) Hw' Hl' Hb' Hlen)
      as [H1 [H2 [H3 [H4 [H5 H6]]]]].
    assert (Hlast : last (t :: nows) 0%N = last nows 0%N)
      by (destruct nows; [discriminate Hlen | reflexivity]).
    unfold steps in *. rewrite Hlast, H1, H2, H5, H6, Hdb, Hcard, Hin.
    split; [reflexivity|]. split; [reflexivity|]. split; [exact H3|].
    split; [exact H4|]. split; reflexivity.
Qed.

Lemma step_grows (card : N) (db : table) (w : window) (e : ui_event) :
  grown_from card db w -> grown_from card db (step w e).
Proof.
  intros [Hc [extra [Hdb Hown]]].
  assert (Hsend : forall now tr, grown_from card db (send_message w now tr)).
  { intros now tr. unfold send_message.
    destruct (truthy (strip (message_input w))); simpl.
    - split; [exact Hc|].
      exists (extra ++ [mkRow (card_id w) now user (strip (message_input w))]).
      unfold save_message. rewrite Hdb, app_assoc. split; [reflexivity|].
      apply Forall_app. split; [exact Hown | repeat constructor; exact Hc].
    - split; [exact Hc | exists extra; auto]. }
  destruct e as [t|now tr|now tr|now k]; cbn [step].
  - destruct (message_input_enabled w); simpl;
      (split; [exact Hc | exists extra; auto]).
  - destruct (message_input_enabled w); [apply Hsend|].
    split; [exact Hc | exists extra; auto].
  - destruct (send_button_enabled w); [apply Hsend|].
    split; [exact Hc | exists extra; auto].
  - destruct (pop_signal (workers w) k) as [[s ws]|];
      [|split; [exact Hc | exists extra; auto]].
    destruct s as [t|t|m]; cbn [slot].
    + unfold update_streaming_bubble. cbn [with_workers current_ai_bubble].
      destruct (current_ai_bubble w); simpl;
        (split; [exact Hc | exists extra; auto]).
    + unfold finish_streaming_response. simpl. split; [exact Hc|].
      exists (extra ++ [mkRow (card_id w) now assistant t]).
      unfold save_message. rewrite Hdb, app_assoc. split; [reflexivity|].
      apply Forall_app. split; [exact Hown | repeat constructor; exact Hc].
    + unfold handle_streaming_error. simpl.
      split; [exact Hc | exists extra; auto].
Qed.

Lemma steps_grow (card : N) (db : table) (es : list ui_event) :
  forall w, grown_from card db w -> grown_from card db (steps w es).
Proof.
  induction es as [|e es IH]; intros w H; [exact H|].
  simpl. apply IH, step_grows, H.
Qed.

End TurnFacts.

(** X13.  An answered turn, from an idle window with some text typed: after
    the send and the delivery of every signal of a session that ends in
    done, the table has gained the user's message (stripped) and then the
    assistant's final text, both for the card of the window; the layout has
    gained the user's bubble and the answer rendered from that same final
    text; the input line is empty and the window is idle again. *)
Theorem answered_turn_is_persisted :
  forall (w : ChatWindow.window) (t0 : N) (tr : Worker.transport)
         (chunks : list text) (final : text) (nows : list N),
    ChatWindow.idle w ->
    strip (ChatWindow.message_input w) <> [] ->
    Worker.run tr
    = List.map Worker.chunk_received chunks ++ [Worker.response_finished final] ->
    List.length nows = S (List.length chunks) ->
    let w' := ChatWindow.steps w
                (ChatWindow.SendClicked t0 tr
                 :: List.map (fun t => ChatWindow.Delivered t 0) nows) in
    ChatWindow.chat_db w'
    = ChatWindow.chat_db w
      ++ [ChatDatabase.mkRow (ChatWindow.card_id w) t0 ChatDatabase.user
            (strip (ChatWindow.message_input w));
          ChatDatabase.mkRow (ChatWindow.card_id w) (last nows 0%N)
            ChatDatabase.assistant final]
    /\ ChatWindow.chat_layout w'
       = ChatWindow.chat_layout w
         ++ [ChatWindow.UserBubble (strip (ChatWindow.message_input w));
             ChatWindow.Markdown final]
    /\ ChatWindow.idle w'
    /\ ChatWindow.current_ai_bubble w' = None
    /\ ChatWindow.message_input w' = [].
Proof.
  intros w t0 tr chunks final nows [Hw [Hs Hi]] Hne Hrun Hlen.
  cbn zeta. unfold ChatWindow.steps. cbn [fold_left ChatWindow.step].
  rewrite Hs. unfold ChatWindow.send_message.
  destruct (strip (ChatWindow.message_input w)) as [|c u] eqn:Eu;
    [contradiction|].
  cbn [truthy negb]. rewrite Hw, Hrun. cbn [app].
  match goal with
  | |- context [fold_left ChatWindow.step _ ?w1] =>
      destruct (deliver_finished_session chunks final w1 nows
                  (ChatWindow.chat_layout w ++ [ChatWindow.UserBubble (c :: u)])
                  ChatWindow.Typing eq_refl eq_refl eq_refl Hlen)
        as [H1 [H2 [H3 [H4 [H5 H6]]]]]
  end.
  unfold ChatWindow.steps in *.
  split; [|split; [|split; [exact H3 | split; [exact H4 | exact H5]]]].
  - rewrite H1. cbn [ChatWindow.chat_db ChatWindow.card_id].
    unfold ChatDatabase.save_message. rewrite <- app_assoc. reflexivity.
  - rewrite H2, <- app_assoc. reflexivity.
Qed.

Lemma answered_turn_is_persisted_witness :
  let w := ChatWindow.mkWindow 7 [] (str " hi ") true true [] None [] in
  let tr := Worker.Opened
              [Worker.quoted "data: {'choices':[{'delta':{'content':'Hel'}}]}";
               Worker.quoted "data: {'choices':[{'delta':{'content':'lo'}}]}";
               Worker.quoted "data: [DONE]"] None in
  let w' := ChatWindow.steps w
              (ChatWindow.SendClicked 1 tr
               :: List.map (fun t => ChatWindow.Delivered t 0) [2; 3; 4]%N) in
  ChatWindow.chat_db w'
  = ChatWindow.chat_db w
    ++ [ChatDatabase.mkRow (ChatWindow.card_id w) 1 ChatDatabase.user
          (strip (ChatWindow.message_input w));
        ChatDatabase.mkRow (ChatWindow.card_id w) (last [2; 3; 4]%N 0%N)
          ChatDatabase.assistant (str "Hello")]
  /\ ChatWindow.chat_layout w'
     = ChatWindow.chat_layout w
       ++ [ChatWindow.UserBubble (strip (ChatWindow.message_input w));
           ChatWindow.Markdown (str "Hello")]
  /\ ChatWindow.idle w'
  /\ ChatWindow.current_ai_bubble w' = None
  /\ ChatWindow.message_input w' = [].
Proof.
  intros w tr.
  apply (answered_turn_is_persisted w 1 tr [str "Hel"; str "Hello"]
           (str "Hello") [2; 3; 4]%N).
  - repeat split.
  - vm_compute. discriminate.
  - vm_compute. reflexivity.
  - reflexivity.
Defined.

(** X14.  Whatever happens in a chat window, the table only grows, by rows
    of the card of the window: the rows that were there stay, in place, and
    the history of every other card stays as it was. *)
Theorem window_only_appends_own_rows :
  forall (card : N) (db : ChatDatabase.table) (es : list ChatWindow.ui_event),
    let w := ChatWindow.steps (ChatWindow.opened card db) es in
    (exists extra,
        ChatWindow.chat_db w = db ++ extra
        /\ Forall (fun r => ChatDatabase.row_card_id r = card) extra)
    /\ forall other,
         other <> card ->
         ChatDatabase.get_chat_history (ChatWindow.chat_db w) other
         = ChatDatabase.get_chat_history db other.
Proof.
  intros card db es w.
  assert (H : WindowNotions.grown_from card db w).
  { apply steps_grow. split; [reflexivity|].
    exists []. split; [symmetry; apply app_nil_r | constructor]. }
  destruct H as [_ [extra [Hdb Hown]]].
  split; [exists extra; auto|].
  intros other Hne. rewrite Hdb. unfold ChatDatabase.get_chat_history.
  rewrite filter_app.
  assert (E : filter (fun r => (ChatDatabase.row_card_id r =? other)%N) extra = []).
  { clear Hdb. induction Hown as [|x extra Hx Hown IH]; [reflexivity|].
    simpl. destruct (ChatDatabase.row_card_id x =? other)%N eqn:Ex; [|exact IH].
    apply N.eqb_eq in Ex. congruence. }
  rewrite E, app_nil_r. reflexivity.
Qed.

Lemma window_only_appends_own_rows_witness :
  ChatDatabase.get_chat_history
    (ChatWindow.chat_db
       (ChatWindow.steps
          (ChatWindow.opened 7 [ChatDatabase.mkRow 8 1 ChatDatabase.user (str "x")])
          [ChatWindow.Typed (str "hi");
           ChatWindow.SendClicked 2 (Worker.Fails TypeError)])) 8
  = ChatDatabase.get_chat_history
      [ChatDatabase.mkRow 8 1 ChatDatabase.user (str "x")] 8.
Proof.
  apply (proj2 (window_only_appends_own_rows 7
                  [ChatDatabase.mkRow 8 1 ChatDatabase.user (str "x")]
                  [ChatWindow.Typed (str "hi");
                   ChatWindow.SendClicked 2 (Worker.Fails TypeError)]) 8).
  discriminate.
Defined.

(* ================================================================== *)
(** * The simple window: what a request carries *)
(* ================================================================== *)

Section RequestFacts.

Import ChatDatabase SimpleRequest.

Lemma last_n_snoc {A : Type} (n : nat) (l : list A) (x : A) :
  last_n (S n) (l ++ [x]) = last_n n l ++ [x].
Proof.
  unfold last_n. rewrite length_app. simpl.
  replace (List.length l + 1 - S n)%nat with (List.length l - n)%nat by lia.
  rewrite skipn_app.
  replace (List.length l - n - List.length l)%nat with 0%nat by lia.
  reflexivity.
Qed.

Lemma last_n_length {A : Type} (n : nat) (l : list A) :
  (List.length (last_n n l) <= n)%nat.
Proof. unfold last_n. rewrite length_skipn. lia. Qed.

End RequestFacts.

(** X15.  The simple window saves the user's message before it builds the
    request, and the request takes the last six messages of the history and
    then the user's message: when the clock has not gone back, the request
    ends with the user's message twice, after at most five earlier messages
    of the history. *)
Theorem simple_request_repeats_user_message :
  forall (card_content : text) (db : ChatDatabase.table) (card t0 : N)
         (user_message : text),
    (forall x, In x db -> ChatDatabase.row_card_id x = card ->
               (ChatDatabase.row_timestamp x <= t0)%N) ->
    exists earlier,
      SimpleRequest.request_messages card_content
        (ChatDatabase.save_message db t0 card ChatDatabase.user user_message)
        card user_message
      = (str "system", SimpleRequest.system_content card_content)
        :: earlier ++ [(str "user", user_message); (str "user", user_message)]
      /\ (List.length earlier <= 5)%nat.
Proof.
  intros card_content db card t0 user_message H.
  unfold SimpleRequest.request_messages.
  rewrite (history_after_latest_save db card t0 ChatDatabase.user user_message H).
  rewrite last_n_snoc, map_app.
  exists (List.map
            (fun msg => (SimpleRequest.role_text (ChatDatabase.row_role msg),
                         ChatDatabase.row_content msg))
            (SimpleRequest.last_n 5 (ChatDatabase.get_chat_history db card))).
  split.
  - simpl. rewrite <- app_assoc. reflexivity.
  - rewrite length_map. apply last_n_length.
Qed.

Lemma simple_request_repeats_user_message_witness :
  exists earlier,
    SimpleRequest.request_messages (str "Q: 2+2")
      (ChatDatabase.save_message
         [ChatDatabase.mkRow 7 1 ChatDatabase.user (str "hi");
          ChatDatabase.mkRow 7 2 ChatDatabase.assistant (str "hello")]
         3 7 ChatDatabase.user (str "why?"))
      7 (str "why?")
    = (str "system", SimpleRequest.system_content (str "Q: 2+2"))
      :: earlier ++ [(str "user", str "why?"); (str "user", str "why?")]
    /\ (List.length earlier <= 5)%nat.
Proof.
  apply (simple_request_repeats_user_message (str "Q: 2+2")
           [ChatDatabase.mkRow 7 1 ChatDatabase.user (str "hi");
            ChatDatabase.mkRow 7 2 ChatDatabase.assistant (str "hello")]
           7 3 (str "why?")).
  intros x [<-|[<-|[]]] _; simpl; lia.
Defined.

(** X16.  In the simple window a request that fails is answered by an
    apology text, which is stored as the assistant's message of the turn;
    when the clock has not gone back, the request of the next turn carries
    that apology as an assistant message. *)
Theorem simple_failure_enters_next_request :
  forall (describe : exn -> text) (card_content : text)
         (db : ChatDatabase.table) (card t0 t1 t2 : N)
         (input next : text) (e : exn),
    truthy (strip input) = true ->
    (forall x, In x db -> ChatDatabase.row_card_id x = card ->
               (ChatDatabase.row_timestamp x <= t0)%N) ->
    (t0 <= t1)%N -> (t1 <= t2)%N ->
    let db1 := SimpleChat.send_message describe db card input t0 t1 (Raise e) in
    db1 = db ++ [ChatDatabase.mkRow card t0 ChatDatabase.user (strip input);
                 ChatDatabase.mkRow card t1 ChatDatabase.assistant
                   (SimpleRequest.apology describe e)]
    /\ In (str "assistant", SimpleRequest.apology describe e)
          (SimpleRequest.request_messages card_content
             (ChatDatabase.save_message db1 t2 card ChatDatabase.user next)
             card next).
Proof.
  intros describe card_content db card t0 t1 t2 input next e Hin H H01 H12 db1.
  assert (E : db1 = db ++ [ChatDatabase.mkRow card t0 ChatDatabase.user (strip input);
                           ChatDatabase.mkRow card t1 ChatDatabase.assistant
                             (SimpleRequest.apology describe e)]).
  { unfold db1, SimpleChat.send_message. rewrite Hin. simpl.
    unfold ChatDatabase.save_message. rewrite <- app_assoc. reflexivity. }
  split; [exact E|]. clearbody db1. subst db1.
  unfold SimpleRequest.request_messages.
  set (u := ChatDatabase.mkRow card t0 ChatDatabase.user (strip input)).
  set (a := ChatDatabase.mkRow card t1 ChatDatabase.assistant
              (SimpleRequest.apology describe e)).
  assert (Hh : ChatDatabase.get_chat_history
                 (ChatDatabase.save_message (db ++ [u; a]) t2 card
                    ChatDatabase.user next) card
               = ((ChatDatabase.get_chat_history db card ++ [u]) ++ [a])
                 ++ [ChatDatabase.mkRow card t2 ChatDatabase.user next]).
  { rewrite history_after_latest_save.
    - change (db ++ [u; a]) with (db ++ [u] ++ [a]). rewrite app_assoc.
      change ((db ++ [u]) ++ [a])
        with (ChatDatabase.save_message (db ++ [u]) t1 card
                ChatDatabase.assistant (SimpleRequest.apology describe e)).
      rewrite history_after_latest_save.
      + change (db ++ [u])
          with (ChatDatabase.save_message db t0 card ChatDatabase.user
                  (strip input)).
        rewrite history_after_latest_save by exact H.
        reflexivity.
      + intros x Hx Hc. apply in_app_or in Hx. destruct Hx as [Hx|[<-|[]]].
        * specialize (H x Hx Hc). lia.
        * simpl. exact H01.
    - intros x Hx Hc. apply in_app_or in Hx.
      destruct Hx as [Hx|[<-|[<-|[]]]]; simpl.
      + specialize (H x Hx Hc). lia.
      + lia.
      + exact H12. }
  rewrite Hh, !last_n_snoc, !map_app. cbn [app]. right.
  rewrite !in_app_iff. left. left. right. left. reflexivity.
Qed.

Lemma simple_failure_enters_next_request_witness :
  let db1 := SimpleChat.send_message (fun _ => str "timed out") [] 7
               (str "hi") 1 2 (Raise (URLError (str "timed out"))) in
  db1 = [] ++ [ChatDatabase.mkRow 7 1 ChatDatabase.user (strip (str "hi"));
               ChatDatabase.mkRow 7 2 ChatDatabase.assistant
                 (SimpleRequest.apology (fun _ => str "timed out")
                    (URLError (str "timed out")))]
  /\ In (str "assistant",
         SimpleRequest.apology (fun _ => str "timed out")
           (URLError (str "timed out")))
        (SimpleRequest.request_messages (str "Q")
           (ChatDatabase.save_message db1 3 7 ChatDatabase.user (str "again"))
           7 (str "again")).
Proof.
  apply (simple_failure_enters_next_request (fun _ => str "timed out") (str "Q")
           [] 7 1 2 3 (str "hi") (str "again") (URLError (str "timed out"))).
  - reflexivity.
  - intros x [].
  - lia.
  - lia.
Defined.

(* ================================================================== *)
(** * The batch commit: what is created, and from what *)
(* ================================================================== *)

Section CreatedNotes.

Import Commit CommitNotions.

Lemma set_field_nth (fields fields' : list text) (i : nat) (v : text) :
  set_field fields i v = Ok fields' -> nth_error fields' i = Some v.
Proof.
  unfold set_field. destruct (i <? List.length fields)%nat eqn:E; [|discriminate].
  apply Nat.ltb_lt in E. intro H. injection H as <-.
  rewrite nth_error_app2; rewrite length_firstn, Nat.min_l by lia; [|lia].
  rewrite Nat.sub_diag. reflexivity.
Qed.

Lemma create_note_context (h : host) (fmt : card_format) (note_type : text)
      (tags : list text) (col col' : collection) (c : flashcard) :
  create_note h fmt note_type tags col c = Ok col' ->
  exists n, col' = col ++ [n]
            /\ note_type_name n = note_type /\ note_tags n = tags
            /\ note_deck n = deck_id h
            /\ nth_error (note_fields n) 2 = Some (summary h).
Proof.
  unfold create_note.
  destruct (new_note h note_type) as [fields|e]; cbn [bind]; [|discriminate].
  match goal with
  | |- context [bind ?m _] =>
      destruct m as [fields'|e] eqn:Ef; cbn [bind]; [|discriminate]
  end.
  destruct (add_note_refused h col _); [discriminate|].
  intro H. injection H as <-. eexists. split; [reflexivity|].
  cbn [note_type_name note_tags note_deck note_fields].
  repeat split.
  destruct fmt.
  - destruct (key_front c) as [f|]; cbn [bind] in Ef; [|discriminate Ef].
    destruct (set_field fields 0 f) as [f0|]; cbn [bind] in Ef; [|discriminate Ef].
    destruct (key_back c) as [b|]; cbn [bind] in Ef; [|discriminate Ef].
    destruct (set_field f0 1 b) as [f1|]; cbn [bind] in Ef; [|discriminate Ef].
    exact (set_field_nth f1 fields' 2 (summary h) Ef).
  - destruct (key_content c) as [t|]; cbn [bind] in Ef; [|discriminate Ef].
    destruct (set_field fields 0 t) as [f0|]; cbn [bind] in Ef; [|discriminate Ef].
    destruct (set_field f0 1 []) as [f1|]; cbn [bind] in Ef; [|discriminate Ef].
    exact (set_field_nth f1 fields' 2 (summary h) Ef).
Qed.

Lemma fold_create_context (h : host) (fmt : card_format) (note_type : text)
      (tags : list text) (selected : list flashcard) :
  forall (col : collection) (k : nat),
  exists created,
    fold_left (Notions.create_step h fmt note_type tags) selected (col, k)
    = (col ++ created, (k + List.length created)%nat)
    /\ Forall (fun n => note_type_name n = note_type /\ note_tags n = tags
                        /\ note_deck n = deck_id h
                        /\ nth_error (note_fields n) 2 = Some (summary h))
              created
    /\ (List.length created <= List.length selected)%nat.
Proof.
  induction selected as [|c selected IH]; intros col k.
  - exists []. simpl. rewrite app_nil_r, Nat.add_0_r. auto.
  - cbn [fold_left]. unfold Notions.create_step at 2. cbn [fst snd].
    destruct (create_note h fmt note_type tags col c) as [col'|e] eqn:E.
    + destruct (create_note_context h fmt note_type tags col col' c E)
        as [x [-> Hx]].
      destruct (IH (col ++ [x]) (S k)) as [created [-> [Hall Hlen]]].
      exists (x :: created). rewrite <- app_assoc. simpl.
      split; [f_equal; lia|]. split; [constructor; assumption | lia].
    + destruct (IH col k) as [created [-> [Hall Hlen]]].
      exists created. simpl. split; [reflexivity|]. split; [exact Hall | lia].
Qed.

Lemma skipn_checked (boxes : list bool) (i : nat) :
  nth i boxes false = true -> skipn i boxes = true :: skipn (S i) boxes.
Proof.
  revert i. induction boxes as [|b boxes IH]; intros [|i] H;
    try discriminate H.
  - simpl in H. subst b. reflexivity.
  - simpl in H. exact (IH i H).
Qed.

Lemma checked_count_skipn (boxes : list bool) (i : nat) :
  (checked_count (skipn (S i) boxes) <= checked_count (skipn i boxes))%nat.
Proof.
  revert i. induction boxes as [|b boxes IH]; intro i.
  - destruct i; simpl; lia.
  - destruct i as [|i].
    + unfold checked_count. simpl. destruct b; simpl; lia.
    + exact (IH i).
Qed.

Lemma select_length (d : dialog) (cards : list flashcard) :
  forall (i : nat) (sel : list flashcard),
    select d i cards = Ok sel ->
    (List.length sel <= checked_count (skipn i (card_checkboxes d)))%nat.
Proof.
  induction cards as [|c cards IH]; intros i sel H.
  - injection H as <-. simpl. lia.
  - cbn [select] in H.
    destruct (nth i (card_checkboxes d) false) eqn:E.
    + destruct (widget_at (preview_layout d) i) as [cw|e]; cbn [bind] in H;
        [|discriminate H].
      destruct (select d (S i) cards) as [rest|e] eqn:Er; cbn [bind] in H;
        [|discriminate H].
      injection H as <-. specialize (IH (S i) rest Er).
      rewrite (skipn_checked _ i E). unfold checked_count in *.
      cbn [filter List.length]. lia.
    + specialize (IH (S i) sel H).
      pose proof (checked_count_skipn (card_checkboxes d) i). lia.
Qed.

(** With the widgets of the checked cards in place, what is selected is
    read from the widgets alone. *)
Lemma select_reads_widgets (d : dialog) (cards : list flashcard) :
  forall (i : nat) (cards' : list flashcard),
    List.length cards' = List.length cards ->
    (forall k, (k < List.length cards)%nat -> editable d (i + k)) ->
    select d i cards' = select d i cards.
Proof.
  induction cards as [|c cards IH]; intros i cards' Hlen Hed.
  - destruct cards'; [reflexivity | discriminate Hlen].
  - destruct cards' as [|c' cards']; [discriminate Hlen|].
    simpl in Hlen. injection Hlen as Hlen.
    assert (Hrest : select d (S i) cards' = select d (S i) cards).
    { apply IH; [exact Hlen|]. intros k Hk.
      replace (S i + k)%nat with (i + S k)%nat by lia.
      apply Hed. simpl. lia. }
    cbn [select]. rewrite Hrest.
    destruct (nth i (card_checkboxes d) false) eqn:E; [|reflexivity].
    assert (H0 : editable d (i + 0)) by (apply Hed; simpl; lia).
    rewrite Nat.add_0_r in H0. destruct (H0 E) as [edits [Hw Hn]].
    rewrite Hw. cbn [bind].
    destruct (select d (S i) cards) as [rest|e]; cbn [bind]; [|reflexivity].
    f_equal. f_equal. unfold get_current_card_content.
    destruct (format d).
    + destruct edits as [|e0 [|e1 edits]]; simpl in Hn; try lia. reflexivity.
    + destruct edits as [|e0 edits]; simpl in Hn; try lia. reflexivity.
Qed.

End CreatedNotes.

(** X17.  Every note a batch commit adds to the collection has the tags of
    the original card, the note type of the add-on and the deck of the
    original card, and holds the conversation summary as its third field;
    and the commit adds at most as many notes as there are checked boxes. *)
Theorem created_notes_carry_card_context :
  forall (h : Commit.host) (d : Commit.dialog) (col : Commit.collection),
    exists created,
      fst (Commit.create_flashcards h d col) = col ++ created
      /\ Forall (CommitNotions.carries_context h) created
      /\ (List.length created
          <= CommitNotions.checked_count (Commit.card_checkboxes d))%nat.
Proof.
  intros h d col. unfold Commit.create_flashcards.
  assert (Hnone : forall o : Commit.outcome,
             exists created,
               fst (col, o) = col ++ created
               /\ Forall (CommitNotions.carries_context h) created
               /\ (List.length created
                   <= CommitNotions.checked_count (Commit.card_checkboxes d))%nat).
  { intro o. exists []. rewrite app_nil_r. simpl.
    split; [reflexivity|]. split; [constructor | lia]. }
  destruct (truthy (Commit.generated_flashcards d));
    cbv beta iota delta [negb]; [|apply Hnone].
  destruct (Commit.original_tags h) as [tags|e] eqn:Et; [|apply Hnone].
  destruct (Commit.addon_note_type h) as [nt|e] eqn:En; [|apply Hnone].
  destruct (Parser.parse_flashcards _ _) as [|c cards];
    cbv beta iota; [apply Hnone|].
  destruct (Commit.select d 0 (c :: cards)) as [[|s sel]|e] eqn:Es;
    cbv beta iota; try apply Hnone.
  clear Hnone.
  destruct (fold_create_context h (Commit.format d) nt tags (s :: sel) col 0)
    as [created [Hfold [Hall Hlen]]].
  change (fold_left (Notions.create_step h (Commit.format d) nt tags)
            (s :: sel) (col, 0%nat))
    with (Commit.create_each h (Commit.format d) nt tags (s :: sel) col)
    in Hfold.
  rewrite Hfold. exists created.
  split.
  { destruct (0 <? 0 + List.length created)%nat; [|reflexivity].
    destruct (Commit.save_refused h (col ++ created)); reflexivity. }
  split.
  { eapply Forall_impl; [|exact Hall].
    intros n [H1 [H2 [H3 H4]]]. unfold CommitNotions.carries_context.
    rewrite Et, En, H1, H2. auto. }
  pose proof (select_length d (c :: cards) 0 (s :: sel) Es) as Hsel.
  simpl in Hsel. simpl in Hlen. lia.
Qed.

(** X18.  What a batch commit selects is what the widgets show: when the
    widget of every checked card has the text fields of its format, the
    selected cards depend on the parsed records only through their number,
    so that two parses of the same length select the same cards. *)
Theorem commit_selects_what_widgets_show :
  forall (d : Commit.dialog) (cards cards' : list flashcard),
    List.length cards' = List.length cards ->
    (forall k, (k < List.length cards)%nat -> CommitNotions.editable d k) ->
    Commit.select d 0 cards' = Commit.select d 0 cards.
Proof.
  intros d cards cards' Hlen Hed.
  apply select_reads_widgets; [exact Hlen | exact Hed].
Qed.

Lemma commit_selects_what_widgets_show_witness :
  Commit.select Commit.two_cards_selected 0
    [BasicCard (str "x") (str "y"); BasicCard (str "z") (str "t")]
  = Commit.select Commit.two_cards_selected 0
      [BasicCard (str "Q1") (str "A1"); BasicCard (str "Q2") (str "A2")].
Proof.
  apply (commit_selects_what_widgets_show Commit.two_cards_selected
           [BasicCard (str "Q1") (str "A1"); BasicCard (str "Q2") (str "A2")]
           [BasicCard (str "x") (str "y"); BasicCard (str "z") (str "t")]
           eq_refl).
  intros [|[|k]] Hk Hc.
  - exists [str "Q1"; str "A1"]. split; [reflexivity | simpl; lia].
  - exists [str "Q2"; str "A2"]. split; [reflexivity | simpl; lia].
  - simpl in Hk. lia.
Defined.

(* ================================================================== *)
(** * The settings *)
(* ================================================================== *)

Section ConfigFacts.

Import Json ConfigManager.

Lemma text_eqb_refl (a : text) : text_eqb a a = true.
Proof. apply text_eqb_eq. reflexivity. Qed.

Lemma dict_find_set (d : list (text * json)) (k k' : text) (v : json) :
  dict_find (dict_set d k v) k'
  = if text_eqb k k' then Some v else dict_find d k'.
Proof.
  induction d as [|[k0 v0] d IH]; simpl.
  - destruct (text_eqb k k'); reflexivity.
  - destruct (text_eqb k0 k) eqn:E0; simpl.
    + apply text_eqb_eq in E0. subst k0.
      destruct (text_eqb k k'); reflexivity.
    + rewrite IH. destruct (text_eqb k0 k') eqn:E1; [|reflexivity].
      apply text_eqb_eq in E1. subst k0.
      destruct (text_eqb k k') eqn:E2; [|reflexivity].
      apply text_eqb_eq in E2. subst k'. rewrite text_eqb_refl in E0.
      discriminate E0.
Qed.

(** Merging into a dictionary: the keys it has keep their values, the
    others take those of the items. *)
Lemma merge_defaults_dict (items : list (text * json)) :
  forall d : list (text * json),
  exists cfg,
    merge_defaults items (JObject d) = Ok (JObject cfg)
    /\ forall k, dict_find cfg k
                 = match dict_find d k with
                   | Some v => Some v
                   | None => dict_find items k
                   end.
Proof.
  induction items as [|[key value] items IH]; intro d.
  - exists d. split; [reflexivity|]. intro k. simpl.
    destruct (dict_find d k); reflexivity.
  - cbn [merge_defaults py_in bind].
    destruct (dict_find d key) as [x|] eqn:Ek.
    + destruct (IH d) as [cfg [Hm Hf]]. exists cfg. split; [exact Hm|].
      intro k. rewrite Hf. destruct (dict_find d k) eqn:Edk; [reflexivity|].
      simpl. destruct (text_eqb key k) eqn:E; [|reflexivity].
      apply text_eqb_eq in E. subst k. congruence.
    + cbn [setitem bind].
      destruct (IH (dict_set d key value)) as [cfg [Hm Hf]].
      exists cfg. split; [exact Hm|].
      intro k. rewrite Hf, dict_find_set. simpl.
      destruct (text_eqb key k) eqn:E.
      * apply text_eqb_eq in E. subst k. rewrite Ek. reflexivity.
      * reflexivity.
Qed.

End ConfigFacts.

(** X19.  Loading the settings from a file that holds a JSON object: the
    result is a dictionary in which every key of the file keeps the value
    of the file and every other key has the value of the defaults, if the
    defaults have it; so for a key of the defaults, [get] never falls back
    on the value its caller passes. *)
Theorem loaded_settings_merge_defaults :
  forall d : list (text * Json.json),
  exists cfg,
    ConfigManager.load_config (Ok (Some (Json.JObject d))) = Json.JObject cfg
    /\ (forall k,
           Json.dict_find cfg k
           = match Json.dict_find d k with
             | Some v => Some v
             | None => Json.dict_find ConfigManager.DEFAULT_CONFIG k
             end)
    /\ (forall k v fallback,
           Json.dict_find ConfigManager.DEFAULT_CONFIG k = Some v ->
           ConfigManager.get (Json.JObject cfg) k fallback
           = Ok (match Json.dict_find d k with Some x => x | None => v end)).
Proof.
  intro d. unfold ConfigManager.load_config.
  destruct (merge_defaults_dict ConfigManager.DEFAULT_CONFIG d) as [cfg [Hm Hf]].
  rewrite Hm. exists cfg. split; [reflexivity|]. split; [exact Hf|].
  intros k v fallback Hk. unfold ConfigManager.get, Json.get.
  rewrite Hf, Hk. destruct (Json.dict_find d k); reflexivity.
Qed.

Lemma loaded_settings_merge_defaults_witness :
  ConfigManager.get
    (ConfigManager.load_config
       (Ok (Some (Json.JObject [(str "max_tokens", Json.JNumber (str "50"))]))))
    (str "hotkey") Json.JNull
  = Ok (Json.JString (str "Ctrl+Shift+A")).
Proof.
  destruct (loaded_settings_merge_defaults
              [(str "max_tokens", Json.JNumber (str "50"))])
    as [cfg [Hl [_ Hg]]].
  rewrite Hl.
  apply (Hg (str "hotkey") (Json.JString (str "Ctrl+Shift+A")) Json.JNull).
  reflexivity.
Defined.

(** X20.  When the settings cannot be read (an exception, or no file), or
    the file holds a number, a boolean or null, the settings are the
    defaults; and the same holds for a JSON array or string that lacks a
    key of the defaults. *)
Theorem unusable_settings_give_defaults :
  (forall e, ConfigManager.load_config (Raise e)
             = Json.JObject ConfigManager.DEFAULT_CONFIG)
  /\ ConfigManager.load_config (Ok None)
     = Json.JObject ConfigManager.DEFAULT_CONFIG
  /\ (forall doc,
         match doc with
         | Json.JObject _ => False
         | Json.JArray _ | Json.JString _ =>
             exists k v, In (k, v) ConfigManager.DEFAULT_CONFIG
                         /\ Json.py_in k doc = Ok false
         | _ => True
         end ->
         ConfigManager.load_config (Ok (Some doc))
         = Json.JObject ConfigManager.DEFAULT_CONFIG).
Proof.
  split; [reflexivity|]. split; [reflexivity|].
  intros doc H. unfold ConfigManager.load_config.
  assert (G : forall items,
             (exists k v, In (k, v) items /\ Json.py_in k doc = Ok false) ->
             (forall c, doc <> Json.JObject c) ->
             exists e, ConfigManager.merge_defaults items doc = Raise e).
  { intros items [k [v [Hin Hk]]] Hdoc.
    induction items as [|[key value] items IH]; [destruct Hin|].
    cbn [ConfigManager.merge_defaults].
    destruct (Json.py_in key doc) as [[|]|e] eqn:Ep; cbn [bind].
    - destruct Hin as [Heq|Hin]; [|exact (IH Hin)].
      injection Heq as -> ->. congruence.
    - destruct doc; try (eexists; reflexivity).
      exfalso. eapply Hdoc. reflexivity.
    - eexists. reflexivity. }
  destruct doc as [|b|n|s|l|c]; try reflexivity.
  - destruct (G ConfigManager.DEFAULT_CONFIG H ltac:(discriminate)) as [e ->].
    reflexivity.
  - destruct (G ConfigManager.DEFAULT_CONFIG H ltac:(discriminate)) as [e ->].
    reflexivity.
  - contradiction.
Qed.

Lemma unusable_settings_give_defaults_witness :
  ConfigManager.load_config
    (Ok (Some (Json.JArray [Json.JString (str "max_tokens")])))
  = Json.JObject ConfigManager.DEFAULT_CONFIG.
Proof.
  apply (proj2 (proj2 unusable_settings_give_defaults)
           (Json.JArray [Json.JString (str "max_tokens")])).
  exists (str "hotkey"), (Json.JString (str "Ctrl+Shift+A")).
  split; [simpl; tauto | reflexivity].
Defined.

(** X21.  A summary or a generation is refused exactly when the card has
    fewer than two stored messages, whoever wrote them; over a card with no
    history, the user's message alone is refused, and the user's message
    followed by the answer gives the text that names the card and then the
    two messages, [You:] first and [AI:] second, when the clock has not
    gone back between them. *)
Theorem conversation_needs_two_messages :
  (forall (db : ChatDatabase.table) (card : N) (card_content : text),
      Conversation.conversation db card card_content = None
      <-> (List.length
             (filter (fun r => (ChatDatabase.row_card_id r =? card)%N) db)
           < 2)%nat)
  /\ (forall (db : ChatDatabase.table) (card t0 t1 : N)
             (card_content u a : text),
         filter (fun r => (ChatDatabase.row_card_id r =? card)%N) db = [] ->
         (t0 <= t1)%N ->
         Conversation.conversation
           (db ++ [ChatDatabase.mkRow card t0 ChatDatabase.user u])
           card card_content = None
         /\ Conversation.conversation
              (db ++ [ChatDatabase.mkRow card t0 ChatDatabase.user u;
                      ChatDatabase.mkRow card t1 ChatDatabase.assistant a])
              card card_content
            = Some (str "Flashcard: " ++ card_content ++ [LF; LF]
                    ++ str "Conversation:" ++ [LF]
                    ++ str "You: " ++ u ++ [LF; LF]
                    ++ str "AI: " ++ a ++ [LF; LF])).
Proof.
  split.
  - intros db card card_content. unfold Conversation.conversation.
    pose proof (Permutation_length
                  (order_by_timestamp_perm
                     (filter (fun r => (ChatDatabase.row_card_id r =? card)%N) db)))
      as Hlen.
    fold (ChatDatabase.get_chat_history db card) in Hlen. rewrite <- Hlen.
    destruct (ChatDatabase.get_chat_history db card) as [|x [|y h]]; simpl.
    + split; [lia | reflexivity].
    + split; [lia | reflexivity].
    + split; [discriminate | lia].
  - intros db card t0 t1 card_content u a Hdb H01.
    unfold Conversation.conversation, ChatDatabase.get_chat_history.
    rewrite !filter_app, Hdb. simpl. rewrite N.eqb_refl. simpl.
    split; [reflexivity|].
    apply N.leb_le in H01. rewrite H01. simpl.
    unfold Conversation.conversation_text. simpl.
    repeat (rewrite <- app_assoc; simpl). reflexivity.
Qed.

Lemma conversation_needs_two_messages_witness :
  Conversation.conversation
    ([] ++ [ChatDatabase.mkRow 7 1 ChatDatabase.user (str "why?");
            ChatDatabase.mkRow 7 2 ChatDatabase.assistant (str "because")])
    7 (str "Q")
  = Some (str "Flashcard: " ++ str "Q" ++ [LF; LF]
          ++ str "Conversation:" ++ [LF]
          ++ str "You: " ++ str "why?" ++ [LF; LF]
          ++ str "AI: " ++ str "because" ++ [LF; LF]).
Proof.
  apply (proj2 (proj2 conversation_needs_two_messages [] 7 1 2 (str "Q")
                  (str "why?") (str "because") eq_refl ltac:(lia))).
Defined.

(* ================================================================== *)
(** * From the preview to the commit *)
(* ================================================================== *)

Section PreviewFacts.

Import Parser Commit Generation.

Variable to_plain : text -> text.

Lemma parse_of_format (fmt : card_format) (t : text) :
  Forall (of_format fmt) (parse_flashcards fmt t).
Proof.
  destruct fmt; simpl.
  - assert (H : Forall LoopNotions.stripped_pair (parse_basic t)).
    { unfold parse_basic. apply emit_pending_stripped, fold_basic_stripped.
      constructor. }
    eapply Forall_impl; [|exact H]. intros c [x [y ->]]. exact I.
  - assert (H : Forall LoopNotions.stripped_content (parse_cloze t)).
    { unfold parse_cloze, cloze_finish.
      destruct (truthy (cz_current_card _)).
      - apply closed_card_stripped, fold_cloze_stripped. constructor.
      - apply fold_cloze_stripped. constructor. }
    eapply Forall_impl; [|exact H]. intros c [x ->]. exact I.
Qed.

Lemma preview_widgets_shown (fmt : card_format) (cards : list flashcard) :
  Forall (of_format fmt) cards ->
  preview_widgets to_plain fmt cards
  = Ok (List.map (shown_widget to_plain) cards).
Proof.
  induction 1 as [|c cards Hc Hcards IH]; [reflexivity|].
  cbn [preview_widgets]. rewrite IH.
  destruct fmt, c; try contradiction; reflexivity.
Qed.

Lemma skipn_nil_nth (boxes : list bool) (i : nat) :
  skipn i boxes = [] ->
  nth i boxes false = false /\ skipn (S i) boxes = [].
Proof.
  revert i. induction boxes as [|b boxes IH]; intros i H.
  - destruct i; auto.
  - destruct i as [|i]; [discriminate H|]. exact (IH i H).
Qed.

Lemma skipn_cons_nth (boxes : list bool) (i : nat) (b : bool) (rest : list bool) :
  skipn i boxes = b :: rest ->
  nth i boxes false = b /\ skipn (S i) boxes = rest.
Proof.
  revert i. induction boxes as [|x boxes IH]; intros i H.
  - destruct i; discriminate H.
  - destruct i as [|i].
    + injection H as -> ->. auto.
    + exact (IH i H).
Qed.

Lemma checked_cards_nil (cards : list flashcard) : checked_cards [] cards = [].
Proof. destruct cards; reflexivity. Qed.

(** The selection loop over cards whose widgets sit in the layout, from
    position [length pre] on. *)
Lemma select_displayed (d : dialog) (cards : list flashcard) :
  forall (pre tail : list layout_item),
    preview_layout d
    = pre ++ List.map (shown_widget to_plain) cards ++ tail ->
    Forall (of_format (format d)) cards ->
    select d (List.length pre) cards
    = Ok (List.map (shown to_plain)
            (checked_cards (skipn (List.length pre) (card_checkboxes d)) cards)).
Proof.
  induction cards as [|c cards IH]; intros pre tail Hl Hf.
  - simpl. destruct (skipn _ _); reflexivity.
  - inversion Hf as [|c' cards' Hc Hcards]; subst.
    assert (Hnext : select d (S (List.length pre)) cards
                    = Ok (List.map (shown to_plain)
                            (checked_cards
                               (skipn (S (List.length pre)) (card_checkboxes d))
                               cards))).
    { replace (S (List.length pre))
        with (List.length (pre ++ [shown_widget to_plain c]))
        by (rewrite length_app; simpl; lia).
      apply (IH (pre ++ [shown_widget to_plain c]) tail); [|exact Hcards].
      rewrite Hl, <- app_assoc. reflexivity. }
    assert (Hw : widget_at (preview_layout d) (List.length pre)
                 = Ok (Some match c with
                            | BasicCard f b => [to_plain f; to_plain b]
                            | ClozeCard t => [to_plain t]
                            end)).
    { unfold widget_at. rewrite Hl, nth_error_app2 by lia.
      rewrite Nat.sub_diag. simpl. destruct c; reflexivity. }
    cbn [select]. rewrite Hw, Hnext. cbn [bind].
    destruct (skipn (List.length pre) (card_checkboxes d)) as [|b rest] eqn:Es.
    + destruct (skipn_nil_nth _ _ Es) as [-> ->].
      rewrite !checked_cards_nil. reflexivity.
    + destruct (skipn_cons_nth _ _ _ _ Es) as [-> ->].
      cbn [checked_cards]. destruct b; [|reflexivity].
      cbn [app List.map]. f_equal. f_equal.
      unfold get_current_card_content.
      destruct (format d), c; try contradiction; reflexivity.
Qed.

End PreviewFacts.

(** X22.  After a generation the preview holds one widget per parsed card,
    showing its fields, and every box is unchecked; a commit that follows,
    whatever boxes were ticked meanwhile, selects the cards whose box is
    checked, in order, each with the content its widget shows. *)
Theorem commit_selects_displayed_cards :
  forall (to_plain : text -> text) (fmt : card_format) (final_text : text)
         (boxes : list bool),
  exists d,
    Generation.finish_generation to_plain fmt final_text = Ok d
    /\ Forall (fun b => b = false) (Commit.card_checkboxes d)
    /\ List.length (Commit.card_checkboxes d)
       = List.length (Parser.parse_flashcards fmt final_text)
    /\ Commit.select (Generation.with_checkboxes d boxes) 0
         (Parser.parse_flashcards (Commit.format d)
            (Commit.generated_flashcards d))
       = Ok (List.map (Generation.shown to_plain)
               (Generation.checked_cards boxes
                  (Parser.parse_flashcards fmt final_text))).
Proof.
  intros to_plain fmt final_text boxes.
  unfold Generation.finish_generation.
  pose proof (parse_of_format fmt final_text) as Hf.
  destruct (Parser.parse_flashcards fmt final_text) as [|c cards] eqn:Ep.
  - eexists. split; [reflexivity|].
    cbn [Commit.card_checkboxes Commit.format Commit.generated_flashcards].
    rewrite Ep. split; [constructor|]. split; [reflexivity|].
    destruct boxes; reflexivity.
  - rewrite (preview_widgets_shown to_plain fmt (c :: cards) Hf). cbn [bind].
    eexists. split; [reflexivity|].
    cbn [Commit.card_checkboxes Commit.format Commit.generated_flashcards].
    rewrite Ep. split.
    { apply Forall_forall. intros b Hb. apply repeat_spec in Hb. exact Hb. }
    split; [apply repeat_length|].
    apply (select_displayed to_plain
             (Generation.with_checkboxes
                (Commit.mkDialog final_text fmt
                   (repeat false (List.length (c :: cards)))
                   (List.map (Generation.shown_widget to_plain) (c :: cards)
                    ++ [Commit.Stretch]))
                boxes)
             (c :: cards) [] [Commit.Stretch]).
    + reflexivity.
    + exact Hf.
Qed.

(* ================================================================== *)
(** * Resizing the chat window *)
(* ================================================================== *)

Section ResizeFacts.

Import Resize.

Open Scope Z_scope.

Lemma wrap_id (z : Z) : -2147483648 <= z < 2147483648 -> wrap z = z.
Proof.
  intro H. unfold wrap. rewrite Z.mod_small by lia. lia.
Qed.

Lemma c_int_id (z : Z) : -2147483648 <= z < 2147483648 -> c_int z = Some z.
Proof.
  intro H. unfold c_int.
  destruct (Z.leb_spec (-2147483648) z); [|lia].
  destruct (Z.ltb_spec z 2147483648); [reflexivity | lia].
Qed.

Lemma direction_edges (d : direction) :
  contains (str "left") (direction_text d) = moves_left d
  /\ contains (str "right") (direction_text d) = moves_right d
  /\ contains (str "top") (direction_text d) = moves_top d
  /\ contains (str "bottom") (direction_text d) = moves_bottom d.
Proof. destruct d; vm_compute; auto. Qed.

Lemma resize_horizontal_spec (d : direction) (minimumWidth : Z)
      (start : QRect) (delta : QPoint) :
  on_screen (x1 start) -> on_screen (x2 start) ->
  -33554432 <= px delta <= 33554432 ->
  minimumWidth <= width start ->
  exists r,
    resize_horizontal (direction_text d) minimumWidth start delta start = Some r
    /\ y1 r = y1 start /\ y2 r = y2 start
    /\ minimumWidth <= width r
    /\ (moves_left d = true -> x2 r = x2 start)
    /\ (moves_left d = false -> x1 r = x1 start)
    /\ (moves_left d = false -> moves_right d = false -> x2 r = x2 start).
Proof.
  unfold on_screen. intros Hx1 Hx2 Hd Hmin.
  destruct (direction_edges d) as [El [Er _]].
  unfold resize_horizontal. rewrite El, Er.
  assert (Hw : width start = x2 start - x1 start + 1)
    by (unfold width; apply wrap_id; lia).
  rewrite Hw in *.
  destruct (moves_left d).
  - destruct (Z.geb_spec (x2 start - x1 start + 1 - px delta) minimumWidth).
    + rewrite !c_int_id by lia. eexists. split; [reflexivity|].
      unfold width, setWidth, setLeft. cbn [x1 y1 x2 y2].
      rewrite (wrap_id (x1 start + px delta
                        + (x2 start - x1 start + 1 - px delta) - 1)) by lia.
      rewrite wrap_id by lia.
      repeat split; intros; try discriminate; lia.
    + exists start. rewrite Hw.
      repeat split; intros; try discriminate; lia.
  - destruct (moves_right d).
    + destruct (Z.geb_spec (x2 start - x1 start + 1 + px delta) minimumWidth).
      * rewrite c_int_id by lia. eexists. split; [reflexivity|].
        unfold width, setWidth. cbn [x1 y1 x2 y2].
        rewrite (wrap_id (x1 start + (x2 start - x1 start + 1 + px delta) - 1))
          by lia.
        rewrite wrap_id by lia.
        repeat split; intros; try discriminate; lia.
      * exists start. rewrite Hw.
        repeat split; intros; try discriminate; lia.
    + exists start. rewrite Hw.
      repeat split; intros; try discriminate; lia.
Qed.

Lemma resize_vertical_spec (d : direction) (minimumHeight : Z)
      (start : QRect) (delta : QPoint) (new_rect : QRect) :
  on_screen (y1 start) -> on_screen (y2 start) ->
  -33554432 <= py delta <= 33554432 ->
  minimumHeight <= height start ->
  y1 new_rect = y1 start -> y2 new_rect = y2 start ->
  exists r,
    resize_vertical (direction_text d) minimumHeight start delta new_rect = Some r
    /\ x1 r = x1 new_rect /\ x2 r = x2 new_rect
    /\ minimumHeight <= height r
    /\ (moves_top d = true -> y2 r = y2 start)
    /\ (moves_top d = false -> y1 r = y1 start)
    /\ (moves_top d = false -> moves_bottom d = false -> y2 r = y2 start).
Proof.
  unfold on_screen. intros Hy1 Hy2 Hd Hmin E1 E2.
  destruct (direction_edges d) as [_ [_ [Et Eb]]].
  unfold resize_vertical. rewrite Et, Eb.
  assert (Hh : height start = y2 start - y1 start + 1)
    by (unfold height; apply wrap_id; lia).
  assert (Hn : height new_rect = y2 start - y1 start + 1)
    by (unfold height; rewrite E1, E2; apply wrap_id; lia).
  rewrite Hh in *.
  destruct (moves_top d).
  - destruct (Z.geb_spec (y2 start - y1 start + 1 - py delta) minimumHeight).
    + rewrite !c_int_id by lia. eexists. split; [reflexivity|].
      unfold height, setHeight, setTop. cbn [x1 y1 x2 y2].
      rewrite (wrap_id (y1 start + py delta
                        + (y2 start - y1 start + 1 - py delta) - 1)) by lia.
      rewrite wrap_id by lia.
      repeat split; intros; try discriminate; lia.
    + exists new_rect. rewrite Hn.
      repeat split; intros; try discriminate; lia.
  - destruct (moves_bottom d).
    + destruct (Z.geb_spec (y2 start - y1 start + 1 + py delta) minimumHeight).
      * rewrite c_int_id by lia. eexists. split; [reflexivity|].
        unfold height, setHeight. cbn [x1 y1 x2 y2]. rewrite E1.
        rewrite (wrap_id (y1 start + (y2 start - y1 start + 1 + py delta) - 1))
          by lia.
        rewrite wrap_id by lia.
        repeat split; intros; try discriminate; lia.
      * exists new_rect. rewrite Hn.
        repeat split; intros; try discriminate; lia.
    + exists new_rect. rewrite Hn.
      repeat split; intros; try discriminate; lia.
Qed.

End ResizeFacts.

(** X23.  Resizing by the mouse, with the window and the pointer on a
    screen: the handler never raises; a window that was at least as wide and
    as high as its minimum when the button was pressed is never asked to be
    narrower or lower than that; dragging a left (top) edge keeps the right
    (bottom) edge where it was, any other drag keeps the left (top) edge, and
    an edge the direction does not name stays in place. *)
Theorem resize_keeps_minimum_and_far_edge :
  forall (d : Resize.direction) (mouse0 pos : Resize.QPoint)
         (start geometry : Resize.QRect) (minimumWidth minimumHeight : Z),
    Resize.rect_on_screen start ->
    Resize.point_on_screen mouse0 ->
    Resize.point_on_screen pos ->
    (minimumWidth <= Resize.width start)%Z ->
    (minimumHeight <= Resize.height start)%Z ->
    exists r,
      Resize.handle_resize (Resize.mkGrip (Some d) true mouse0 start)
        minimumWidth minimumHeight geometry pos = Some r
      /\ (minimumWidth <= Resize.width r)%Z
      /\ (minimumHeight <= Resize.height r)%Z
      /\ (Resize.moves_left d = true -> Resize.x2 r = Resize.x2 start)
      /\ (Resize.moves_left d = false -> Resize.x1 r = Resize.x1 start)
      /\ (Resize.moves_left d = false -> Resize.moves_right d = false ->
          Resize.x2 r = Resize.x2 start)
      /\ (Resize.moves_top d = true -> Resize.y2 r = Resize.y2 start)
      /\ (Resize.moves_top d = false -> Resize.y1 r = Resize.y1 start)
      /\ (Resize.moves_top d = false -> Resize.moves_bottom d = false ->
          Resize.y2 r = Resize.y2 start).
Proof.
  intros d mouse0 pos start geometry minimumWidth minimumHeight
         [Hx1 [Hy1 [Hx2 Hy2]]] [Hmx Hmy] [Hpx Hpy] Hw Hh.
  unfold Resize.handle_resize.
  cbn [Resize.resize_direction Resize.resizing Resize.resize_start_mouse
       Resize.resize_start_geometry negb].
  assert (Hdx : (-33554432 <= Resize.px (Resize.point_sub pos mouse0)
                 <= 33554432)%Z).
  { unfold Resize.point_sub, Resize.on_screen in *. cbn [Resize.px].
    rewrite wrap_id; lia. }
  assert (Hdy : (-33554432 <= Resize.py (Resize.point_sub pos mouse0)
                 <= 33554432)%Z).
  { unfold Resize.point_sub, Resize.on_screen in *. cbn [Resize.py].
    rewrite wrap_id; lia. }
  destruct (resize_horizontal_spec d minimumWidth start
              (Resize.point_sub pos mouse0) Hx1 Hx2 Hdx Hw)
    as [r1 [-> [E1 [E2 [Hw1 [Hl1 [Hl2 Hl3]]]]]]].
  destruct (resize_vertical_spec d minimumHeight start
              (Resize.point_sub pos mouse0) r1 Hy1 Hy2 Hdy Hh E1 E2)
    as [r [-> [F1 [F2 [Hh1 [Ht1 [Ht2 Ht3]]]]]]].
  exists r. split; [reflexivity|].
  assert (Hwr : Resize.width r = Resize.width r1)
    by (unfold Resize.width; rewrite F1, F2; reflexivity).
  rewrite Hwr, F1, F2. repeat split; assumption.
Qed.

Lemma resize_keeps_minimum_and_far_edge_witness :
  exists r,
    Resize.handle_resize
      (Resize.mkGrip (Some Resize.LeftEdge) true (Resize.mkPoint 100 300)
         (Resize.mkRect 100 100 499 699))
      300 400 (Resize.mkRect 100 100 499 699) (Resize.mkPoint 350 300) = Some r
    /\ (300 <= Resize.width r)%Z
    /\ (400 <= Resize.height r)%Z
    /\ (Resize.moves_left Resize.LeftEdge = true ->
        Resize.x2 r = Resize.x2 (Resize.mkRect 100 100 499 699))
    /\ (Resize.moves_left Resize.LeftEdge = false ->
        Resize.x1 r = Resize.x1 (Resize.mkRect 100 100 499 699))
    /\ (Resize.moves_left Resize.LeftEdge = false ->
        Resize.moves_right Resize.LeftEdge = false ->
        Resize.x2 r = Resize.x2 (Resize.mkRect 100 100 499 699))
    /\ (Resize.moves_top Resize.LeftEdge = true ->
        Resize.y2 r = Resize.y2 (Resize.mkRect 100 100 499 699))
    /\ (Resize.moves_top Resize.LeftEdge = false ->
        Resize.y1 r = Resize.y1 (Resize.mkRect 100 100 499 699))
    /\ (Resize.moves_top Resize.LeftEdge = false ->
        Resize.moves_bottom Resize.LeftEdge = false ->
        Resize.y2 r = Resize.y2 (Resize.mkRect 100 100 499 699)).
Proof.
  apply (resize_keeps_minimum_and_far_edge Resize.LeftEdge
           (Resize.mkPoint 100 300) (Resize.mkPoint 350 300)
           (Resize.mkRect 100 100 499 699) (Resize.mkRect 100 100 499 699)
           300 400).
  - unfold Resize.rect_on_screen, Resize.on_screen. simpl. lia.
  - unfold Resize.point_on_screen, Resize.on_screen. simpl. lia.
  - unfold Resize.point_on_screen, Resize.on_screen. simpl. lia.
  - vm_compute. discriminate.
  - vm_compute. discriminate.
Defined.

(* ================================================================== *)
(** * The text of the card *)
(* ================================================================== *)

Section CardContentFacts.

Import Re CardContent.

Lemma replace_scan_unchanged (x : char) (old new : text) (s : text) :
  forallb (fun c => negb (c =? x)%N) s = true ->
  replace_scan (x :: old) new 0 s = s.
Proof.
  induction s as [|c s IH]; intro H; [reflexivity|].
  simpl in H. apply andb_prop in H. destruct H as [Hc Hs].
  cbn [replace_scan startswith]. rewrite N.eqb_sym.
  apply negb_true_iff in Hc. rewrite Hc. cbn [andb].
  rewrite (IH Hs). reflexivity.
Qed.

Lemma entities_unchanged (s : text) :
  forallb (fun c => negb (c =? 38)%N) s = true ->
  replace "&gt;" ">" (replace "&lt;" "<" (replace "&nbsp;" " " s)) = s.
Proof.
  intro H.
  assert (E : forall old new : string,
             match str old with x :: _ => x = 38%N | [] => False end ->
             replace old new s = s).
  { intros old new Hold. unfold replace.
    destruct (str old) as [|x old']; [contradiction|]. subst x.
    apply replace_scan_unchanged, H. }
  rewrite (E "&nbsp;"%string " "%string eq_refl).
  rewrite (E "&lt;"%string "<"%string eq_refl).
  apply (E "&gt;"%string ">"%string eq_refl).
Qed.

Lemma forallb_tail (p : char -> bool) (c : char) (s : text) :
  forallb p (c :: s) = true -> forallb p s = true.
Proof. simpl. intro H. apply andb_prop in H. apply H. Qed.

(** A tag needs its [<]. *)
Lemma no_tag_without_lt (s : text) (prev : option char) :
  forallb (fun c => negb (c =? 60)%N) s = true ->
  never_matches tag_pattern prev s.
Proof.
  intro H.
  apply (never_matches_by tag_pattern
           (fun _ s => forallb (fun c => negb (c =? 60)%N) s = true)).
  - intros prev' s' H'. apply match_at_none. intro k.
    apply chr_first_no_match. destruct s' as [|c s']; [exact I|].
    simpl in H'. apply andb_prop in H'. destruct H' as [Hc _].
    apply negb_true_iff, N.eqb_neq in Hc. exact Hc.
  - intros prev' c s'. apply forallb_tail.
  - exact H.
Qed.

(** A tag needs its [>]. *)
Lemma no_tag_without_gt (s : text) (prev : option char) :
  forallb (fun c => negb (c =? 62)%N) s = true ->
  never_matches tag_pattern prev s.
Proof.
  intro H.
  apply (never_matches_by tag_pattern
           (fun _ s => forallb (fun c => negb (c =? 62)%N) s = true)).
  - intros prev' s' H'. apply match_at_none. intro k.
    unfold tag_pattern. cbn [match_items match_atom].
    destruct s' as [|c s']; [reflexivity|].
    destruct (c =? 60)%N; [|reflexivity].
    apply forallb_tail in H'.
    match goal with
    | |- ?m = None => destruct m as [r|] eqn:E; [|reflexivity]
    end.
    exfalso. apply rep_greedy_some in E.
    destruct E as [pre [post [prev'' [Hs' [_ [_ Hk]]]]]].
    destruct post as [|y post]; cbn [match_atom] in Hk; [discriminate Hk|].
    destruct (y =? 62)%N eqn:Ey; [|discriminate Hk].
    rewrite Hs', forallb_app in H'. apply andb_prop in H'.
    destruct H' as [_ H']. simpl in H'. rewrite Ey in H'. discriminate H'.
  - intros prev' c s'. apply forallb_tail.
  - exact H.
Qed.

Lemma strip_html_markup_free (t : text) :
  markup_free t = true -> strip_html t = Ok (strip t).
Proof.
  unfold markup_free. intro H. apply andb_prop in H. destruct H as [Htag Hamp].
  unfold strip_html. rewrite sub_ok by reflexivity. cbn [bind].
  assert (E : sub_scan tag_pattern [] 0 None t = t).
  { apply sub_scan_unchanged. apply orb_prop in Htag.
    destruct Htag as [Hlt|Hgt];
      [apply no_tag_without_lt, Hlt | apply no_tag_without_gt, Hgt]. }
  rewrite E, (entities_unchanged t Hamp). reflexivity.
Qed.

Lemma rstrip_snoc_space (s : text) (c : char) :
  isspace c = true -> rstrip (s ++ [c]) = rstrip s.
Proof.
  intro Hc. induction s as [|x s IH].
  - simpl. rewrite Hc. reflexivity.
  - cbn [app rstrip]. rewrite IH. reflexivity.
Qed.

End CardContentFacts.

(** X24.  For a card whose question and answer hold no complete tag (no
    [<], or no [>]) and no [&], the text of the card is [Question: ] and the
    stripped question, followed, when the stripped answer is not empty and
    differs from the stripped question, by a new line with [Answer: ] and
    the stripped answer; a lone [<] or [>] is kept. *)
Theorem card_content_of_plain_sides :
  forall q a : text,
    CardContent.markup_free q = true ->
    CardContent.markup_free a = true ->
    strip q <> [] ->
    CardContent.get_card_content (Ok q) (Ok a)
    = str "Question: " ++ strip q
      ++ (if truthy (strip a) && negb (text_eqb (strip a) (strip q))
          then LF :: str "Answer: " ++ strip a
          else []).
Proof.
  intros q a Hq Ha Hne. unfold CardContent.get_card_content. cbn [bind].
  rewrite (strip_html_markup_free q Hq). cbn [bind].
  rewrite (strip_html_markup_free a Ha). cbn [bind].
  destruct (truthy (strip a) && negb (text_eqb (strip a) (strip q))) eqn:E.
  - apply andb_prop in E. destruct E as [Hta _].
    apply truthy_true in Hta.
    assert (G : strip (81%N :: (str "uestion: " ++ strip q ++ [LF] ++ str "Answer: ")
                       ++ strip a)
                = 81%N :: (str "uestion: " ++ strip q ++ [LF] ++ str "Answer: ")
                  ++ strip a)
      by exact (strip_prefixed 81%N _ (strip a) eq_refl Hta (strip_idem a)).
    assert (L : (str "Question: " ++ strip q ++ [LF]) ++ str "Answer: " ++ strip a
                = 81%N :: (str "uestion: " ++ strip q ++ [LF] ++ str "Answer: ")
                  ++ strip a).
    { change (str "Question: ") with (81%N :: str "uestion: ").
      cbn [app]. f_equal. repeat rewrite <- app_assoc. reflexivity. }
    assert (R : str "Question: " ++ strip q ++ LF :: str "Answer: " ++ strip a
                = 81%N :: (str "uestion: " ++ strip q ++ [LF] ++ str "Answer: ")
                  ++ strip a).
    { change (str "Question: ") with (81%N :: str "uestion: ").
      cbn [app]. f_equal. repeat rewrite <- app_assoc. reflexivity. }
    rewrite L, R. exact G.
  - rewrite app_nil_r. unfold strip at 1.
    change (str "Question: ") with ((81 :: str "uestion: ")%N).
    cbn [app]. rewrite (lstrip_solid_head 81%N _ eq_refl).
    change (81%N :: str "uestion: " ++ strip q ++ [LF])
      with ((81%N :: str "uestion: ") ++ strip q ++ [LF]).
    rewrite app_assoc, (rstrip_snoc_space _ LF eq_refl).
    rewrite rstrip_app; rewrite (fixed_rstrip (strip q) (strip_idem q));
      [reflexivity | exact Hne].
Qed.

Lemma card_content_of_plain_sides_witness :
  CardContent.get_card_content (Ok (str " 1 < 2 ? ")) (Ok (str "yes"))
  = str "Question: " ++ strip (str " 1 < 2 ? ")
    ++ (if truthy (strip (str "yes"))
           && negb (text_eqb (strip (str "yes")) (strip (str " 1 < 2 ? ")))
        then LF :: str "Answer: " ++ strip (str "yes")
        else []).
Proof.
  apply (card_content_of_plain_sides (str " 1 < 2 ? ") (str "yes")).
  - reflexivity.
  - reflexivity.
  - vm_compute. discriminate.
Defined.

(* ================================================================== *)
(** * The formatter on one span *)
(* ================================================================== *)

Section SpanFacts.

Import Re Formatter Spans.

Lemma chr_never_matches (x : char) (pat : pattern) :
  forall s prev,
    Forall (fun c => c <> x) s -> never_matches (Plain (Chr x) :: pat) prev s.
Proof.
  apply (never_matches_by (Plain (Chr x) :: pat)
           (fun _ s => Forall (fun c => c <> x) s)).
  - intros prev s Hs. apply match_at_none. intro k.
    apply chr_first_no_match. destruct s as [|c s]; [exact I|].
    inversion Hs; assumption.
  - intros prev c s Hs. inversion Hs; assumption.
Qed.

Lemma chars_match (d : text) (pat : pattern) (caps : list text)
      (k : list text -> cont answer) :
  forall (prev : option char) (rest : text),
    match_items (chars d ++ pat) caps k prev (d ++ rest)
    = match_items pat caps k (after prev d) rest.
Proof.
  induction d as [|c d IH]; intros prev rest; [reflexivity|].
  change (chars (c :: d) ++ pat) with (Plain (Chr c) :: chars d ++ pat).
  cbn [match_items match_atom app]. rewrite N.eqb_refl. apply IH.
Qed.

Lemma consumed_app (x r : text) : consumed (x ++ r) r = x.
Proof.
  unfold consumed. rewrite length_app.
  replace (List.length x + List.length r - List.length r)%nat
    with (List.length x) by lia.
  rewrite firstn_app, Nat.sub_diag, firstn_all. simpl. apply app_nil_r.
Qed.

(** A lazy repetition stops at the first position where what follows it
    matches. *)
Lemma rep_lazy_skip (R : Type) (K : cont R) (rest : text) (r : R) :
  forall (x : text) (prev : option char),
    forallb dot x = true ->
    (forall x1 c x2, x = x1 ++ c :: x2 ->
                     K (after prev x1) (c :: x2 ++ rest) = None) ->
    K (after prev x) rest = Some r ->
    rep_lazy dot 0 K prev (x ++ rest) = Some r.
Proof.
  induction x as [|c x IH]; intros prev Hdot Hnone Hend.
  - simpl in Hend. destruct rest; simpl; rewrite Hend; reflexivity.
  - simpl in Hdot. apply andb_prop in Hdot. destruct Hdot as [Hc Hdot].
    cbn [app rep_lazy].
    pose proof (Hnone [] c x eq_refl) as H0.
    change (after prev []) with prev in H0. rewrite H0, Hc.
    apply IH; [exact Hdot | | exact Hend].
    intros x1 c' x2 E. apply (Hnone (c :: x1) c' x2). rewrite E. reflexivity.
Qed.

Lemma span_match_at (c0 : char) (d' x post : text) (prev : option char) :
  Forall (fun c => c <> c0) x -> forallb dot x = true ->
  match_at (delimited (c0 :: d')) false prev
           ((c0 :: d') ++ x ++ (c0 :: d') ++ post)
  = Some (List.length ((c0 :: d') ++ x ++ (c0 :: d')), [x]).
Proof.
  intros Hx Hdot. unfold match_at, delimited.
  rewrite chars_match.
  cbn [app match_items match_atoms match_atom].
  rewrite (rep_lazy_skip _ _ _ (post, [x])).
  - f_equal. f_equal.
    replace (c0 :: d' ++ x ++ c0 :: d' ++ post)
      with ((c0 :: d' ++ x ++ c0 :: d') ++ post)
      by (cbn [app]; rewrite <- !app_assoc; reflexivity).
    rewrite (length_app (c0 :: d' ++ x ++ c0 :: d') post). lia.
  - exact Hdot.
  - intros x1 c x2 E. cbn [List.map].
    apply chr_first_no_match.
    rewrite E in Hx. apply Forall_app in Hx. destruct Hx as [_ Hx].
    inversion Hx; assumption.
  - rewrite (consumed_app x (c0 :: d' ++ post)).
    change (c0 :: d' ++ post) with ((c0 :: d') ++ post).
    pose proof (chars_match (c0 :: d') [] [x]
                  (fun caps (_ : option char) rest' =>
                     if false && (List.length rest' =?
                                  List.length (c0 :: d' ++ x ++ c0 :: d' ++ post))%nat
                     then None else Some (rest', caps))
                  (after (after prev (c0 :: d')) x) post) as Hm.
    rewrite app_nil_r in Hm. exact Hm.
Qed.

Lemma scan_prefix (c0 : char) (pat : pattern) (tm : template) :
  forall (pre : text) (prev : option char) (rest : text),
    Forall (fun c => c <> c0) pre ->
    sub_scan (Plain (Chr c0) :: pat) tm 0 prev (pre ++ rest)
    = pre ++ sub_scan (Plain (Chr c0) :: pat) tm 0 (after prev pre) rest.
Proof.
  induction pre as [|c pre IH]; intros prev rest H; [reflexivity|].
  inversion H as [|? ? Hc Hpre]; subst.
  cbn [app sub_scan].
  rewrite (match_at_none (Plain (Chr c0) :: pat) false prev (c :: pre ++ rest)).
  - rewrite (IH (Some c) rest Hpre). reflexivity.
  - intro k. apply chr_first_no_match. exact Hc.
Qed.

Lemma scan_skip (pat : pattern) (tm : template) :
  forall (l : text) (prev : option char) (rest : text),
    sub_scan pat tm (List.length l) prev (l ++ rest)
    = sub_scan pat tm 0 (after prev l) rest.
Proof.
  induction l as [|c l IH]; intros prev rest; [reflexivity|].
  cbn [app List.length sub_scan]. apply IH.
Qed.

(** Replacing the one span of a text whose other characters are not the
    first character of the delimiter. *)
Lemma span_sub (c0 : char) (d' : text) (tm : template) (pre x post : text)
      (prev : option char) :
  Forall (fun c => c <> c0) pre -> Forall (fun c => c <> c0) x ->
  Forall (fun c => c <> c0) post -> forallb dot x = true ->
  sub_scan (delimited (c0 :: d')) tm 0 prev
           (pre ++ (c0 :: d') ++ x ++ (c0 :: d') ++ post)
  = pre ++ expand tm [x] ++ post.
Proof.
  intros Hpre Hx Hpost Hdot.
  change (delimited (c0 :: d'))
    with (Plain (Chr c0) :: chars d' ++ [Group [Rep Lazy 0 dot]]
                         ++ chars (c0 :: d')).
  rewrite (scan_prefix c0 _ tm pre prev _ Hpre). f_equal.
  change (Plain (Chr c0) :: chars d' ++ [Group [Rep Lazy 0 dot]]
                         ++ chars (c0 :: d'))
    with (delimited (c0 :: d')).
  change ((c0 :: d') ++ x ++ (c0 :: d') ++ post)
    with (c0 :: d' ++ x ++ (c0 :: d') ++ post).
  cbn [sub_scan].
  change (c0 :: d' ++ x ++ (c0 :: d') ++ post)
    with ((c0 :: d') ++ x ++ (c0 :: d') ++ post).
  rewrite (span_match_at c0 d' x post (after prev pre) Hx Hdot).
  change (List.length ((c0 :: d') ++ x ++ c0 :: d'))
    with (S (List.length (d' ++ x ++ c0 :: d'))).
  cbv beta iota. f_equal.
  replace (d' ++ x ++ (c0 :: d') ++ post)
    with ((d' ++ x ++ c0 :: d') ++ post)
    by (rewrite <- !app_assoc; reflexivity).
  rewrite scan_skip. apply sub_scan_unchanged.
  change (delimited (c0 :: d'))
    with (Plain (Chr c0) :: chars d' ++ [Group [Rep Lazy 0 dot]]
                         ++ chars (c0 :: d')).
  apply chr_never_matches, Hpost.
Qed.

End SpanFacts.

Section SpanRendering.

Import Re Formatter Spans.

Variable is_decimal : char -> bool.

Lemma quiet_parts (l : text) :
  forallb quiet l = true ->
  Forall (fun c => c <> 42%N) l /\ Forall (fun c => c <> 96%N) l
  /\ Forall (fun c => c <> LF) l /\ forallb dot l = true.
Proof.
  induction l as [|c l IH]; intro H.
  - repeat split; constructor.
  - simpl in H. apply andb_prop in H. destruct H as [Hc Hl].
    destruct (IH Hl) as [H1 [H2 [H3 H4]]].
    unfold quiet in Hc. apply andb_prop in Hc. destruct Hc as [Hc Hlf].
    apply andb_prop in Hc. destruct Hc as [Hstar Htick].
    apply negb_true_iff in Hstar, Htick, Hlf.
    repeat split; try constructor; try assumption;
      try (apply N.eqb_neq; assumption).
    simpl. unfold dot at 1. rewrite Hlf. exact H4.
Qed.

Lemma rendered_parts (k : span_kind) (x : text) :
  rendered k x = opening k ++ x ++ closing k.
Proof.
  destruct k; unfold rendered, opening, closing, expand;
    cbn [span_template code_template flat_map nth Nat.pred];
    rewrite app_nil_r; reflexivity.
Qed.

Lemma opening_quiet (k : span_kind) :
  forallb quiet (opening k) = true /\ forallb quiet (closing k) = true
  /\ exists o, opening k = 60%N :: o.
Proof.
  destruct k; (split; [vm_compute; reflexivity|]);
    (split; [vm_compute; reflexivity|]); eexists; vm_compute; reflexivity.
Qed.

Lemma replace_char_none (t : text) :
  Forall (fun c => c <> LF) t -> replace_char LF (str "<br>") t = t.
Proof.
  induction 1 as [|c t Hc Ht IH]; [reflexivity|].
  simpl. apply N.eqb_neq in Hc. rewrite Hc, IH. reflexivity.
Qed.

Lemma header_unchanged (m : string) (m' : text) (tm : template) (t : text) :
  str m = 35%N :: m' ->
  Forall (fun c => c <> LF) t ->
  match t with [] => True | c :: _ => c <> 35%N end ->
  sub_scan (header_pattern m) tm 0 None t = t.
Proof.
  intros Hm Hlf Hfirst. apply sub_scan_unchanged.
  unfold header_pattern.
  apply (bol_never_matches (lit m ++ [Group [Rep Greedy 1 dot]; Plain Eol]) t Hlf).
  apply (bol_chars_no_match m). intros _. rewrite Hm.
  destruct t as [|c t]; [reflexivity|].
  cbn [startswith]. apply N.eqb_neq in Hfirst. rewrite N.eqb_sym, Hfirst.
  reflexivity.
Qed.

Lemma numbered_unchanged (t : text) :
  Forall (fun c => c <> LF) t -> list_marker is_decimal t = false ->
  sub_scan (numbered_pattern is_decimal) numbered_template 0 None t = t.
Proof.
  intros Hlf Hm. apply sub_scan_unchanged.
  apply bol_never_matches; [exact Hlf|].
  unfold match_at.
  match goal with
  | |- context [match_items ?p ?c ?k ?pr ?s] =>
      destruct (match_items p c k pr s) as [r|] eqn:E; [|reflexivity]
  end.
  apply numbered_match_marker in E. congruence.
Qed.

Lemma bullet_unchanged (t : text) :
  Forall (fun c => c <> LF) t -> bullet_marker t = false ->
  sub_scan bullet_pattern bullet_template 0 None t = t.
Proof.
  intros Hlf Hm. apply sub_scan_unchanged.
  apply bol_never_matches; [exact Hlf|].
  unfold match_at.
  match goal with
  | |- context [match_items ?p ?c ?k ?pr ?s] =>
      destruct (match_items p c k pr s) as [r|] eqn:E; [|reflexivity]
  end.
  apply bullet_match_marker in E. congruence.
Qed.

Lemma markers_off (c : char) (l : text) :
  is_decimal c = false -> is_bullet c = false ->
  list_marker is_decimal (c :: l) = false /\ bullet_marker (c :: l) = false.
Proof.
  intros Hd Hb. split.
  - simpl. rewrite Hd. reflexivity.
  - destruct l; simpl; [reflexivity|]. rewrite Hb. reflexivity.
Qed.

(** ** Two asterisks side by side *)

Lemma bold_needs_double :
  forall s prev, no_double s = true -> never_matches bold_pattern prev s.
Proof.
  apply (never_matches_by bold_pattern (fun _ s => no_double s = true)).
  - intros prev s H. apply match_at_none. intro k.
    change bold_pattern
      with (Plain (Chr 42%N) :: Plain (Chr 42%N)
            :: ([Group [Rep Lazy 0 dot]] ++ lit "**")).
    cbn [match_items match_atom].
    destruct s as [|a [|b s]]; try reflexivity.
    + destruct (a =? 42)%N; reflexivity.
    + change (no_double (a :: b :: s))
        with (negb ((a =? 42)%N && (b =? 42)%N) && no_double (b :: s)) in H.
      apply andb_prop in H. destruct H as [H _].
      apply negb_true_iff in H.
      destruct (a =? 42)%N eqn:Ea; [|reflexivity].
      destruct (b =? 42)%N eqn:Eb; [discriminate H | reflexivity].
  - intros prev c s H. destruct s as [|b s]; [reflexivity|].
    change (no_double (c :: b :: s))
      with (negb ((c =? 42)%N && (b =? 42)%N) && no_double (b :: s)) in H.
    apply andb_prop in H. apply H.
Qed.

Lemma no_double_cons (a b : char) (s : text) :
  no_double (a :: b :: s)
  = negb ((a =? 42)%N && (b =? 42)%N) && no_double (b :: s).
Proof. reflexivity. Qed.

Lemma no_double_head (c : char) (s : text) :
  c <> 42%N -> no_double s = true -> no_double (c :: s) = true.
Proof.
  intros Hc Hs. destruct s as [|b s]; [reflexivity|].
  rewrite no_double_cons. apply N.eqb_neq in Hc. rewrite Hc, Hs. reflexivity.
Qed.

Lemma no_double_star (s : text) :
  match s with [] => True | c :: _ => c <> 42%N end ->
  no_double s = true -> no_double (42%N :: s) = true.
Proof.
  intros Hc Hs. destruct s as [|b s]; [reflexivity|].
  rewrite no_double_cons. apply N.eqb_neq in Hc. rewrite Hc, Hs.
  rewrite andb_false_r. reflexivity.
Qed.

Lemma no_double_app_star (l r : text) :
  Forall (fun c => c <> 42%N) l ->
  match r with [] => True | c :: _ => c <> 42%N end ->
  no_double r = true ->
  no_double (l ++ 42%N :: r) = true.
Proof.
  intros Hl Hr Hnr. induction Hl as [|c l Hc Hl IH].
  - apply no_double_star; assumption.
  - apply (no_double_head c (l ++ 42%N :: r) Hc IH).
Qed.

Lemma no_double_quiet (l : text) :
  Forall (fun c => c <> 42%N) l -> no_double l = true.
Proof.
  induction 1 as [|c l Hc Hl IH]; [reflexivity|].
  apply no_double_head; assumption.
Qed.

End SpanRendering.

(** X25.  One bold, italic or code span in a one-line text: when the text
    around the span and its content hold no asterisk, no back quote and no
    line feed, and the text does not start with a digit, a bullet character
    or a hash sign, the formatter returns the text with the span replaced by
    its element ([<b>], [<i>] or the styled [<code>]) around the content,
    and nothing else changed.  (The content of an italic span is taken
    non-empty; the table of decimal digits does not hold [<].) *)
Theorem single_span_is_rendered :
  forall (is_decimal : char -> bool) (k : Spans.span_kind) (pre x post : text),
    is_decimal 60%N = false ->
    forallb Spans.quiet (pre ++ x ++ post) = true ->
    Spans.starts_plain is_decimal pre = true ->
    (k = Spans.Italic -> x <> []) ->
    Formatter.convert_markdown_to_html is_decimal
      (pre ++ str (Spans.delimiter k) ++ x ++ str (Spans.delimiter k) ++ post)
    = Ok (pre ++ Spans.rendered k x ++ post).
Proof.
  intros is_decimal k pre x post H60 Hq Hs Hk.
  rewrite convert_unfolded.
  rewrite !forallb_app in Hq. apply andb_prop in Hq. destruct Hq as [Hpre Hq].
  apply andb_prop in Hq. destruct Hq as [Hx Hpost].
  destruct (quiet_parts pre Hpre) as [Spre [Tpre [Lpre _]]].
  destruct (quiet_parts x Hx) as [Sx [Tx [Lx Dx]]].
  destruct (quiet_parts post Hpost) as [Spost [Tpost [Lpost _]]].
  set (t := pre ++ str (Spans.delimiter k) ++ x ++ str (Spans.delimiter k) ++ post).
  assert (Ld : Forall (fun c => c <> LF) (str (Spans.delimiter k)))
    by (destruct k; repeat constructor; discriminate).
  assert (Lt : Forall (fun c => c <> LF) t)
    by (unfold t; repeat (apply Forall_app; split); assumption).
  assert (Ft : match t with [] => True | c :: _ => c <> 35%N end).
  { unfold t. destruct pre as [|c pre].
    - destruct k; simpl; discriminate.
    - simpl in Hs. apply andb_prop in Hs. destruct Hs as [_ Hs].
      apply negb_true_iff, N.eqb_neq in Hs. exact Hs. }
  rewrite (header_unchanged "### " (str "## ") _ t eq_refl Lt Ft).
  rewrite (header_unchanged "## " (str "# ") _ t eq_refl Lt Ft).
  rewrite (header_unchanged "# " (str " ") _ t eq_refl Lt Ft).
  destruct (opening_quiet k) as [Qo [Qc [o Ho]]].
  destruct (quiet_parts _ Qo) as [So [To [Lo _]]].
  destruct (quiet_parts _ Qc) as [Sc [Tc [Lc _]]].
  set (t1 := pre ++ Spans.rendered k x ++ post).
  assert (S1 : Forall (fun c => c <> 42%N) t1)
    by (unfold t1; rewrite rendered_parts;
        repeat (apply Forall_app; split); assumption).
  assert (T1 : Forall (fun c => c <> 96%N) t1)
    by (unfold t1; rewrite rendered_parts;
        repeat (apply Forall_app; split); assumption).
  assert (L1 : Forall (fun c => c <> LF) t1)
    by (unfold t1; rewrite rendered_parts;
        repeat (apply Forall_app; split); assumption).
  assert (Hspans :
            Re.sub_scan Formatter.code_pattern Formatter.code_template 0 None
              (Re.sub_scan Formatter.italic_pattern
                 [Re.TLit (str "<i>"); Re.TRef 1; Re.TLit (str "</i>")] 0 None
                 (Re.sub_scan Formatter.bold_pattern
                    [Re.TLit (str "<b>"); Re.TRef 1; Re.TLit (str "</b>")] 0 None
                    t))
            = t1).
  { destruct k.
    - assert (E : Re.sub_scan Formatter.bold_pattern
                    [Re.TLit (str "<b>"); Re.TRef 1; Re.TLit (str "</b>")] 0 None t
                  = t1)
        by exact (span_sub 42%N [42%N] _ pre x post None Spre Sx Spost Dx).
      rewrite E.
      rewrite (sub_scan_unchanged Formatter.italic_pattern _ t1 None)
        by exact (chr_never_matches 42%N _ t1 None S1).
      apply sub_scan_unchanged. exact (chr_never_matches 96%N _ t1 None T1).
    - assert (Hd : Spans.no_double t = true).
      { unfold t. apply (no_double_app_star pre _ Spre).
        - destruct x as [|c x]; [exfalso; apply Hk; reflexivity|].
          inversion Sx; assumption.
        - apply (no_double_app_star x _ Sx).
          + destruct post as [|c post]; [exact I | inversion Spost; assumption].
          + apply no_double_quiet, Spost. }
      rewrite (sub_scan_unchanged Formatter.bold_pattern _ t None)
        by exact (bold_needs_double t None Hd).
      assert (E : Re.sub_scan Formatter.italic_pattern
                    [Re.TLit (str "<i>"); Re.TRef 1; Re.TLit (str "</i>")] 0 None t
                  = t1)
        by exact (span_sub 42%N [] _ pre x post None Spre Sx Spost Dx).
      rewrite E.
      apply sub_scan_unchanged. exact (chr_never_matches 96%N _ t1 None T1).
    - assert (St : Forall (fun c => c <> 42%N) t).
      { unfold t. repeat (apply Forall_app; split); try assumption;
          repeat constructor; discriminate. }
      rewrite (sub_scan_unchanged Formatter.bold_pattern _ t None)
        by exact (chr_never_matches 42%N _ t None St).
      rewrite (sub_scan_unchanged Formatter.italic_pattern _ t None)
        by exact (chr_never_matches 42%N _ t None St).
      exact (span_sub 96%N [] _ pre x post None Tpre Tx Tpost Dx). }
  rewrite Hspans, (replace_char_none t1 L1).
  assert (Hm : Formatter.list_marker is_decimal t1 = false
               /\ Formatter.bullet_marker t1 = false).
  { unfold t1. destruct pre as [|c pre].
    - rewrite rendered_parts, Ho. apply markers_off; [exact H60 | reflexivity].
    - simpl in Hs. apply andb_prop in Hs. destruct Hs as [Hs _].
      apply andb_prop in Hs. destruct Hs as [Hdec Hbul].
      apply negb_true_iff in Hdec, Hbul. apply markers_off; assumption. }
  destruct Hm as [Hlist Hbullet].
  rewrite (numbered_unchanged is_decimal t1 L1 Hlist).
  rewrite (bullet_unchanged t1 L1 Hbullet).
  reflexivity.
Qed.

Lemma single_span_is_rendered_witness :
  Formatter.convert_markdown_to_html (fun c => (48 <=? c)%N && (c <=? 57)%N)
    (str "An " ++ str (Spans.delimiter Spans.Bold) ++ str "enzyme"
     ++ str (Spans.delimiter Spans.Bold) ++ str " speeds it up.")
  = Ok (str "An " ++ Spans.rendered Spans.Bold (str "enzyme")
        ++ str " speeds it up.").
Proof.
  apply (single_span_is_rendered (fun c => (48 <=? c)%N && (c <=? 57)%N)
           Spans.Bold (str "An ") (str "enzyme") (str " speeds it up."));
    try reflexivity.
  discriminate.
Defined.

(* ================================================================== *)
(** * The formatter on headers and list entries *)
(* ================================================================== *)

Section EntryFacts.

Import Re Formatter Spans Entries.

Variable is_decimal : char -> bool.

(** A greedy repetition that can take all of [x] and no more, before
    something that matches right there. *)
Lemma rep_greedy_exact (R : Type) (p : char -> bool) (K : cont R)
      (rest : text) (r : R) :
  forall (x : text) (min : nat) (prev : option char),
    forallb p x = true ->
    match rest with [] => True | c :: _ => p c = false end ->
    (min <= List.length x)%nat ->
    K (after prev x) rest = Some r ->
    rep_greedy p min K prev (x ++ rest) = Some r.
Proof.
  induction x as [|c x IH]; intros min prev Hp Hrest Hmin HK.
  - simpl in Hmin. assert (min = 0%nat) by lia. subst min.
    simpl in HK. destruct rest as [|c rest]; simpl.
    + exact HK.
    + rewrite Hrest. exact HK.
  - simpl in Hp. apply andb_prop in Hp. destruct Hp as [Hc Hp].
    cbn [app rep_greedy]. rewrite Hc.
    rewrite (IH (Nat.pred min) (Some c) Hp Hrest); [reflexivity| |exact HK].
    simpl in Hmin. lia.
Qed.

Lemma rep_greedy_all (R : Type) (p : char -> bool) (K : cont R) (r : R)
      (x : text) (min : nat) (prev : option char) :
  forallb p x = true -> (min <= List.length x)%nat ->
  K (after prev x) [] = Some r ->
  rep_greedy p min K prev x = Some r.
Proof.
  intros Hp Hmin HK.
  pose proof (rep_greedy_exact R p K [] r x min prev Hp I Hmin HK) as H.
  rewrite app_nil_r in H. exact H.
Qed.

Lemma consumed_all (x : text) : consumed x [] = x.
Proof.
  pose proof (consumed_app x []) as H. rewrite app_nil_r in H. exact H.
Qed.

Lemma after_last (P : char -> Prop) (u : text) :
  forall prev, u <> [] -> Forall P u -> exists c, after prev u = Some c /\ P c.
Proof.
  induction u as [|c u IH]; intros prev Hne HP; [contradiction|].
  inversion HP as [|? ? Hc Hu]; subst.
  destruct u as [|d u].
  - exists c. split; [reflexivity | exact Hc].
  - apply (IH (Some c)); [discriminate | exact Hu].
Qed.

(** A pattern anchored at the start of a line that matches a whole text
    without line feed: the substitution is the template. *)
Lemma whole_match (pat : pattern) (tm : template) (u : text) (caps : list text) :
  u <> [] -> Forall (fun c => c <> LF) u ->
  match_at (Plain Bol :: pat) false None u = Some (List.length u, caps) ->
  sub_scan (Plain Bol :: pat) tm 0 None u = expand tm caps.
Proof.
  intros Hne Hlf Hm. destruct u as [|c u]; [contradiction|].
  cbn [sub_scan]. rewrite Hm. cbn [List.length].
  pose proof (scan_skip (Plain Bol :: pat) tm u (Some c) []) as Hs.
  rewrite app_nil_r in Hs. rewrite Hs.
  destruct (after_last (fun c => c <> LF) (c :: u) None Hne Hlf) as [d [Hd Hdlf]].
  change (after None (c :: u)) with (after (Some c) u) in Hd. rewrite Hd.
  cbn [sub_scan].
  rewrite (match_at_none (Plain Bol :: pat) false (Some d) []).
  - apply app_nil_r.
  - intro k. rewrite bol_first. simpl. apply N.eqb_neq in Hdlf.
    rewrite Hdlf. reflexivity.
Qed.

Lemma hashless_never_matches (m : string) (m' : text) :
  str m = 35%N :: m' ->
  Forall (fun c => c <> LF) (str m) ->
  forall s prev, hashless_ahead prev s -> never_matches (header_pattern m) prev s.
Proof.
  intros Hm Hlf.
  apply (never_matches_by (header_pattern m) hashless_ahead).
  - intros prev s Hs. unfold header_pattern.
    apply bol_chars_no_match. intro Hstart.
    rewrite (startswith_first_line (str m) Hlf).
    pose proof (lines_ahead_first _ prev s Hs Hstart) as Hl.
    unfold hashless in Hl. apply negb_true_iff in Hl. rewrite Hm.
    destruct (first_line s) as [|c l]; [reflexivity|].
    simpl in Hl. rewrite andb_true_r in Hl. simpl. rewrite Hl. reflexivity.
  - intros prev c s. apply lines_ahead_next.
Qed.

Lemma headers_unchanged_hashless (t : text) :
  forallb hashless (split LF t) = true ->
  sub_scan (header_pattern "# ") (header_template "h1" "20px" "20px 0 12px 0")
    0 None
    (sub_scan (header_pattern "## ")
       (header_template "h2" "18px" "16px 0 10px 0") 0 None
       (sub_scan (header_pattern "### ")
          (header_template "h3" "16px" "12px 0 8px 0") 0 None t))
  = t.
Proof.
  intro H.
  assert (Ha : hashless_ahead None t) by exact H.
  rewrite (sub_scan_unchanged (header_pattern "### ") _ t None)
    by (apply (hashless_never_matches "### " (str "## ") eq_refl);
        [repeat constructor; discriminate | exact Ha]).
  rewrite (sub_scan_unchanged (header_pattern "## ") _ t None)
    by (apply (hashless_never_matches "## " (str "# ") eq_refl);
        [repeat constructor; discriminate | exact Ha]).
  apply sub_scan_unchanged.
  apply (hashless_never_matches "# " (str " ") eq_refl);
    [repeat constructor; discriminate | exact Ha].
Qed.

Lemma spans_unchanged (t : text) :
  no_span_marker t ->
  sub_scan code_pattern code_template 0 None
    (sub_scan italic_pattern
       [TLit (str "<i>"); TRef 1; TLit (str "</i>")] 0 None
       (sub_scan bold_pattern
          [TLit (str "<b>"); TRef 1; TLit (str "</b>")] 0 None t))
  = t.
Proof.
  intro Hno.
  rewrite (sub_scan_unchanged bold_pattern _ t None)
    by exact (span_never_matches 42%N _ eq_refl t None Hno).
  rewrite (sub_scan_unchanged italic_pattern _ t None)
    by exact (span_never_matches 42%N _ eq_refl t None Hno).
  apply sub_scan_unchanged.
  exact (span_never_matches 96%N _ eq_refl t None Hno).
Qed.

Lemma replace_char_app (a b : text) :
  replace_char LF (str "<br>") (a ++ b)
  = replace_char LF (str "<br>") a ++ replace_char LF (str "<br>") b.
Proof.
  induction a as [|c a IH]; [reflexivity|].
  simpl. rewrite IH. destruct (c =? LF)%N; reflexivity.
Qed.

Lemma no_lf_dot (l : text) : Forall (fun c => c <> LF) l -> forallb dot l = true.
Proof.
  induction 1 as [|c l Hc Hl IH]; [reflexivity|].
  simpl. unfold dot at 1. apply N.eqb_neq in Hc. rewrite Hc. exact IH.
Qed.

Lemma replace_starts_solid (body : text) :
  starts_solid body = true ->
  exists c rest, replace_char LF (str "<br>") body = c :: rest
                 /\ isspace c = false.
Proof.
  destruct body as [|c body]; [discriminate|]. simpl. intro H.
  apply negb_true_iff in H.
  destruct (c =? LF)%N eqn:E.
  - apply N.eqb_eq in E. subst c. discriminate H.
  - eexists. eexists. split; [reflexivity | exact H].
Qed.

End EntryFacts.

Section EntryRendering.

Import Re Formatter Spans Entries.

Variable is_decimal : char -> bool.

Lemma quiet_no_span (l : text) : forallb quiet l = true -> no_span_marker l.
Proof.
  intro H. destruct (quiet_parts l H) as [S [T _]].
  unfold no_span_marker. rewrite Forall_forall in *. intros c Hc.
  specialize (S c Hc). specialize (T c Hc).
  apply N.eqb_neq in S, T. unfold span_marker. rewrite S, T. reflexivity.
Qed.

Lemma no_span_of_forallb (t : text) :
  forallb (fun c => negb (span_marker c)) t = true -> no_span_marker t.
Proof.
  intro H. unfold no_span_marker. rewrite Forall_forall. intros c Hc.
  rewrite forallb_forall in H. specialize (H c Hc).
  apply negb_true_iff in H. exact H.
Qed.

Lemma blank_parts (ws : text) :
  forallb blank ws = true ->
  forallb isspace ws = true /\ Forall (fun c => c <> LF) ws.
Proof.
  induction ws as [|c ws IH]; intro H; [split; [reflexivity | constructor]|].
  simpl in H. apply andb_prop in H. destruct H as [Hc Hws].
  destruct (IH Hws) as [H1 H2]. unfold blank in Hc.
  apply andb_prop in Hc. destruct Hc as [Hs Hl]. apply negb_true_iff in Hl.
  split; [simpl; rewrite Hs; exact H1 | constructor; [apply N.eqb_neq, Hl | exact H2]].
Qed.

Lemma bullet_marker_lt (l : text) : bullet_marker (60%N :: l) = false.
Proof. destruct l; reflexivity. Qed.

(** ** A header line *)

Lemma header_match_at (m : string) (title : text) :
  title <> [] -> Forall (fun c => c <> LF) title ->
  match_at (header_pattern m) false None (str m ++ title)
  = Some (List.length (str m ++ title), [title]).
Proof.
  intros Hne Hlf. unfold match_at, header_pattern.
  change ([Plain Bol] ++ lit m ++ [Group [Rep Greedy 1 dot]; Plain Eol])
    with (Plain Bol :: chars (str m) ++ [Group [Rep Greedy 1 dot]; Plain Eol]).
  rewrite bol_first. cbn [at_line_start]. rewrite chars_match.
  cbn [match_items match_atoms match_atom].
  match goal with
  | |- context [rep_greedy ?p ?n ?K ?pr ?x] =>
      rewrite (rep_greedy_all _ p K ([], [title]) x n pr (no_lf_dot title Hlf))
  end.
  - rewrite Nat.sub_0_r. reflexivity.
  - destruct title; [contradiction | simpl; lia].
  - cbn [match_items match_atom app andb]. rewrite consumed_all. reflexivity.
Qed.

Lemma header_parts (l : level) (title : text) :
  exists o c,
    header_element l title = (60%N :: o) ++ title ++ c
    /\ forallb quiet (60%N :: o) = true /\ forallb quiet c = true.
Proof.
  destruct l;
    [exists (tl (h_open "h1" "20px" "20px 0 12px 0")), (h_close "h1")
    |exists (tl (h_open "h2" "18px" "16px 0 10px 0")), (h_close "h2")
    |exists (tl (h_open "h3" "16px" "12px 0 8px 0")), (h_close "h3")];
    (split; [|split; vm_compute; reflexivity]);
    unfold header_element, expand;
    cbn [level_template header_template flat_map nth Nat.pred];
    rewrite app_nil_r; reflexivity.
Qed.

(** ** A numbered entry *)

Lemma numbered_match_at (ds ws body : text) :
  is_decimal 46%N = false ->
  ds <> [] -> forallb is_decimal ds = true ->
  ws <> [] -> forallb isspace ws = true ->
  match body with [] => False | c :: _ => isspace c = false end ->
  Forall (fun c => c <> LF) body ->
  match_at (numbered_pattern is_decimal) false None (ds ++ 46%N :: ws ++ body)
  = Some (List.length (ds ++ 46%N :: ws ++ body), [ds; body]).
Proof.
  intros H46 Hds Dds Hws Sws Hbody Lbody. unfold match_at, numbered_pattern.
  cbn [match_items match_atoms match_atom].
  match goal with
  | |- context [rep_greedy ?p ?n ?K ?pr (ds ++ ?rest)] =>
      rewrite (rep_greedy_exact _ p K rest ([], [ds; body]) ds n pr Dds H46)
  end.
  - rewrite Nat.sub_0_r. reflexivity.
  - destruct ds; [contradiction | simpl; lia].
  - cbn [match_items match_atoms match_atom]. rewrite N.eqb_refl.
    apply rep_greedy_exact.
    + exact Sws.
    + destruct body; [contradiction | exact Hbody].
    + destruct ws; [contradiction | simpl; lia].
    + cbn [match_items match_atoms match_atom].
      apply rep_greedy_all.
      * apply no_lf_dot, Lbody.
      * destruct body; [contradiction | simpl; lia].
      * cbn [match_items match_atom app andb].
        rewrite (consumed_app ds (46%N :: ws ++ body)), consumed_all.
        reflexivity.
Qed.

Lemma numbered_parts (ds body : text) :
  exists o1 o2 o3,
    numbered_entry ds body = (60%N :: o1) ++ ds ++ o2 ++ body ++ o3
    /\ Forall (fun c => c <> LF) (60%N :: o1)
    /\ Forall (fun c => c <> LF) o2 /\ Forall (fun c => c <> LF) o3.
Proof.
  exists (tl (div_open ++ str "<b>")), (str ".</b> "), (str "</div>").
  split.
  - unfold numbered_entry, expand.
    cbn [numbered_template flat_map nth Nat.pred].
    rewrite app_nil_r. reflexivity.
  - repeat split; repeat constructor; discriminate.
Qed.

(** ** A bullet entry *)

Lemma bullet_match_at (b : char) (ws body : text) :
  is_bullet b = true ->
  ws <> [] -> forallb isspace ws = true ->
  match body with [] => False | c :: _ => isspace c = false end ->
  Forall (fun c => c <> LF) body ->
  match_at bullet_pattern false None (b :: ws ++ body)
  = Some (List.length (b :: ws ++ body), [body]).
Proof.
  intros Hb Hws Sws Hbody Lbody. unfold match_at, bullet_pattern.
  cbn [match_items match_atoms match_atom]. rewrite Hb.
  match goal with
  | |- context [rep_greedy ?p ?n ?K ?pr (ws ++ ?rest)] =>
      rewrite (rep_greedy_exact _ p K rest ([], [body]) ws n pr Sws)
  end.
  - rewrite Nat.sub_0_r. reflexivity.
  - destruct body; [contradiction | exact Hbody].
  - destruct ws; [contradiction | simpl; lia].
  - cbn [match_items match_atoms match_atom].
    apply rep_greedy_all.
    + apply no_lf_dot, Lbody.
    + destruct body; [contradiction | simpl; lia].
    + cbn [match_items match_atom app andb]. rewrite consumed_all.
      reflexivity.
Qed.

Lemma bullet_parts (body : text) :
  exists o1 o2,
    bullet_entry body = (60%N :: o1) ++ body ++ o2
    /\ Forall (fun c => c <> LF) (60%N :: o1)
    /\ Forall (fun c => c <> LF) o2.
Proof.
  exists (tl (div_open ++ [bullet; 32%N])), (str "</div>").
  split.
  - unfold bullet_entry, expand.
    cbn [bullet_template flat_map nth Nat.pred].
    rewrite app_nil_r. reflexivity.
  - repeat split; repeat constructor; discriminate.
Qed.

End EntryRendering.

(** X26.  A one-line text made of a header marker ([# ], [## ] or [### ])
    and a title: when the title is not empty and holds no asterisk, no back
    quote and no line feed, the formatter returns the header element of
    that level around the title, and nothing else.  (The table of decimal
    digits does not hold [<].) *)
Theorem header_line_is_rendered :
  forall (is_decimal : char -> bool) (l : Entries.level) (title : text),
    is_decimal 60%N = false ->
    title <> [] ->
    forallb Spans.quiet title = true ->
    Formatter.convert_markdown_to_html is_decimal
      (str (Entries.marker l) ++ title)
    = Ok (Entries.header_element l title).
Proof.
  intros is_decimal l title H60 Hne Hq.
  rewrite convert_unfolded.
  destruct (quiet_parts title Hq) as [_ [_ [Lt _]]].
  set (t := str (Entries.marker l) ++ title).
  assert (Lt' : Forall (fun c => c <> LF) t)
    by (unfold t; apply Forall_app; split;
        [destruct l; repeat constructor; discriminate | exact Lt]).
  assert (Tne : t <> []) by (unfold t; destruct l; discriminate).
  destruct (header_parts l title) as [o [c [He [Qo Qc]]]].
  set (e := Entries.header_element l title) in *.
  assert (Qe : forallb Spans.quiet e = true).
  { rewrite He, forallb_app. apply andb_true_intro.
    split; [exact Qo|]. rewrite forallb_app. apply andb_true_intro.
    split; assumption. }
  destruct (quiet_parts e Qe) as [_ [_ [Le _]]].
  assert (Fe : match e with [] => True | c :: _ => c <> 35%N end)
    by (rewrite He; simpl; discriminate).
  assert (Hheaders :
            Re.sub_scan (Formatter.header_pattern "# ")
              (Formatter.header_template "h1" "20px" "20px 0 12px 0") 0 None
              (Re.sub_scan (Formatter.header_pattern "## ")
                 (Formatter.header_template "h2" "18px" "16px 0 10px 0") 0 None
                 (Re.sub_scan (Formatter.header_pattern "### ")
                    (Formatter.header_template "h3" "16px" "12px 0 8px 0")
                    0 None t))
            = e).
  { assert (Skip : forall (m : string) tm,
               startswith (str m) t = false ->
               Re.sub_scan (Formatter.header_pattern m) tm 0 None t = t).
    { intros m tm Hm. apply sub_scan_unchanged.
      apply (bol_never_matches
               (Re.lit m ++ [Re.Group [Re.Rep Re.Greedy 1 Re.dot]; Re.Plain Re.Eol])
               t Lt').
      apply (bol_chars_no_match m). intros _. exact Hm. }
    destruct l.
    - rewrite (Skip "### "%string _ eq_refl), (Skip "## "%string _ eq_refl).
      exact (whole_match _ _ t [title] Tne Lt' (header_match_at "# " title Hne Lt)).
    - rewrite (Skip "### "%string _ eq_refl).
      assert (E : Re.sub_scan (Formatter.header_pattern "## ")
                    (Formatter.header_template "h2" "18px" "16px 0 10px 0")
                    0 None t = e)
        by exact (whole_match _ _ t [title] Tne Lt'
                    (header_match_at "## " title Hne Lt)).
      rewrite E. clearbody e t.
      apply (header_unchanged "# " (str " ") _ e eq_refl Le Fe).
    - assert (E : Re.sub_scan (Formatter.header_pattern "### ")
                    (Formatter.header_template "h3" "16px" "12px 0 8px 0")
                    0 None t = e)
        by exact (whole_match _ _ t [title] Tne Lt'
                    (header_match_at "### " title Hne Lt)).
      rewrite E. clearbody e t.
      rewrite (header_unchanged "## " (str "# ") _ e eq_refl Le Fe).
      apply (header_unchanged "# " (str " ") _ e eq_refl Le Fe). }
  clearbody e t.
  rewrite Hheaders, (spans_unchanged e (quiet_no_span e Qe)).
  rewrite (replace_char_none e Le).
  assert (Hm : Formatter.list_marker is_decimal e = false
               /\ Formatter.bullet_marker e = false)
    by (rewrite He; apply markers_off; [exact H60 | reflexivity]).
  destruct Hm as [Hlist Hbullet].
  rewrite (numbered_unchanged is_decimal e Le Hlist).
  rewrite (bullet_unchanged e Le Hbullet).
  reflexivity.
Qed.

Lemma header_line_is_rendered_witness :
  Formatter.convert_markdown_to_html (fun c => (48 <=? c)%N && (c <=? 57)%N)
    (str (Entries.marker Entries.H2) ++ str "Key points")
  = Ok (Entries.header_element Entries.H2 (str "Key points")).
Proof.
  apply (header_line_is_rendered (fun c => (48 <=? c)%N && (c <=? 57)%N)
           Entries.H2 (str "Key points")).
  - reflexivity.
  - discriminate.
  - reflexivity.
Defined.

(** X27.  A text that starts with a numbered entry (decimal digits, a full
    stop, white space, then something that is not white space), without
    span markers and without a line that starts with a hash sign: the
    formatter makes one entry of the number, whose body is all the rest of
    the text, the later lines included, with its line feeds replaced by
    [<br>]; a numbered line further down is not made an entry of its own.
    (The table of decimal digits does not hold the full stop.) *)
Theorem numbered_entry_takes_the_rest :
  forall (is_decimal : char -> bool) (ds ws body : text),
    is_decimal 46%N = false ->
    ds <> [] ->
    forallb (fun c => is_decimal c && negb (c =? LF)%N) ds = true ->
    ws <> [] ->
    forallb Entries.blank ws = true ->
    Entries.starts_solid body = true ->
    forallb (fun c => negb (Formatter.span_marker c))
            (ds ++ 46%N :: ws ++ body) = true ->
    forallb Entries.hashless (split LF (ds ++ 46%N :: ws ++ body)) = true ->
    Formatter.convert_markdown_to_html is_decimal (ds ++ 46%N :: ws ++ body)
    = Ok (Entries.numbered_entry ds (replace_char LF (str "<br>") body)).
Proof.
  intros is_decimal ds ws body H46 Hds Dds Hws Bws Hbody Hspan Hhash.
  rewrite convert_unfolded.
  rewrite (headers_unchanged_hashless _ Hhash).
  rewrite (spans_unchanged _ (no_span_of_forallb _ Hspan)).
  assert (Hd : forallb is_decimal ds = true /\ Forall (fun c => c <> LF) ds).
  { clear Hds Hspan Hhash. induction ds as [|c ds IH];
      [split; [reflexivity | constructor]|].
    simpl in Dds. apply andb_prop in Dds. destruct Dds as [Hc Dds].
    destruct (IH Dds) as [H1 H2]. apply andb_prop in Hc. destruct Hc as [Hc Hl].
    apply negb_true_iff in Hl.
    split; [simpl; rewrite Hc; exact H1
           | constructor; [apply N.eqb_neq, Hl | exact H2]]. }
  destruct Hd as [Dec Lds]. destruct (blank_parts ws Bws) as [Sws Lws].
  set (body' := replace_char LF (str "<br>") body).
  assert (Hu : replace_char LF (str "<br>") (ds ++ 46%N :: ws ++ body)
               = ds ++ 46%N :: ws ++ body').
  { rewrite replace_char_app, (replace_char_none ds Lds).
    change (46%N :: ws ++ body) with ([46%N] ++ ws ++ body).
    rewrite !replace_char_app, (replace_char_none ws Lws). reflexivity. }
  rewrite Hu.
  assert (Lb : Forall (fun c => c <> LF) body') by apply replace_no_lf.
  destruct (replace_starts_solid body Hbody) as [c [rest [Eb Hc]]].
  fold body' in Eb.
  assert (Lu : Forall (fun c => c <> LF) (ds ++ 46%N :: ws ++ body')).
  { apply Forall_app. split; [exact Lds|]. constructor; [discriminate|].
    apply Forall_app. split; assumption. }
  assert (E : Re.sub_scan (Formatter.numbered_pattern is_decimal)
                Formatter.numbered_template 0 None (ds ++ 46%N :: ws ++ body')
              = Entries.numbered_entry ds body').
  { apply (whole_match _ _ (ds ++ 46%N :: ws ++ body') [ds; body']).
    - destruct ds; [contradiction | discriminate].
    - exact Lu.
    - apply (numbered_match_at is_decimal ds ws body' H46 Hds Dec Hws Sws);
        [rewrite Eb; exact Hc | exact Lb]. }
  rewrite E.
  destruct (numbered_parts ds body') as [o1 [o2 [o3 [He [L1 [L2 L3]]]]]].
  rewrite bullet_unchanged; [reflexivity | |].
  - rewrite He. repeat (apply Forall_app; split); assumption.
  - rewrite He. apply bullet_marker_lt.
Qed.

Lemma numbered_entry_takes_the_rest_witness :
  Formatter.convert_markdown_to_html (fun c => (48 <=? c)%N && (c <=? 57)%N)
    (str "1" ++ 46%N :: str " " ++ str "first" ++ LF :: str "2. second")
  = Ok (Entries.numbered_entry (str "1")
          (replace_char LF (str "<br>") (str "first" ++ LF :: str "2. second"))).
Proof.
  apply (numbered_entry_takes_the_rest (fun c => (48 <=? c)%N && (c <=? 57)%N)
           (str "1") (str " ") (str "first" ++ LF :: str "2. second"));
    try reflexivity; discriminate.
Defined.

(** X28.  A text that starts with a bullet entry (a bullet character or a
    hyphen, white space, then something that is not white space), without
    span markers and without a line that starts with a hash sign: the
    formatter makes one entry whose body is all the rest of the text, the
    later lines included, with its line feeds replaced by [<br>]; a bullet
    line further down is not made an entry of its own.  (The bullet
    character is no decimal digit of the table.) *)
Theorem bullet_entry_takes_the_rest :
  forall (is_decimal : char -> bool) (b : char) (ws body : text),
    Formatter.is_bullet b = true ->
    is_decimal b = false ->
    ws <> [] ->
    forallb Entries.blank ws = true ->
    Entries.starts_solid body = true ->
    forallb (fun c => negb (Formatter.span_marker c)) (b :: ws ++ body) = true ->
    forallb Entries.hashless (split LF (b :: ws ++ body)) = true ->
    Formatter.convert_markdown_to_html is_decimal (b :: ws ++ body)
    = Ok (Entries.bullet_entry (replace_char LF (str "<br>") body)).
Proof.
  intros is_decimal b ws body Hb Hdec Hws Bws Hbody Hspan Hhash.
  rewrite convert_unfolded.
  rewrite (headers_unchanged_hashless _ Hhash).
  rewrite (spans_unchanged _ (no_span_of_forallb _ Hspan)).
  destruct (blank_parts ws Bws) as [Sws Lws].
  assert (Hblf : b <> LF).
  { intro E. subst b. discriminate Hb. }
  set (body' := replace_char LF (str "<br>") body).
  assert (Hu : replace_char LF (str "<br>") (b :: ws ++ body)
               = b :: ws ++ body').
  { change (b :: ws ++ body) with ([b] ++ ws ++ body).
    rewrite !replace_char_app, (replace_char_none ws Lws).
    rewrite (replace_char_none [b]) by (constructor; [exact Hblf | constructor]).
    reflexivity. }
  rewrite Hu.
  assert (Lb : Forall (fun c => c <> LF) body') by apply replace_no_lf.
  destruct (replace_starts_solid body Hbody) as [c [rest [Eb Hc]]].
  fold body' in Eb.
  assert (Lu : Forall (fun c => c <> LF) (b :: ws ++ body')).
  { constructor; [exact Hblf|]. apply Forall_app. split; assumption. }
  rewrite (numbered_unchanged is_decimal (b :: ws ++ body') Lu)
    by (simpl; rewrite Hdec; reflexivity).
  apply f_equal.
  apply (whole_match _ _ (b :: ws ++ body') [body']).
  - discriminate.
  - exact Lu.
  - apply (bullet_match_at b ws body' Hb Hws Sws);
      [rewrite Eb; exact Hc | exact Lb].
Qed.

Lemma bullet_entry_takes_the_rest_witness :
  Formatter.convert_markdown_to_html (fun c => (48 <=? c)%N && (c <=? 57)%N)
    (45%N :: str " " ++ str "first" ++ LF :: str "- second")
  = Ok (Entries.bullet_entry
          (replace_char LF (str "<br>") (str "first" ++ LF :: str "- second"))).
Proof.
  apply (bullet_entry_takes_the_rest (fun c => (48 <=? c)%N && (c <=? 57)%N)
           45%N (str " ") (str "first" ++ LF :: str "- second"));
    try reflexivity; discriminate.
Defined.
